(** * ht: two-phase convection and flow-boiling correlations

    A shallow embedding of [ht/boiling_flow.py] and [ht/conv_two_phase.py].

    Python floats are read as exact real numbers (no rounding, overflow or
    underflow); everything else follows the interpreter: an optional argument
    is [None] or a float, [if q:] tests truthiness, [q is None] tests identity,
    and an operation that raises in Python raises here, in the order Python
    evaluates it. *)

From Stdlib Require Import Reals Machin Lra Lia ZArith String Bool.

Set Warnings "-uniform-inheritance,-ambiguous-paths".

Open Scope R_scope.

(** ** Exceptions and results *)

Inductive exn : Type :=
| Exception (msg : string)   (* raise Exception('...') *)
| TypeError                  (* arithmetic on None *)
| ZeroDivisionError          (* float division by zero, 0.0 ** negative *)
| ValueError                 (* math domain error *)
| SolverError.               (* whatever the root finder reports *)

Inductive result (A : Type) : Type :=
| Ok (a : A)
| Raise (e : exn).

Arguments Ok {A} a.
Arguments Raise {A} e.

Definition bind {A B : Type} (c : result A) (k : A -> result B) : result B :=
  match c with
  | Ok a => k a
  | Raise e => Raise e
  end.

Declare Scope py_scope.
Delimit Scope py_scope with py.
Bind Scope py_scope with result.

Notation "x <- c ;; k" := (bind c (fun x => k))
  (at level 61, c at next level, right associativity) : py_scope.
Notation "' pat <- c ;; k" := (bind c (fun x => match x with pat => k end))
  (at level 61, pat pattern, c at next level, right associativity) : py_scope.

(** A float value as an operand of an expression. *)
Definition ret (v : R) : result R := Ok v.
Coercion ret : R >-> result.

(** An optional float argument: [None] or a float. *)
Definition pyopt : Type := option R.

(** [if q:] *)
Definition truthy (o : pyopt) : bool :=
  match o with
  | Some v => if Req_dec_T v 0 then false else true
  | None => false
  end.

(** [q is None] *)
Definition is_None (o : pyopt) : bool :=
  match o with
  | Some _ => false
  | None => true
  end.

(** An optional argument used as a number: [None] raises [TypeError]. *)
Definition num (o : pyopt) : result R :=
  match o with
  | Some v => Ok v
  | None => Raise TypeError
  end.
Coercion num : pyopt >-> result.

(** ** Python arithmetic *)

Module Py.

(** Binary operators evaluate the left operand, then the right one. *)
Definition binop (f : R -> R -> result R) (a b : result R) : result R :=
  match a with
  | Ok x => match b with
            | Ok y => f x y
            | Raise e => Raise e
            end
  | Raise e => Raise e
  end.

Definition add : result R -> result R -> result R :=
  binop (fun x y => Ok (x + y)).
Definition sub : result R -> result R -> result R :=
  binop (fun x y => Ok (x - y)).
Definition mul : result R -> result R -> result R :=
  binop (fun x y => Ok (x * y)).

(** [x / y] under [from __future__ import division]. *)
Definition truediv_float (x y : R) : result R :=
  if Req_dec_T y 0 then Raise ZeroDivisionError else Ok (x / y).
Definition truediv : result R -> result R -> result R :=
  binop truediv_float.

(** The integer a float is equal to, if any. *)
Definition int_of (y : R) : option Z :=
  let n := (up y - 1)%Z in
  if Req_dec_T (IZR n) y then Some n else None.

(** [x ** y]: a positive base takes any exponent; [0.0 ** y] is 0, 1 or
    [ZeroDivisionError] by the sign of [y]; a negative base takes an integral
    exponent and otherwise leaves the reals (Python 2 raises [ValueError],
    Python 3 answers with a complex number). *)
Definition pow_float (x y : R) : result R :=
  if Rlt_dec 0 x then Ok (Rpower x y)
  else if Req_dec_T x 0 then
    if Rlt_dec 0 y then Ok 0
    else if Req_dec_T y 0 then Ok 1
    else Raise ZeroDivisionError
  else
    match int_of y with
    | Some n => Ok (powerRZ x n)
    | None => Raise ValueError
    end.
Definition pow : result R -> result R -> result R :=
  binop pow_float.

(** [math.log10] *)
Definition log10_float (x : R) : result R :=
  if Rlt_dec 0 x then Ok (ln x / ln 10) else Raise ValueError.
Definition log10 (a : result R) : result R :=
  x <- a ;; log10_float x.

(** Unary plus. *)
Definition pos (a : result R) : result R := a.

(** [math.pi] and [scipy.constants.g] *)
Definition pi : R := PI.
Definition g : R := 9.80665.

End Py.

Notation "x + y" := (Py.add x y) : py_scope.
Notation "x - y" := (Py.sub x y) : py_scope.
Notation "x * y" := (Py.mul x y) : py_scope.
Notation "x / y" := (Py.truediv x y) : py_scope.
Notation "x ** y" := (Py.pow x y) (at level 30, right associativity) : py_scope.

(** ** External collaborators *)

(** Modelled from the spec: the dimensionless groups and the viscosity
    conversion of the [fluids] package ([fluids.core]), which is not part of
    the sources; each is the formula the package documents, evaluated on the
    arguments the two files pass. *)
Module fluids_core.
Local Open Scope py_scope.

Definition Reynolds (V D rho mu : result R) : result R :=
  rho*V*D/mu.

Definition Prandtl (Cp k mu : result R) : result R :=
  Cp*mu/k.

Definition Weber (V L rho sigma : result R) : result R :=
  V**2*L*rho/sigma.

Definition Bond (rhol rhog sigma L : result R) : result R :=
  Py.g*(rhol-rhog)*L**2/sigma.

Definition Boiling (G q Hvap : result R) : result R :=
  q/(G*Hvap).

Definition nu_mu_converter (rho mu : result R) : result R :=
  mu/rho.

End fluids_core.

(** Modelled from the spec: [ht/conv_internal.py], which is not part of the
    sources. [turbulent_Gnielinski] is the formula for Nu_trans in the
    docstring of [Thome]; [laminar_entry_Seider_Tate] is the laminar entry
    correlation [Knott] documents, whose viscosity correction is applied only
    when both viscosities are given. *)
Module conv_internal.
Local Open Scope py_scope.

Definition turbulent_Gnielinski (Re Pr fd : result R) : result R :=
  (fd/8)*(Re-1000)*Pr/(1 + 12.7*(fd/8)**0.5*(Pr**(2/3) - 1)).

Definition laminar_entry_Seider_Tate (Re Pr L Di : result R) (mu mu_w : pyopt)
  : result R :=
  Nu <- 1.86*(Di/L*Re*Pr)**(1/3) ;;
  if truthy mu_w && truthy mu then
    Nu*(mu/mu_w)**0.14
  else
    Nu.

End conv_internal.

(** The root finder [scipy.optimize.fsolve(func, x0)]: it answers with a root
    estimate or with whatever error it or [func] raises. *)
Definition solver : Type := (R -> result R) -> R -> result R.

(** ** ht/boiling_flow.py *)

Module boiling_flow.
Import fluids_core conv_internal.
Local Open Scope py_scope.

Definition missing_q_Te : exn :=
  Exception "Either q or Te is needed for this correlation".

Definition Lazarek_Black (m D mul kl Hvap : R) (q Te : pyopt) : result R :=
  G <- m/(Py.pi/4*D**2) ;;
  Relo <- G*D/mul ;;
  if truthy q then
    Bg <- Boiling G q Hvap ;;
    30*Relo**0.857*Bg**0.714*kl/D
  else if truthy Te then
    27000*30**(71/143)*(1/(G*Hvap))**(357/143)*Relo**(857/286)*Te**(357/143)
      *kl**(500/143)/D**(500/143)
  else
    Raise missing_q_Te.

Definition Li_Wu (m x D rhol rhog mul kl Hvap sigma : R) (q Te : pyopt)
  : result R :=
  G <- m/(Py.pi/4*D**2) ;;
  Rel <- G*D*(1-x)/mul ;;
  Bo <- Bond rhol rhog sigma D ;;
  if truthy q then
    Bg <- Boiling G q Hvap ;;
    334*Bg**0.3*(Bo*Rel**0.36)**0.4*kl/D
  else if truthy Te then
    A <- 334*(Bo*Rel**0.36)**0.4*kl/D ;;
    A**(10/7)*Te**(3/7)/(G**(3/7)*Hvap**(3/7))
  else
    Raise missing_q_Te.

Definition Sun_Mishima (m D rhol rhog mul kl Hvap sigma : R) (q Te : pyopt)
  : result R :=
  G <- m/(Py.pi/4*D**2) ;;
  V <- G/rhol ;;
  Relo <- G*D/mul ;;
  We <- Weber V D rhol sigma ;;
  if truthy q then
    Bg <- Boiling G q Hvap ;;
    6*Relo**1.05*Bg**0.54/(We**0.191*(rhol/rhog)**0.142)*kl/D
  else if truthy Te then
    A <- 6*Relo**1.05/(We**0.191*(rhol/rhog)**0.142)*kl/D ;;
    A**(50/23)*Te**(27/23)/(G**(27/23)*Hvap**(27/23))
  else
    Raise missing_q_Te.

Definition Yun_Heo_Kim (m x D rhol mul Hvap sigma : R) (q Te : pyopt)
  : result R :=
  G <- m/(Py.pi/4*D**2) ;;
  V <- G/rhol ;;
  Rel <- G*D*(1-x)/mul ;;
  We <- Weber V D rhol sigma ;;
  if truthy q then
    Bg <- Boiling G q Hvap ;;
    136876*(Bg*We)**0.1993*Rel**(-0.1626)
  else if truthy Te then
    A <- 136876*(We)**0.1993*Rel**(-0.1626)*(Te/G/Hvap)**0.1993 ;;
    A**(10000/8007)
  else
    Raise missing_q_Te.

(** The local variables of [Thome] when it returns. *)
Record Thome_frame : Type := mk_Thome_frame {
  C_delta0 : R; G : R; Rel : R; Reg : R; qref : R; fopt : R; tau : R;
  vp : R; Bo : R; nul : R; delta0 : R; tl : R; tv : R; t_dry_film : R;
  t_film : R; delta_end : R; t_dry : R; Ll : R; Ldry : R;
  Prg : R; Prl : R; fg : R; fl : R;
  Nu_lam_Zl : R; Nu_trans_Zl : R; Nu_lam_Zg : R; Nu_trans_Zg : R;
  h_Zg : R; h_Zl : R; h_film : R; h : R
}.

(** The vapor Nusselt numbers: the [else:] suite of [if Ldry == 0:] ... *)
Definition Thome_vapor_Nu_else (D Reg Prg fg Ldry : R) : result (R * R) :=
  Nu_lam_Zg <- 2*0.455*(Prg)**(1/3)*(D*Reg/Ldry)**0.5 ;;
  Nu_trans_Zg <- turbulent_Gnielinski Reg Prg fg*(1 + (D/Ldry)**(2/3)) ;;
  Ok (Nu_lam_Zg, Nu_trans_Zg).

(** ... and the [if Ldry == 0:] statement. *)
Definition Thome_vapor_Nu (D Reg Prg fg Ldry : R) : result (R * R) :=
  if Req_dec_T Ldry 0 then
    Ok (0%R, 0%R)
  else
    Thome_vapor_Nu_else D Reg Prg fg Ldry.

(** The body of [Thome] below its two guards (the heat-flux path), run to the
    [return] statement. *)
Definition Thome_body (m x D rhol rhog mul mug kl kg Cpl Cpg Hvap sigma Psat
    Pc : R) (q : pyopt) : result Thome_frame :=
  let C_delta0 := 0.3E-6%R in
  G <- m/(Py.pi/4*D**2) ;;
  Rel <- G*D*(1-x)/mul ;;
  Reg <- G*D*x/mug ;;
  qref <- 3328*(Psat/Pc)**(-0.5) ;;
  fopt <- (q/qref)**1.74 ;;
  tau <- 1/fopt ;;

  vp <- G*(x/rhog + (1-x)/rhol) ;;
  Bo <- rhol*D/sigma*vp**2 ;;
  nul <- nu_mu_converter rhol mul ;;
  delta0 <- D*0.29*(3*(nul/vp/D)**0.5)**0.84
              *((0.07*Bo**0.41)**(-8) + 0.1**(-8))**(-1/8) ;;

  tl <- tau/(1 + rhol/rhog*(x/(1-x))) ;;
  tv <- tau/(1 + Py.pos rhog/rhol*((1-x)/x)) ;;

  t_dry_film <- rhol*Hvap/q*(delta0 - C_delta0) ;;
  '(t_film, delta_end, t_dry) <-
    (if Rgt_dec t_dry_film tv then
       delta_end <- delta0 - q/rhol/Hvap*tv ;;
       Ok (tv, delta_end, 0%R)
     else
       Ok (t_dry_film, C_delta0, (tv - t_dry_film)%R)) ;;
  Ll <- tau*G/rhol*(1-x) ;;
  Ldry <- t_dry*vp ;;

  Prg <- Prandtl Cpg kg mug ;;
  Prl <- Prandtl Cpl kl mul ;;
  fg <- (1.82*Py.log10 Reg - 1.64)**(-2) ;;
  fl <- (1.82*Py.log10 Rel - 1.64)**(-2) ;;

  Nu_lam_Zl <- 2*0.455*(Prl)**(1/3)*(D*Rel/Ll)**0.5 ;;
  Nu_trans_Zl <- turbulent_Gnielinski Rel Prl fl*(1 + (D/Ll)**(2/3)) ;;
  '(Nu_lam_Zg, Nu_trans_Zg) <- Thome_vapor_Nu D Reg Prg fg Ldry ;;

  h_Zg <- kg/D*(Nu_lam_Zg**4 + Nu_trans_Zg**4)**0.25 ;;
  h_Zl <- kl/D*(Nu_lam_Zl**4 + Nu_trans_Zl**4)**0.25 ;;

  h_film <- 2*kl/(delta0 + C_delta0) ;;
  h <- tl/tau*h_Zl + t_film/tau*h_film + t_dry/tau*h_Zg ;;
  Ok (mk_Thome_frame C_delta0 G Rel Reg qref fopt tau vp Bo nul delta0 tl tv
        t_dry_film t_film delta_end t_dry Ll Ldry Prg Prl fg fl
        Nu_lam_Zl Nu_trans_Zl Nu_lam_Zg Nu_trans_Zg h_Zg h_Zl h_film h).

(** Which of its three paths [Thome] takes. *)
Inductive Thome_path : Type :=
| solve_for_q       (* [if q is None and Te:] *)
| raise_missing     (* [elif q is None and Te is None:] *)
| heat_flux.        (* neither guard holds: the body runs on [q] *)

Definition Thome_guard (q Te : pyopt) : Thome_path :=
  if is_None q && truthy Te then solve_for_q
  else if is_None q && is_None Te then raise_missing
  else heat_flux.

Section Thome.

Variable fsolve : solver.

(** [Thome] calls itself with [q] given, which runs the body. *)
Definition Thome (m x D rhol rhog mul mug kl kg Cpl Cpg Hvap sigma Psat
    Pc : R) (q Te : pyopt) : result R :=
  let Thome_q (q : pyopt) : result R :=
    f <- Thome_body m x D rhol rhog mul mug kl kg Cpl Cpg Hvap sigma Psat Pc
           q ;;
    Ok (h f) in
  match Thome_guard q Te with
  | solve_for_q =>
      let to_solve := fun q : R => q/Thome_q (Some q) - Te in
      q <- fsolve to_solve 1E4 ;;
      Thome_q (Some q)
  | raise_missing =>
      Raise missing_q_Te
  | heat_flux =>
      Thome_q q
  end.

End Thome.

End boiling_flow.

(** ** ht/conv_two_phase.py *)

Module conv_two_phase.
Import fluids_core conv_internal.
Local Open Scope py_scope.

Definition Davis_David (m x D rhol rhog Cpl kl mul : R) : result R :=
  G <- m/(Py.pi/4*D**2) ;;
  Prl <- Prandtl Cpl kl mul ;;
  Nu_TP <- 0.060*(rhol/rhog)**0.28*(D*G*x/mul)**0.87*Prl**0.4 ;;
  h <- Nu_TP*kl/D ;;
  h.

Definition Elamvaluthi_Srinivas (m x D rhol rhog Cpl kl mug mu_b : R)
    (mu_w : pyopt) : result R :=
  Vg <- m*x/(rhog*Py.pi/4*D**2) ;;
  Vl <- m*(1-x)/(rhol*Py.pi/4*D**2) ;;

  Prl <- Prandtl Cpl kl mu_b ;;
  ReM <- D*Vl*rhol/mu_b + D*Vg*rhog/mug ;;
  Nu_TP <- 0.5*(mug/mu_b)**0.25*ReM**0.7*Prl**(1/3) ;;
  Nu_TP <- (if truthy mu_w then Nu_TP*(mu_b/mu_w)**0.14 else Nu_TP) ;;
  h_TP <- Nu_TP*kl/D ;;
  h_TP.

Definition Groothuis_Hendal (m x D rhol rhog Cpl kl mug mu_b : R)
    (mu_w : pyopt) (water : bool) : result R :=
  Vg <- m*x/(rhog*Py.pi/4*D**2) ;;
  Vl <- m*(1-x)/(rhol*Py.pi/4*D**2) ;;

  Prl <- Prandtl Cpl kl mu_b ;;
  ReM <- D*Vl*rhol/mu_b + D*Vg*rhog/mug ;;

  Nu_TP <- (if water then
              0.029*(ReM)**0.87*(Prl)**(1/3)
            else
              2.6*ReM**0.39*Prl**(1/3)) ;;
  Nu_TP <- (if truthy mu_w then Nu_TP*(mu_b/mu_w)**0.14 else Nu_TP) ;;
  h_TP <- Nu_TP*kl/D ;;
  h_TP.

Definition Hughmark (m x alpha D L Cpl kl : R) (mu_b mu_w : pyopt)
  : result R :=
  ml <- m*(1-x) ;;
  RL <- 1-alpha ;;
  Nu_TP <- 1.75*(RL)**(-0.5)*(ml*Cpl/RL/kl/L)**(1/3) ;;
  Nu_TP <- (if truthy mu_b && truthy mu_w then
              Nu_TP*(mu_b/mu_w)**0.14
            else Nu_TP) ;;
  h <- Nu_TP*kl/D ;;
  h.

Definition Knott (m x D rhol rhog : R) (Cpl kl mu_b mu_w L hl : pyopt)
  : result R :=
  Vgs <- m*x/(rhog*Py.pi/4*D**2) ;;
  Vls <- m*(1-x)/(rhol*Py.pi/4*D**2) ;;
  hl <- (if negb (truthy hl) then
           V <- Vgs + Vls ;;
           Re <- Reynolds V D rhol mu_b ;;
           Pr <- Prandtl Cpl kl mu_b ;;
           Nul <- laminar_entry_Seider_Tate Re Pr L D mu_b mu_w ;;
           Nul*kl/D
         else hl) ;;
  hl*(1 + Vgs/Vls)**(1/3).

Definition Kudirka_Grosh_McFadden (m x D rhol rhog Cpl kl mug mu_b : R)
    (mu_w : pyopt) : result R :=
  Vgs <- m*x/(rhog*Py.pi/4*D**2) ;;
  Vls <- m*(1-x)/(rhol*Py.pi/4*D**2) ;;
  Prl <- Prandtl Cpl kl mu_b ;;
  Rels <- D*Vls*rhol/mu_b ;;
  Nu <- 125*(Vgs/Vls)**0.125*(mug/mu_b)**0.6*Rels**0.25*Prl**(1/3) ;;
  Nu <- (if truthy mu_w then Nu*(mu_b/mu_w)**0.14 else Nu) ;;
  h_TP <- Nu*kl/D ;;
  h_TP.

Definition Martin_Sims (m x D rhol rhog hl : R) : result R :=
  Vgs <- m*x/(rhog*Py.pi/4*D**2) ;;
  Vls <- m*(1-x)/(rhol*Py.pi/4*D**2) ;;
  hl*(1 + 0.64*(Vgs/Vls)**0.5).

Definition Ravipudi_Godbold (m x D rhol rhog Cpl kl mug mu_b : R)
    (mu_w : pyopt) : result R :=
  Vgs <- m*x/(rhog*Py.pi/4*D**2) ;;
  Vls <- m*(1-x)/(rhol*Py.pi/4*D**2) ;;
  Prl <- Prandtl Cpl kl mu_b ;;
  Rels <- D*Vls*rhol/mu_b ;;
  Nu <- 0.56*(Vgs/Vls)**0.3*(mug/mu_b)**0.2*Rels**0.6*Prl**(1/3) ;;
  Nu <- (if truthy mu_w then Nu*(mu_b/mu_w)**0.14 else Nu) ;;
  h_TP <- Nu*kl/D ;;
  h_TP.

(** [if turbulent] for the flag [turbulent], which is a bool or [None]. *)
Definition truthy_flag (o : option bool) : bool :=
  match o with
  | Some b => b
  | None => false
  end.

Definition flag_is_None (o : option bool) : bool :=
  match o with
  | Some _ => false
  | None => true
  end.

(** [Rel > 2000] *)
Definition gt (a b : R) : bool := if Rgt_dec a b then true else false.

Definition Aggour (m x alpha D rhol Cpl kl mu_b : R) (mu_w L : pyopt)
    (turbulent : option bool) : result R :=
  Vls <- m*(1-x)/(rhol*Py.pi/4*D**2) ;;
  Vl <- Vls/(1-alpha) ;;

  Prl <- Prandtl Cpl kl mu_b ;;
  Rel <- Reynolds Vl D rhol mu_b ;;

  if truthy_flag turbulent || (gt Rel 2000 && flag_is_None turbulent) then
    hl <- 0.0155*(kl/D)*Rel**0.83*Prl**0.5 ;;
    h_TP <- hl*(1-alpha)**(-0.83) ;;
    h_TP
  else
    hl <- 1.615*(kl/D)*(Rel*Prl*D/L)**(1/3) ;;
    hl <- (if truthy mu_w then hl*(mu_b/mu_w)**0.14 else hl) ;;
    h_TP <- hl*(1-alpha)**(-1/3) ;;
    h_TP.

End conv_two_phase.

Import boiling_flow conv_two_phase.

(** * The properties stated of the correlations *)

(** The call returns a strictly positive coefficient. *)
Definition positive (r : result R) : Prop :=
  exists h, r = Ok h /\ 0 < h.

(** An optional argument is left out or strictly positive. *)
Definition supplied_pos (o : pyopt) : Prop :=
  forall v, o = Some v -> 0 < v.

(** Whatever the call returns is strictly positive. *)
Definition returned_positive (r : result R) : Prop :=
  forall h, r = Ok h -> 0 < h.

(** The heat-flux path at [q] returns [h > 0], and the excess-temperature
    path at [Te = q/h] returns [h'] with [h'*Te = q]. *)
Definition round_trip (f : pyopt -> pyopt -> result R) (q : R) : Prop :=
  exists h, f (Some q) None = Ok h /\ 0 < h /\
  exists h', f None (Some (q / h)) = Ok h' /\ h' * (q / h) = q.

(** The errors of arithmetic, as opposed to the designated one. *)
Definition arithmetic (e : exn) : Prop :=
  e = TypeError \/ e = ZeroDivisionError \/ e = ValueError.

Definition raises_arithmetic (r : result R) : Prop :=
  forall e, r = Raise e -> arithmetic e.

(** What holds of the local variables when [Thome] returns from the
    heat-flux path with heat flux [qv]. *)
Record Thome_returned (x D rhol rhog kl kg Hvap qv : R) (f : Thome_frame)
  : Prop := {
  ret_C_delta0 : C_delta0 f = 0.3e-6;
  ret_x : x <> 0;
  ret_1x : 1 - x <> 0;
  ret_rhol : rhol <> 0;
  ret_rhog : rhog <> 0;
  ret_q : qv <> 0;
  ret_D : D <> 0;
  ret_fopt : Py.pow_float (qv / qref f) 1.74 = Ok (fopt f);
  ret_fopt_nz : fopt f <> 0;
  ret_tau_nz : tau f <> 0;
  ret_tau : tau f = 1 / fopt f;
  ret_tl_den : 1 + rhol/rhog*(x/(1-x)) <> 0;
  ret_tv_den : 1 + rhog/rhol*((1-x)/x) <> 0;
  ret_tl : tl f = tau f / (1 + rhol/rhog*(x/(1-x)));
  ret_tv : tv f = tau f / (1 + rhog/rhol*((1-x)/x));
  ret_t_dry_film : t_dry_film f = rhol*Hvap/qv*(delta0 f - C_delta0 f);
  ret_survives :
    t_dry_film f > tv f ->
    t_film f = tv f /\
    delta_end f = delta0 f - qv/rhol/Hvap*tv f /\
    t_dry f = 0 /\ Hvap <> 0;
  ret_dries :
    ~ t_dry_film f > tv f ->
    t_film f = t_dry_film f /\
    delta_end f = C_delta0 f /\
    t_dry f = tv f - t_dry_film f;
  ret_Ldry : Ldry f = t_dry f * vp f;
  ret_vapor :
    Thome_vapor_Nu D (Reg f) (Prg f) (fg f) (Ldry f)
    = Ok (Nu_lam_Zg f, Nu_trans_Zg f);
  ret_h_Zg :
    exists a b c,
      Py.pow_float (Nu_lam_Zg f) 4 = Ok a /\
      Py.pow_float (Nu_trans_Zg f) 4 = Ok b /\
      Py.pow_float (a + b) 0.25 = Ok c /\
      h_Zg f = kg/D*c;
  ret_h_film_den : delta0 f + C_delta0 f <> 0;
  ret_h_film : h_film f = 2*kl/(delta0 f + C_delta0 f);
  ret_h :
    h f = tl f/tau f*h_Zl f + t_film f/tau f*h_film f + t_dry f/tau f*h_Zg f
}.

(** The locals of [Thome] up to the dry-out test, on positive inputs. *)
Record Thome_formulas (m x D rhol rhog mul mug Hvap sigma Psat Pc qv : R)
    (f : Thome_frame) : Prop := {
  frm_G : G f = m/(PI/4*Rpower D 2);
  frm_Rel : Rel f = G f*D*(1-x)/mul;
  frm_Reg : Reg f = G f*D*x/mug;
  frm_qref : qref f = 3328*Rpower (Psat/Pc) (-0.5);
  frm_fopt : fopt f = Rpower (qv/qref f) 1.74;
  frm_tau : tau f = 1/fopt f;
  frm_vp : vp f = G f*(x/rhog + (1-x)/rhol);
  frm_Bo : Bo f = rhol*D/sigma*Rpower (vp f) 2;
  frm_nul : nul f = mul/rhol;
  frm_delta0 :
    delta0 f = D*0.29*Rpower (3*Rpower (nul f/vp f/D) 0.5) 0.84
               *Rpower (Rpower (0.07*Rpower (Bo f) 0.41) (-8)
                        + Rpower 0.1 (-8)) (-1/8);
  frm_tl : tl f = tau f/(1 + rhol/rhog*(x/(1-x)));
  frm_tv : tv f = tau f/(1 + rhog/rhol*((1-x)/x));
  frm_t_dry_film : t_dry_film f = rhol*Hvap/qv*(delta0 f - 0.3e-6)
}.

(** The liquid Reynolds and Prandtl numbers of [Aggour]. *)
Definition Aggour_Rel (m x alpha D rhol mu_b : R) : R :=
  rhol*(m*(1-x)/(rhol*PI/4*D^2)/(1-alpha))*D/mu_b.

Definition Aggour_Prl (Cpl kl mu_b : R) : R :=
  Cpl*mu_b/kl.

(** "Turbulent for Rel > 2000". *)
Definition Aggour_turbulent (m x alpha D rhol Cpl kl mu_b : R) : R :=
  0.0155*(kl/D)*Rpower (Aggour_Rel m x alpha D rhol mu_b) 0.83
    *Rpower (Aggour_Prl Cpl kl mu_b) 0.5*Rpower (1-alpha) (-0.83).

(** "Laminar for Rel <= 2000", with the viscosity correction when the wall
    viscosity is given and not zero. *)
Definition Aggour_laminar (m x alpha D rhol Cpl kl mu_b L : R) (mu_w : pyopt)
  : R :=
  let hl := 1.615*(kl/D)
            *Rpower (Aggour_Rel m x alpha D rhol mu_b
                     *Aggour_Prl Cpl kl mu_b*D/L) (1/3) in
  let hl := match mu_w with
            | Some w => if Req_dec_T w 0 then hl else hl*Rpower (mu_b/w) 0.14
            | None => hl
            end in
  hl*Rpower (1-alpha) (-1/3).

(** A root finder that answers with its initial estimate. *)
Definition first_guess : solver := fun _ x0 => Ok x0.


(** [to_solve] of [Thome]: the residual handed to the root finder. *)
Definition to_solve (fsolve : solver)
    (m x D rhol rhog mul mug kl kg Cpl Cpg Hvap sigma Psat Pc : R)
    (Te : pyopt) : R -> result R :=
  fun q =>
    (q / Thome fsolve m x D rhol rhog mul mug kl kg Cpl Cpg Hvap sigma Psat
           Pc (Some q) None - Te)%py.

(** The excess-temperature path at [Te] returns [h > 0], and the heat-flux
    path at [q = h*Te] returns the same [h]. *)
Definition solves_heat_flux_law (f : pyopt -> pyopt -> result R) (Te : R)
  : Prop :=
  exists h, f None (Some Te) = Ok h /\ 0 < h /\ f (Some (h * Te)) None = Ok h.

(** Both calls return a positive coefficient, the second one the larger
    (the smaller). *)
Definition coefficient_increases (f : R -> result R) (a b : R) : Prop :=
  exists ha hb, f a = Ok ha /\ f b = Ok hb /\ 0 < ha < hb.

Definition coefficient_decreases (f : R -> result R) (a b : R) : Prop :=
  exists ha hb, f a = Ok ha /\ f b = Ok hb /\ 0 < hb < ha.

(** * Verification *)

(** ** Facts about results and Python arithmetic *)

Lemma bind_Ok {A B : Type} (c : result A) (k : A -> result B) (b : B) :
  bind c k = Ok b -> exists a, c = Ok a /\ k a = Ok b.
Proof. destruct c as [a|e]; simpl; intros H; [eauto | discriminate]. Qed.

Lemma bind_ret {A B : Type} (a : A) (k : A -> result B) :
  bind (Ok a) k = k a.
Proof. reflexivity. Qed.

Lemma bind_Raise {A B : Type} (e : exn) (k : A -> result B) :
  bind (Raise e) k = Raise e.
Proof. reflexivity. Qed.

Lemma binop_Ok f a b c :
  Py.binop f a b = Ok c -> exists x y, a = Ok x /\ b = Ok y /\ f x y = Ok c.
Proof.
  destruct a as [x|e]; [destruct b as [y|e]|]; simpl; intros H;
    try discriminate; eauto.
Qed.

Lemma add_Ok a b c :
  Py.add a b = Ok c -> exists x y, a = Ok x /\ b = Ok y /\ c = x + y.
Proof.
  intros H; apply binop_Ok in H as (x & y & -> & -> & H).
  injection H as <-; eauto.
Qed.

Lemma sub_Ok a b c :
  Py.sub a b = Ok c -> exists x y, a = Ok x /\ b = Ok y /\ c = x - y.
Proof.
  intros H; apply binop_Ok in H as (x & y & -> & -> & H).
  injection H as <-; eauto.
Qed.

Lemma mul_Ok a b c :
  Py.mul a b = Ok c -> exists x y, a = Ok x /\ b = Ok y /\ c = x * y.
Proof.
  intros H; apply binop_Ok in H as (x & y & -> & -> & H).
  injection H as <-; eauto.
Qed.

Lemma truediv_float_Ok x y c :
  Py.truediv_float x y = Ok c -> y <> 0 /\ c = x / y.
Proof.
  unfold Py.truediv_float; destruct (Req_dec_T y 0); intros H;
    [discriminate | injection H as <-; auto].
Qed.

Lemma truediv_Ok a b c :
  Py.truediv a b = Ok c ->
  exists x y, a = Ok x /\ b = Ok y /\ y <> 0 /\ c = x / y.
Proof.
  intros H; apply binop_Ok in H as (x & y & -> & -> & H).
  apply truediv_float_Ok in H as [? ->]; eauto 6.
Qed.

Lemma pow_Ok a b c :
  Py.pow a b = Ok c ->
  exists x y, a = Ok x /\ b = Ok y /\ Py.pow_float x y = Ok c.
Proof. apply binop_Ok. Qed.

Lemma num_Ok (q : pyopt) v : num q = Ok v -> q = Some v.
Proof.
  destruct q; simpl; intros H; [injection H as -> | discriminate]; auto.
Qed.

(** Evaluation of an operator on two floats. *)

Lemma add_ret x y : Py.add (Ok x) (Ok y) = Ok (x + y).
Proof. reflexivity. Qed.

Lemma sub_ret x y : Py.sub (Ok x) (Ok y) = Ok (x - y).
Proof. reflexivity. Qed.

Lemma mul_ret x y : Py.mul (Ok x) (Ok y) = Ok (x * y).
Proof. reflexivity. Qed.

Lemma truediv_ret x y : y <> 0 -> Py.truediv (Ok x) (Ok y) = Ok (x / y).
Proof.
  intros Hy; unfold Py.truediv, Py.binop, Py.truediv_float.
  destruct (Req_dec_T y 0); [contradiction | reflexivity].
Qed.

Lemma truediv_zero x : Py.truediv (Ok x) (Ok 0) = Raise ZeroDivisionError.
Proof.
  unfold Py.truediv, Py.binop, Py.truediv_float.
  destruct (Req_dec_T 0 0); [reflexivity | contradiction].
Qed.

Lemma pow_float_pos x y : 0 < x -> Py.pow_float x y = Ok (Rpower x y).
Proof.
  intros Hx; unfold Py.pow_float.
  destruct (Rlt_dec 0 x); [reflexivity | contradiction].
Qed.

Lemma pow_ret x y : 0 < x -> Py.pow (Ok x) (Ok y) = Ok (Rpower x y).
Proof. intros Hx; unfold Py.pow, Py.binop; now apply pow_float_pos. Qed.

Lemma pow_float_zero y : 0 < y -> Py.pow_float 0 y = Ok 0.
Proof.
  intros Hy; unfold Py.pow_float.
  destruct (Rlt_dec 0 0); [lra|].
  destruct (Req_dec_T 0 0); [|contradiction].
  destruct (Rlt_dec 0 y); [reflexivity | contradiction].
Qed.

Lemma int_of_IZR n : Py.int_of (IZR n) = Some n.
Proof.
  unfold Py.int_of.
  assert (Hup : (n + 1)%Z = up (IZR n)).
  { apply tech_up; rewrite plus_IZR; simpl; lra. }
  rewrite <- Hup.
  replace (n + 1 - 1)%Z with n by lia.
  destruct (Req_dec_T (IZR n) (IZR n)); [reflexivity | contradiction].
Qed.

(** An integral exponent: [x ** n] is the integer power, save [0.0 ** n]
    for [n <= 0]. *)
Lemma pow_float_int x n :
  x <> 0 \/ (0 < n)%Z -> Py.pow_float x (IZR n) = Ok (powerRZ x n).
Proof.
  intros H; unfold Py.pow_float.
  destruct (Rlt_dec 0 x) as [Hx|Hx].
  - now rewrite powerRZ_Rpower.
  - destruct (Req_dec_T x 0) as [->|Hx0].
    + destruct H as [H|H]; [contradiction|].
      destruct (Rlt_dec 0 (IZR n)) as [_|Hn].
      * destruct n as [|p|p]; try lia.
        simpl. rewrite pow_ne_zero; [reflexivity|lia].
      * exfalso; apply Hn, IZR_lt; lia.
    + now rewrite int_of_IZR.
Qed.

Lemma pow_ret_int x n :
  x <> 0 \/ (0 < n)%Z -> Py.pow (Ok x) (Ok (IZR n)) = Ok (powerRZ x n).
Proof. intros H; unfold Py.pow, Py.binop; now apply pow_float_int. Qed.

Lemma log10_ret x : 0 < x -> Py.log10 (Ok x) = Ok (ln x / ln 10).
Proof.
  intros Hx; unfold Py.log10, Py.log10_float, bind.
  destruct (Rlt_dec 0 x); [reflexivity | contradiction].
Qed.

Lemma truthy_Some v : v <> 0 -> truthy (Some v) = true.
Proof.
  intros Hv; unfold truthy; destruct (Req_dec_T v 0);
    [contradiction | reflexivity].
Qed.

Lemma truthy_None : truthy None = false.
Proof. reflexivity. Qed.

Lemma truthy_zero : truthy (Some 0) = false.
Proof.
  unfold truthy; destruct (Req_dec_T 0 0); [reflexivity | contradiction].
Qed.

Lemma truthy_true (o : pyopt) :
  truthy o = true -> exists v, o = Some v /\ v <> 0.
Proof.
  destruct o as [v|]; simpl; [|discriminate].
  destruct (Req_dec_T v 0); [discriminate | eauto].
Qed.

(** An operand that raises makes the operator raise. *)

Lemma add_raise_l e b : Py.add (Raise e) b = Raise e.
Proof. reflexivity. Qed.
Lemma add_raise_r x e : Py.add (Ok x) (Raise e) = Raise e.
Proof. reflexivity. Qed.
Lemma sub_raise_l e b : Py.sub (Raise e) b = Raise e.
Proof. reflexivity. Qed.
Lemma sub_raise_r x e : Py.sub (Ok x) (Raise e) = Raise e.
Proof. reflexivity. Qed.
Lemma mul_raise_l e b : Py.mul (Raise e) b = Raise e.
Proof. reflexivity. Qed.
Lemma mul_raise_r x e : Py.mul (Ok x) (Raise e) = Raise e.
Proof. reflexivity. Qed.
Lemma truediv_raise_l e b : Py.truediv (Raise e) b = Raise e.
Proof. reflexivity. Qed.
Lemma truediv_raise_r x e : Py.truediv (Ok x) (Raise e) = Raise e.
Proof. reflexivity. Qed.
Lemma pow_raise_l e b : Py.pow (Raise e) b = Raise e.
Proof. reflexivity. Qed.
Lemma pow_raise_r x e : Py.pow (Ok x) (Raise e) = Raise e.
Proof. reflexivity. Qed.
Lemma log10_raise e : Py.log10 (Raise e) = Raise e.
Proof. reflexivity. Qed.

(** Strict positivity of a real expression built from positive parts. *)
Ltac pos :=
  lazymatch goal with
  | |- 0 < Rpower _ _ => unfold Rpower; apply exp_pos
  | |- 0 < ?a * ?b => apply Rmult_lt_0_compat; pos
  | |- 0 < ?a / ?b => apply Rdiv_lt_0_compat; pos
  | |- 0 < ?a + ?b => apply Rplus_lt_0_compat; pos
  | |- 0 < / ?a => apply Rinv_0_lt_compat; pos
  | |- 0 < Py.pi => exact PI_RGT_0
  | |- 0 < PI => exact PI_RGT_0
  | |- 0 < Py.g => unfold Py.g; lra
  | |- _ > 0 => apply Rlt_gt; pos
  | |- _ => first [assumption | lra]
  end.

Ltac nz :=
  first [assumption | lra | apply Rgt_not_eq, Rlt_gt; pos].

(** One pass of evaluation of the operators whose operands are floats. *)
Ltac py_eval :=
  unfold ret, Py.pos, num;
  repeat first
    [ rewrite bind_ret
    | rewrite bind_Raise
    | rewrite add_raise_l | rewrite add_raise_r
    | rewrite sub_raise_l | rewrite sub_raise_r
    | rewrite mul_raise_l | rewrite mul_raise_r
    | rewrite truediv_raise_l | rewrite truediv_raise_r
    | rewrite pow_raise_l | rewrite pow_raise_r
    | rewrite log10_raise
    | rewrite add_ret
    | rewrite sub_ret
    | rewrite mul_ret
    | rewrite truediv_ret by nz
    | rewrite pow_ret by pos
    | rewrite pow_ret_int by (right; lia)
    | rewrite log10_ret by pos
    | rewrite truthy_Some by nz
    | rewrite truthy_None
    | rewrite truthy_zero
    | progress cbv beta iota delta [andb orb negb] ].

(** ** Non-boiling correlations: the coefficient is positive *)

Lemma pyopt_cases (o : pyopt) : o = None \/ o <> None.
Proof. destruct o; [right; discriminate | left; reflexivity]. Qed.

Lemma supplied_pos_None : supplied_pos None.
Proof. intros v H; discriminate. Qed.

Lemma supplied_pos_Some v : 0 < v -> supplied_pos (Some v).
Proof. intros Hv w H; injection H as <-; exact Hv. Qed.

Lemma positive_returned r : positive r -> returned_positive r.
Proof. intros (h & -> & Hh) h' H; injection H as <-; exact Hh. Qed.

Lemma Raise_returned_positive e : returned_positive (Raise e).
Proof. intros h H; discriminate. Qed.

Ltac run_pos :=
  py_eval; eexists; split; [reflexivity | pos].

Ltac case_opt o :=
  let w := fresh "w" in
  let Hw := fresh "Hw" in
  destruct o as [w|];
  [ assert (Hw : 0 < w) by (match goal with H : supplied_pos _ |- _ =>
                                      apply H; reflexivity end) | ].

Section NonBoiling.

Variables m x alpha D L rhol rhog Cpl kl mug mu_b hl : R.
Variables mu_w : pyopt.
Hypothesis Hm : 0 < m.
Hypothesis Hx : 0 < x < 1.
Hypothesis Halpha : 0 < alpha < 1.
Hypothesis HD : 0 < D.
Hypothesis HL : 0 < L.
Hypothesis Hrhol : 0 < rhol.
Hypothesis Hrhog : 0 < rhog.
Hypothesis HCpl : 0 < Cpl.
Hypothesis Hkl : 0 < kl.
Hypothesis Hmug : 0 < mug.
Hypothesis Hmu_b : 0 < mu_b.
Hypothesis Hhl : 0 < hl.
Hypothesis Hmu_w : supplied_pos mu_w.

Lemma Davis_David_positive :
  positive (Davis_David m x D rhol rhog Cpl kl mu_b).
Proof.
  destruct Hx. unfold Davis_David, fluids_core.Prandtl. run_pos.
Qed.

Lemma Elamvaluthi_Srinivas_positive :
  positive (Elamvaluthi_Srinivas m x D rhol rhog Cpl kl mug mu_b mu_w).
Proof.
  destruct Hx. unfold Elamvaluthi_Srinivas, fluids_core.Prandtl.
  case_opt mu_w; run_pos.
Qed.

Lemma Groothuis_Hendal_positive water :
  positive (Groothuis_Hendal m x D rhol rhog Cpl kl mug mu_b mu_w water).
Proof.
  destruct Hx. unfold Groothuis_Hendal, fluids_core.Prandtl.
  case_opt mu_w; destruct water; run_pos.
Qed.

Lemma Hughmark_positive (mu_b' : pyopt) :
  supplied_pos mu_b' ->
  positive (Hughmark m x alpha D L Cpl kl mu_b' mu_w).
Proof.
  intros Hb. destruct Hx, Halpha. unfold Hughmark.
  case_opt mu_w; case_opt mu_b'; run_pos.
Qed.

Lemma Kudirka_Grosh_McFadden_positive :
  positive (Kudirka_Grosh_McFadden m x D rhol rhog Cpl kl mug mu_b mu_w).
Proof.
  destruct Hx. unfold Kudirka_Grosh_McFadden, fluids_core.Prandtl.
  case_opt mu_w; run_pos.
Qed.

Lemma Martin_Sims_positive :
  positive (Martin_Sims m x D rhol rhog hl).
Proof.
  destruct Hx. unfold Martin_Sims. run_pos.
Qed.

Lemma Ravipudi_Godbold_positive :
  positive (Ravipudi_Godbold m x D rhol rhog Cpl kl mug mu_b mu_w).
Proof.
  destruct Hx. unfold Ravipudi_Godbold, fluids_core.Prandtl.
  case_opt mu_w; run_pos.
Qed.

Section Knott.

Variables Cpl' kl' mu_b' L' hl' : pyopt.
Hypothesis HCpl' : supplied_pos Cpl'.
Hypothesis Hkl' : supplied_pos kl'.
Hypothesis Hmu_b' : supplied_pos mu_b'.
Hypothesis HL' : supplied_pos L'.
Hypothesis Hhl' : supplied_pos hl'.

Lemma Knott_positive :
  hl' <> None \/
  (Cpl' <> None /\ kl' <> None /\ mu_b' <> None /\ L' <> None) ->
  positive (Knott m x D rhol rhog Cpl' kl' mu_b' mu_w L' hl').
Proof.
  intros Hsup. destruct Hx.
  unfold Knott, fluids_core.Reynolds, fluids_core.Prandtl,
    conv_internal.laminar_entry_Seider_Tate.
  case_opt hl'.
  - run_pos.
  - destruct Hsup as [?|(? & ? & ? & ?)]; [contradiction|].
    case_opt Cpl'; [|contradiction].
    case_opt kl'; [|contradiction].
    case_opt mu_b'; [|contradiction].
    case_opt L'; [|contradiction].
    case_opt mu_w; run_pos.
Qed.

Lemma Knott_returned_positive :
  returned_positive (Knott m x D rhol rhog Cpl' kl' mu_b' mu_w L' hl').
Proof.
  destruct (pyopt_cases hl') as [Eh|Nh];
    [|apply positive_returned, Knott_positive; left; exact Nh].
  destruct (pyopt_cases Cpl') as [E1|N1], (pyopt_cases kl') as [E2|N2],
    (pyopt_cases mu_b') as [E3|N3], (pyopt_cases L') as [E4|N4];
    try (apply positive_returned, Knott_positive; right;
         repeat split; assumption);
    destruct Hx;
    unfold Knott, fluids_core.Reynolds, fluids_core.Prandtl,
      conv_internal.laminar_entry_Seider_Tate;
    rewrite Eh;
    case_opt Cpl'; try discriminate; try contradiction;
    case_opt kl'; try discriminate; try contradiction;
    case_opt mu_b'; try discriminate; try contradiction;
    case_opt L'; try discriminate; try contradiction;
    case_opt mu_w; py_eval; apply Raise_returned_positive.
Qed.

End Knott.

Section Aggour.

Variable L' : pyopt.
Variable turbulent : option bool.
Hypothesis HL' : supplied_pos L'.

Lemma Aggour_positive :
  L' <> None \/ turbulent = Some true ->
  positive (Aggour m x alpha D rhol Cpl kl mu_b mu_w L' turbulent).
Proof.
  intros Hsup. destruct Hx, Halpha.
  unfold Aggour, fluids_core.Reynolds, fluids_core.Prandtl, gt.
  py_eval.
  match goal with |- context [Rgt_dec ?a ?b] => destruct (Rgt_dec a b) end;
    destruct turbulent as [[|]|]; cbn [truthy_flag flag_is_None];
    try solve [run_pos];
    (destruct Hsup as [HS|HS]; [|discriminate]);
    (case_opt L'; [|contradiction]);
    case_opt mu_w; run_pos.
Qed.

Lemma Aggour_returned_positive :
  returned_positive (Aggour m x alpha D rhol Cpl kl mu_b mu_w L' turbulent).
Proof.
  destruct (pyopt_cases L') as [El|Nl];
    [|apply positive_returned, Aggour_positive; left; exact Nl].
  destruct Hx, Halpha.
  unfold Aggour, fluids_core.Reynolds, fluids_core.Prandtl, gt.
  rewrite El. py_eval.
  match goal with |- context [Rgt_dec ?a ?b] => destruct (Rgt_dec a b) end;
    destruct turbulent as [[|]|]; cbn [truthy_flag flag_is_None];
    py_eval;
    first [ apply Raise_returned_positive
          | apply positive_returned; run_pos ].
Qed.

End Aggour.

End NonBoiling.

(** ** The analytic inverses of the four power-law boiling correlations *)

Lemma ln_div x y : 0 < x -> 0 < y -> ln (x / y) = ln x - ln y.
Proof.
  intros Hx Hy. unfold Rdiv.
  rewrite ln_mult by (try apply Rinv_0_lt_compat; assumption).
  rewrite ln_Rinv by assumption. lra.
Qed.

(** Logarithm of a product of powers, as a sum. *)
Ltac ln_norm :=
  repeat first
    [ rewrite ln_Rpower
    | rewrite ln_mult by pos
    | rewrite ln_div by pos
    | rewrite ln_1 ].

Lemma round_trip_intro (f : pyopt -> pyopt -> result R) q h h' :
  f (Some q) None = Ok h ->
  f None (Some (q / h)) = Ok h' ->
  0 < q -> 0 < h -> 0 < h' -> ln h' = ln h ->
  round_trip f q.
Proof.
  intros E1 E2 Hq Hh Hh' Hln. exists h; repeat split; auto.
  exists h'; split; auto.
  apply ln_inv in Hln; auto. subst. field. lra.
Qed.

Section RoundTrip.

Variables m x D rhol rhog mul kl Hvap sigma q : R.
Hypothesis Hm : 0 < m.
Hypothesis Hx : 0 < x < 1.
Hypothesis HD : 0 < D.
Hypothesis Hrhol : 0 < rhol.
Hypothesis Hrhog : 0 < rhog.
Hypothesis Hmul : 0 < mul.
Hypothesis Hkl : 0 < kl.
Hypothesis HHvap : 0 < Hvap.
Hypothesis Hsigma : 0 < sigma.
Hypothesis Hq : 0 < q.

Lemma Lazarek_Black_round_trip :
  round_trip (Lazarek_Black m D mul kl Hvap) q.
Proof.
  eapply round_trip_intro;
    [ unfold Lazarek_Black, fluids_core.Boiling; py_eval; reflexivity
    | unfold Lazarek_Black, fluids_core.Boiling; py_eval; reflexivity
    | assumption | pos | pos | ].
  ln_norm.
  replace 27000 with (30 * (30 * 30)) by lra.
  ln_norm. lra.
Qed.

Lemma Li_Wu_round_trip :
  rhog < rhol ->
  round_trip (Li_Wu m x D rhol rhog mul kl Hvap sigma) q.
Proof.
  intros Hrho. destruct Hx.
  eapply round_trip_intro;
    [ unfold Li_Wu, fluids_core.Boiling, fluids_core.Bond; py_eval;
      reflexivity
    | unfold Li_Wu, fluids_core.Boiling, fluids_core.Bond; py_eval;
      reflexivity
    | assumption | pos | pos | ].
  ln_norm. lra.
Qed.

Lemma Sun_Mishima_round_trip :
  round_trip (Sun_Mishima m D rhol rhog mul kl Hvap sigma) q.
Proof.
  eapply round_trip_intro;
    [ unfold Sun_Mishima, fluids_core.Boiling, fluids_core.Weber; py_eval;
      reflexivity
    | unfold Sun_Mishima, fluids_core.Boiling, fluids_core.Weber; py_eval;
      reflexivity
    | assumption | pos | pos | ].
  ln_norm. lra.
Qed.

Lemma Yun_Heo_Kim_round_trip :
  round_trip (Yun_Heo_Kim m x D rhol mul Hvap sigma) q.
Proof.
  destruct Hx.
  eapply round_trip_intro;
    [ unfold Yun_Heo_Kim, fluids_core.Boiling, fluids_core.Weber; py_eval;
      reflexivity
    | unfold Yun_Heo_Kim, fluids_core.Boiling, fluids_core.Weber; py_eval;
      reflexivity
    | assumption | pos | pos | ].
  ln_norm. lra.
Qed.

End RoundTrip.

(** ** The boundary condition: which path a call takes *)

Lemma arithmetic_not_missing e : arithmetic e -> e <> missing_q_Te.
Proof. intros [->|[->| ->]]; discriminate. Qed.

Lemma ret_arith v : raises_arithmetic (Ok v).
Proof. intros e H; discriminate. Qed.

Lemma num_arith (o : pyopt) : raises_arithmetic (num o).
Proof.
  destruct o; intros e H; [discriminate|].
  injection H as <-; left; reflexivity.
Qed.

Lemma binop_arith f a b :
  raises_arithmetic a -> raises_arithmetic b ->
  (forall u v, raises_arithmetic (f u v)) ->
  raises_arithmetic (Py.binop f a b).
Proof.
  intros Ha Hb Hf. destruct a as [u|e]; [destruct b as [v|e]|]; simpl; auto.
Qed.

Lemma add_arith a b :
  raises_arithmetic a -> raises_arithmetic b -> raises_arithmetic (Py.add a b).
Proof. intros; apply binop_arith; auto using ret_arith. Qed.

Lemma sub_arith a b :
  raises_arithmetic a -> raises_arithmetic b -> raises_arithmetic (Py.sub a b).
Proof. intros; apply binop_arith; auto using ret_arith. Qed.

Lemma mul_arith a b :
  raises_arithmetic a -> raises_arithmetic b -> raises_arithmetic (Py.mul a b).
Proof. intros; apply binop_arith; auto using ret_arith. Qed.

Lemma truediv_arith a b :
  raises_arithmetic a -> raises_arithmetic b ->
  raises_arithmetic (Py.truediv a b).
Proof.
  intros; apply binop_arith; auto.
  intros u v e; unfold Py.truediv_float.
  destruct (Req_dec_T v 0); intros H'; [|discriminate].
  injection H' as <-; right; left; reflexivity.
Qed.

Lemma pow_arith a b :
  raises_arithmetic a -> raises_arithmetic b -> raises_arithmetic (Py.pow a b).
Proof.
  intros; apply binop_arith; auto.
  intros u v e; unfold Py.pow_float.
  destruct (Rlt_dec 0 u); [discriminate|].
  destruct (Req_dec_T u 0).
  - destruct (Rlt_dec 0 v); [discriminate|].
    destruct (Req_dec_T v 0); [discriminate|].
    intros H'; injection H' as <-; right; left; reflexivity.
  - destruct (Py.int_of v); [discriminate|].
    intros H'; injection H' as <-; right; right; reflexivity.
Qed.

Ltac arith :=
  repeat first
    [ apply add_arith | apply sub_arith | apply mul_arith
    | apply truediv_arith | apply pow_arith
    | apply ret_arith | apply num_arith ].

(** With [q] absent, the body of [Thome] raises an arithmetic error. *)
Lemma Thome_body_None m x D rhol rhog mul mug kl kg Cpl Cpg Hvap sigma Psat
    Pc :
  exists e,
    Thome_body m x D rhol rhog mul mug kl kg Cpl Cpg Hvap sigma Psat Pc None
    = Raise e /\ arithmetic e.
Proof.
  unfold Thome_body.
  repeat
    lazymatch goal with
    | |- exists e, bind (Py.pow (Py.truediv (num None) _) _) _ = _ /\ _ =>
        exists TypeError; split; [reflexivity | left; reflexivity]
    | |- exists e, bind ?c ?k = _ /\ _ =>
        let v := fresh "v" in
        let e := fresh "e" in
        let E := fresh "E" in
        destruct c as [v|e] eqn:E;
        [ rewrite bind_ret; cbv beta
        | exists e; split;
          [ reflexivity
          | revert E; generalize e;
            change (raises_arithmetic c); arith ] ]
    end.
Qed.

Lemma pow_ret_zero y : 0 < y -> Py.pow (Ok 0) (Ok y) = Ok 0.
Proof. intros Hy; unfold Py.pow, Py.binop; now apply pow_float_zero. Qed.

(** The guards of [Thome]. *)

Lemma Thome_guard_q (qv : R) (Te : pyopt) :
  Thome_guard (Some qv) Te = heat_flux.
Proof. reflexivity. Qed.

Lemma Thome_guard_None_None : Thome_guard None None = raise_missing.
Proof. reflexivity. Qed.

Lemma Thome_guard_None_zero : Thome_guard None (Some 0) = heat_flux.
Proof. unfold Thome_guard, is_None. now rewrite truthy_zero. Qed.

Lemma Thome_guard_None_Te (Tv : R) :
  Tv <> 0 -> Thome_guard None (Some Tv) = solve_for_q.
Proof. intros H; unfold Thome_guard, is_None. now rewrite truthy_Some. Qed.

Section Boundary.

Variable fsolve : solver.
Variables m x D rhol rhog mul mug kl kg Cpl Cpg Hvap sigma Psat Pc : R.

(** With [q] given, [Te] is not read. *)
Lemma Thome_q_precedence (qv : R) (Te : pyopt) :
  Thome fsolve m x D rhol rhog mul mug kl kg Cpl Cpg Hvap sigma Psat Pc
    (Some qv) Te =
  Thome fsolve m x D rhol rhog mul mug kl kg Cpl Cpg Hvap sigma Psat Pc
    (Some qv) None.
Proof. reflexivity. Qed.

Lemma Thome_missing :
  Thome fsolve m x D rhol rhog mul mug kl kg Cpl Cpg Hvap sigma Psat Pc
    None None = Raise missing_q_Te.
Proof. reflexivity. Qed.

(** [q] omitted and [Te = 0]: the body runs on the absent [q]. *)
Lemma Thome_None_zero_arithmetic :
  exists e,
    Thome fsolve m x D rhol rhog mul mug kl kg Cpl Cpg Hvap sigma Psat Pc
      None (Some 0) = Raise e /\ arithmetic e.
Proof.
  unfold Thome. rewrite Thome_guard_None_zero.
  destruct (Thome_body_None m x D rhol rhog mul mug kl kg Cpl Cpg Hvap sigma
              Psat Pc) as (e & -> & He).
  exists e; split; [reflexivity | exact He].
Qed.

Hypothesis HD : 0 < D.
Hypothesis Hmul : 0 < mul.
Hypothesis Hmug : 0 < mug.
Hypothesis Hrhol : 0 < rhol.
Hypothesis Hsigma : 0 < sigma.
Hypothesis HPsat : 0 < Psat.
Hypothesis HPc : 0 < Pc.

Lemma Thome_None_zero_TypeError :
  Thome fsolve m x D rhol rhog mul mug kl kg Cpl Cpg Hvap sigma Psat Pc
    None (Some 0) = Raise TypeError.
Proof.
  unfold Thome. rewrite Thome_guard_None_zero.
  unfold Thome_body. py_eval. reflexivity.
Qed.

(** [q = 0] is a given [q] for [Thome]: the body runs and divides by
    [fopt = 0]. *)
Lemma Thome_zero_q (Te : pyopt) :
  Thome fsolve m x D rhol rhog mul mug kl kg Cpl Cpg Hvap sigma Psat Pc
    (Some 0) Te = Raise ZeroDivisionError.
Proof.
  unfold Thome. rewrite Thome_guard_q.
  unfold Thome_body. py_eval.
  rewrite Rdiv_0_l, pow_ret_zero by lra.
  py_eval. rewrite truediv_zero. reflexivity.
Qed.

Lemma Lazarek_Black_missing (o1 o2 : pyopt) :
  truthy o1 = false -> truthy o2 = false ->
  Lazarek_Black m D mul kl Hvap o1 o2 = Raise missing_q_Te.
Proof.
  intros H1 H2. unfold Lazarek_Black. py_eval. now rewrite H1, H2.
Qed.

Lemma Li_Wu_missing (o1 o2 : pyopt) :
  truthy o1 = false -> truthy o2 = false ->
  Li_Wu m x D rhol rhog mul kl Hvap sigma o1 o2 = Raise missing_q_Te.
Proof.
  intros H1 H2. unfold Li_Wu, fluids_core.Bond. py_eval. now rewrite H1, H2.
Qed.

Lemma Sun_Mishima_missing (o1 o2 : pyopt) :
  truthy o1 = false -> truthy o2 = false ->
  Sun_Mishima m D rhol rhog mul kl Hvap sigma o1 o2 = Raise missing_q_Te.
Proof.
  intros H1 H2. unfold Sun_Mishima, fluids_core.Weber. py_eval.
  now rewrite H1, H2.
Qed.

Lemma Yun_Heo_Kim_missing (o1 o2 : pyopt) :
  truthy o1 = false -> truthy o2 = false ->
  Yun_Heo_Kim m x D rhol mul Hvap sigma o1 o2 = Raise missing_q_Te.
Proof.
  intros H1 H2. unfold Yun_Heo_Kim, fluids_core.Weber. py_eval.
  now rewrite H1, H2.
Qed.

End Boundary.

(** The truthiness tests of the four power-law correlations read only
    whether [q] is a non-zero float. *)
Section Truthiness.

Variables m x D rhol rhog mul kl Hvap sigma : R.

Lemma Lazarek_Black_truthy (q q' Te Te' : pyopt) :
  truthy q = truthy q' ->
  (truthy q = true -> q = q') ->
  (truthy q = false -> Te = Te') ->
  Lazarek_Black m D mul kl Hvap q Te = Lazarek_Black m D mul kl Hvap q' Te'.
Proof.
  intros E Hq HTe. unfold Lazarek_Black. rewrite <- E.
  destruct (truthy q); [rewrite <- (Hq eq_refl) | rewrite <- (HTe eq_refl)];
    reflexivity.
Qed.

Lemma Li_Wu_truthy (q q' Te Te' : pyopt) :
  truthy q = truthy q' ->
  (truthy q = true -> q = q') ->
  (truthy q = false -> Te = Te') ->
  Li_Wu m x D rhol rhog mul kl Hvap sigma q Te =
  Li_Wu m x D rhol rhog mul kl Hvap sigma q' Te'.
Proof.
  intros E Hq HTe. unfold Li_Wu. rewrite <- E.
  destruct (truthy q); [rewrite <- (Hq eq_refl) | rewrite <- (HTe eq_refl)];
    reflexivity.
Qed.

Lemma Sun_Mishima_truthy (q q' Te Te' : pyopt) :
  truthy q = truthy q' ->
  (truthy q = true -> q = q') ->
  (truthy q = false -> Te = Te') ->
  Sun_Mishima m D rhol rhog mul kl Hvap sigma q Te =
  Sun_Mishima m D rhol rhog mul kl Hvap sigma q' Te'.
Proof.
  intros E Hq HTe. unfold Sun_Mishima. rewrite <- E.
  destruct (truthy q); [rewrite <- (Hq eq_refl) | rewrite <- (HTe eq_refl)];
    reflexivity.
Qed.

Lemma Yun_Heo_Kim_truthy (q q' Te Te' : pyopt) :
  truthy q = truthy q' ->
  (truthy q = true -> q = q') ->
  (truthy q = false -> Te = Te') ->
  Yun_Heo_Kim m x D rhol mul Hvap sigma q Te =
  Yun_Heo_Kim m x D rhol mul Hvap sigma q' Te'.
Proof.
  intros E Hq HTe. unfold Yun_Heo_Kim. rewrite <- E.
  destruct (truthy q); [rewrite <- (Hq eq_refl) | rewrite <- (HTe eq_refl)];
    reflexivity.
Qed.

End Truthiness.

(** ** The film model [Thome]: what a returning call has computed *)

Lemma log10_Ok a c :
  Py.log10 a = Ok c -> exists x, a = Ok x /\ Py.log10_float x = Ok c.
Proof. unfold Py.log10. intros H. apply bind_Ok in H. exact H. Qed.

(** Inversion of a successful evaluation, statement by statement and
    operator by operator: every division leaves its divisor non-zero, every
    assignment its equation. *)
Ltac inv_py H :=
  lazymatch type of H with
  | bind _ (fun x => _) = Ok _ =>
      let a := fresh x in let E := fresh "E" a in
      apply bind_Ok in H as (a & E & H); cbv beta in H; inv_py E; inv_py H
  | (let '(_, _) := ?v in _) = Ok _ =>
      destruct v; inv_py H
  | Py.add _ _ = Ok _ =>
      let x := fresh "a" in let y := fresh "b" in
      let E1 := fresh "E" in let E2 := fresh "E" in
      apply add_Ok in H as (x & y & E1 & E2 & H); inv_py E1; inv_py E2;
      try subst x; try subst y
  | Py.sub _ _ = Ok _ =>
      let x := fresh "a" in let y := fresh "b" in
      let E1 := fresh "E" in let E2 := fresh "E" in
      apply sub_Ok in H as (x & y & E1 & E2 & H); inv_py E1; inv_py E2;
      try subst x; try subst y
  | Py.mul _ _ = Ok _ =>
      let x := fresh "a" in let y := fresh "b" in
      let E1 := fresh "E" in let E2 := fresh "E" in
      apply mul_Ok in H as (x & y & E1 & E2 & H); inv_py E1; inv_py E2;
      try subst x; try subst y
  | Py.truediv _ _ = Ok _ =>
      let x := fresh "a" in let y := fresh "b" in
      let E1 := fresh "E" in let E2 := fresh "E" in let N := fresh "NZ" in
      apply truediv_Ok in H as (x & y & E1 & E2 & N & H); inv_py E1; inv_py E2;
      try subst x; try subst y
  | Py.pow _ _ = Ok _ =>
      let x := fresh "a" in let y := fresh "b" in
      let E1 := fresh "E" in let E2 := fresh "E" in
      apply pow_Ok in H as (x & y & E1 & E2 & H); inv_py E1; inv_py E2;
      try subst x; try subst y
  | Py.log10 _ = Ok _ =>
      let x := fresh "a" in let E1 := fresh "E" in
      apply log10_Ok in H as (x & E1 & H); inv_py E1; try subst x
  | Py.pos _ = Ok _ => unfold Py.pos in H; inv_py H
  | ret _ = Ok _ => unfold ret in H; inv_py H
  | num (Some _) = Ok ?v => apply num_Ok in H; injection H as H; subst v
  | num _ = Ok _ => apply num_Ok in H
  | Ok _ = Ok ?v => injection H as H; first [subst v | idtac]
  | _ => idtac
  end.

Lemma Thome_body_returned m x D rhol rhog mul mug kl kg Cpl Cpg Hvap sigma
    Psat Pc qv f :
  Thome_body m x D rhol rhog mul mug kl kg Cpl Cpg Hvap sigma Psat Pc
    (Some qv) = Ok f ->
  Thome_returned x D rhol rhog kl kg Hvap qv f.
Proof.
  unfold Thome_body, fluids_core.nu_mu_converter, fluids_core.Prandtl,
    conv_internal.turbulent_Gnielinski.
  intros H. inv_py H.
  match goal with
  | Hb : (if Rgt_dec ?a ?b then _ else _) = Ok _ |- _ =>
      destruct (Rgt_dec a b) as [Hgt|Hle]; inv_py Hb
  end;
  (constructor; cbn [C_delta0 tau fopt tl tv t_dry_film t_film delta_end t_dry
                     Ldry vp Reg Prg fg Nu_lam_Zg Nu_trans_Zg h_Zg h_film
                     delta0 h h_Zl qref];
   try first [ assumption | reflexivity
             | intros; contradiction
             | intros; repeat split; first [assumption | congruence]
             | do 3 eexists; repeat split; eassumption ]).
Qed.

(** ** The film model [Thome]: calls that return *)

(** Evaluation of the expression of one assignment, and one assignment: the
    value is kept under the name of the local variable, with its equation. *)
Ltac py_expr :=
  unfold ret, Py.pos, num;
  repeat first
    [ rewrite add_ret
    | rewrite sub_ret
    | rewrite mul_ret
    | rewrite truediv_ret by nz
    | rewrite pow_ret by pos
    | rewrite pow_ret_int by (right; lia)
    | rewrite log10_ret by pos ].

Ltac step :=
  py_expr;
  lazymatch goal with
  | |- context [bind (Ok ?e) (fun x => _)] =>
      let v := fresh x in let Hv := fresh "E" v in
      remember e as v eqn:Hv; rewrite bind_ret; cbv beta;
      try (assert (0 < v) by (rewrite Hv; pos))
  end.

Lemma ln_10_pos : 0 < ln 10.
Proof. rewrite <- ln_1. apply ln_increasing; lra. Qed.

Lemma log10_base_nz Re :
  0 < Re -> Re < 1 \/ 10 <= Re -> 1.82 * (ln Re / ln 10) - 1.64 <> 0.
Proof.
  intros HRe [H|H].
  - assert (ln Re < 0) by (rewrite <- ln_1; apply ln_increasing; lra).
    assert (ln Re / ln 10 < 0).
    { apply Rmult_neg_pos; [assumption|apply Rinv_0_lt_compat, ln_10_pos]. }
    lra.
  - assert (ln 10 <= ln Re).
    { destruct H as [H|H]; [left; apply ln_increasing; lra | rewrite H; lra]. }
    assert (1 <= ln Re / ln 10).
    { apply Rmult_le_reg_r with (ln 10); [apply ln_10_pos|].
      unfold Rdiv. rewrite Rmult_assoc, Rinv_l by (apply Rgt_not_eq, ln_10_pos). lra. }
    lra.
Qed.

Lemma powerRZ_m2_pos b : b <> 0 -> 0 < powerRZ b (-2).
Proof.
  intros Hb. simpl. apply Rinv_0_lt_compat.
  assert (0 < b * b) by nra. lra.
Qed.

Lemma powerRZ_4_nonneg a : 0 <= powerRZ a 4.
Proof. simpl. nra. Qed.

Lemma Rpower_1_base y : Rpower 1 y = 1.
Proof. unfold Rpower. rewrite ln_1, Rmult_0_r. apply exp_0. Qed.

Lemma Rpower_ge_1 p c : 1 <= p -> 0 <= c -> 1 <= Rpower p c.
Proof.
  intros Hp Hc. rewrite <- (Rpower_1_base c).
  apply Rle_Rpower_l; [assumption | lra].
Qed.

Lemma pow_ret_nonneg s y :
  0 <= s -> 0 < y -> exists c, Py.pow (Ok s) (Ok y) = Ok c /\ 0 <= c.
Proof.
  intros [Hs|<-] Hy.
  - exists (Rpower s y). rewrite pow_ret by assumption. split; [reflexivity|].
    left. unfold Rpower. apply exp_pos.
  - exists 0. rewrite pow_ret_zero by assumption. split; [reflexivity|lra].
Qed.

(** On positive inputs the heat-flux path returns, provided the liquid
    Prandtl number is at least 1 (the Gnielinski denominator is positive), the
    two Reynolds numbers keep away from the pole of the friction factor, and
    the vapor Prandtl number is at least 1 whenever a dry zone exists. *)
Lemma Thome_body_returns m x D rhol rhog mul mug kl kg Cpl Cpg Hvap sigma
    Psat Pc q :
  0 < m -> 0 < x < 1 -> 0 < D -> 0 < rhol -> 0 < rhog -> 0 < mul ->
  0 < mug -> 0 < kl -> 0 < kg -> 0 < Cpl -> 0 < Cpg -> 0 < Hvap ->
  0 < sigma -> 0 < Psat -> 0 < Pc -> 0 < q ->
  kl <= Cpl*mul ->
  (forall f, Thome_formulas m x D rhol rhog mul mug Hvap sigma Psat Pc q f ->
     (Rel f < 1 \/ 10 <= Rel f) /\ (Reg f < 1 \/ 10 <= Reg f) /\
     (kg <= Cpg*mug \/ t_dry_film f > tv f)) ->
  exists f,
    Thome_body m x D rhol rhog mul mug kl kg Cpl Cpg Hvap sigma Psat Pc
      (Some q) = Ok f /\
    Thome_formulas m x D rhol rhog mul mug Hvap sigma Psat Pc q f.
Proof.
  intros Hm [Hx0 Hx1] HD Hrl Hrg Hml Hmg Hkl Hkg HCl HCg HH Hs HPs HPc Hq HPrl Hcond.
  unfold Thome_body, fluids_core.nu_mu_converter, fluids_core.Prandtl.
  do 13 step.
  destruct (Hcond (mk_Thome_frame 0.3e-6 G0 Rel0 Reg0 qref0 fopt0 tau0 vp0 Bo0
              nul0 delta1 tl0 tv0 t_dry_film0 0 0 0 0 0 0 0 0 0 0 0 0 0 0 0 0 0))
    as (HRel & HReg & Hbr).
  { constructor; cbn; assumption. }
  cbn in HRel, HReg, Hbr. clear Hcond.
  match goal with
  | |- context [bind (if Rgt_dec ?a ?b then ?t else ?e) _] =>
      assert (Hif : exists tf de td,
        (if Rgt_dec a b then t else e) = Ok (tf, de, td)
        /\ 0 <= td /\ (td = 0 \/ kg <= Cpg*mug))
  end.
  { destruct (Rgt_dec t_dry_film0 tv0) as [Hgt|Hle].
    - py_eval. do 3 eexists; split; [reflexivity|]. split; [lra | left; reflexivity].
    - do 3 eexists; split; [reflexivity|]. split; [lra|].
      right. destruct Hbr; [assumption | contradiction]. }
  destruct Hif as (tf & de & td & -> & Htd & Hvapor).
  rewrite bind_ret; cbv beta iota.
  do 4 step.
  assert (Hbg := log10_base_nz Reg0 H1 HReg).
  assert (Hbl := log10_base_nz Rel0 H0 HRel).
  rewrite !pow_ret_int by (left; assumption).
  step. assert (Hfg : 0 < fg0) by (rewrite Efg0; apply powerRZ_m2_pos, Hbg).
  step. assert (Hfl : 0 < fl0) by (rewrite Efl0; apply powerRZ_m2_pos, Hbl).
  step.
  unfold conv_internal.turbulent_Gnielinski.
  assert (HPl : 1 <= Prl0).
  { rewrite EPrl0. apply Rmult_le_reg_r with kl; [assumption|].
    unfold Rdiv. rewrite Rmult_assoc, Rinv_l by lra. lra. }
  assert (Hden : forall s p, 0 < s -> 1 <= p -> 1 + 12.7 * s * (p - 1) <> 0).
  { intros s p Hs' Hp. assert (0 <= s * (p - 1)) by (apply Rmult_le_pos; lra). lra. }
  py_expr.
  rewrite truediv_ret
    by (apply Hden; [pos | apply Rpower_ge_1; [assumption | lra]]).
  step.
  assert (HNu : exists a b, Thome_vapor_Nu D Reg0 Prg0 fg0 Ldry0 = Ok (a, b)).
  { unfold Thome_vapor_Nu, Thome_vapor_Nu_else,
      conv_internal.turbulent_Gnielinski.
    destruct (Req_dec_T Ldry0 0) as [HL0|HL0]; [eauto|].
    assert (HLd : 0 < Ldry0).
    { assert (0 <= Ldry0) by (rewrite ELdry0; apply Rmult_le_pos; lra). lra. }
    assert (HPg : 1 <= Prg0).
    { destruct Hvapor as [Htd0|HPg].
      - exfalso; apply HL0; rewrite ELdry0, Htd0; ring.
      - rewrite EPrg0. apply Rmult_le_reg_r with kg; [assumption|].
        unfold Rdiv. rewrite Rmult_assoc, Rinv_l by lra. lra. }
    py_expr.
    rewrite truediv_ret
      by (apply Hden; [pos | apply Rpower_ge_1; [assumption | lra]]).
    py_eval. eauto. }
  destruct HNu as (Nu_lam_Zg0 & Nu_trans_Zg0 & ->).
  rewrite bind_ret; cbv beta iota.
  py_expr.
  repeat match goal with
  | |- context [Py.pow (Ok ?s) (Ok 0.25)] =>
      let c := fresh "c" in
      let Hc := fresh "Hc" in
      destruct (pow_ret_nonneg s 0.25) as (c & Hc & _);
      [ repeat apply Rplus_le_le_0_compat;
        first [ apply powerRZ_4_nonneg | left; pos ]
      | lra
      | rewrite Hc; clear Hc ]
  end.
  do 4 step.
  eexists; split; [reflexivity|].
  constructor; cbn; assumption.
Qed.

(** ** Bounds on real powers *)

Lemma Rpower_neg_decr a b c :
  0 < a -> a <= b -> c <= 0 -> Rpower b c <= Rpower a c.
Proof.
  intros Ha Hab Hc.
  replace c with (- (- c)) by ring.
  rewrite !(Rpower_Ropp _ (- c)).
  apply Rinv_le_contravar; [unfold Rpower; apply exp_pos|].
  apply Rle_Rpower_l; lra.
Qed.

Lemma Rpower_Z x n : 0 < x -> Rpower x (IZR n) = powerRZ x n.
Proof. intros; symmetry; now apply powerRZ_Rpower. Qed.

Lemma Rpower_inv_base b e : 0 < b -> Rpower (/ b) e = Rpower b (- e).
Proof. intros Hb. unfold Rpower. rewrite ln_Rinv by assumption. f_equal. ring. Qed.

Lemma Rpower_exp_decr b e1 e2 :
  0 < b <= 1 -> e1 <= e2 -> Rpower b e2 <= Rpower b e1.
Proof.
  intros [Hb0 Hb1] He.
  replace e1 with (- - e1) by ring. replace e2 with (- - e2) by ring.
  rewrite <- !(Rpower_inv_base b) by assumption.
  apply Rle_Rpower; [|lra].
  rewrite <- Rinv_1. apply Rinv_le_contravar; lra.
Qed.

(** [c <= b^(p/n)] from [c^n <= b^p]. *)
Lemma Rpower_ratio_lower c b p n e :
  0 < c -> 0 < b -> (0 < n)%Z -> e = IZR p / IZR n ->
  powerRZ c n <= powerRZ b p -> c <= Rpower b e.
Proof.
  intros Hc Hb Hn -> H.
  assert (Hn' : 0 < IZR n) by (apply IZR_lt; assumption).
  replace (IZR p / IZR n) with (IZR p * / IZR n) by reflexivity.
  rewrite <- Rpower_mult.
  rewrite <- (Rpower_1 c Hc) at 1.
  replace 1 with (IZR n * / IZR n) by (field; lra).
  rewrite <- Rpower_mult.
  apply Rle_Rpower_l.
  - left; apply Rinv_0_lt_compat; assumption.
  - rewrite !Rpower_Z by assumption. split; [|assumption].
    apply powerRZ_lt; assumption.
Qed.

(** [b^(p/n) <= c] from [b^p <= c^n]. *)
Lemma Rpower_ratio_upper c b p n e :
  0 < c -> 0 < b -> (0 < n)%Z -> e = IZR p / IZR n ->
  powerRZ b p <= powerRZ c n -> Rpower b e <= c.
Proof.
  intros Hc Hb Hn -> H.
  assert (Hn' : 0 < IZR n) by (apply IZR_lt; assumption).
  replace (IZR p / IZR n) with (IZR p * / IZR n) by reflexivity.
  rewrite <- Rpower_mult.
  rewrite <- (Rpower_1 c Hc) at 1.
  replace 1 with (IZR n * / IZR n) by (field; lra).
  rewrite <- (Rpower_mult c).
  apply Rle_Rpower_l.
  - left; apply Rinv_0_lt_compat; assumption.
  - rewrite !Rpower_Z by assumption. split; [|assumption].
    apply powerRZ_lt; assumption.
Qed.

Lemma PI_bounds : 3.13 <= PI <= 3.24.
Proof.
  generalize (PI_2_3_7_ineq 0).
  unfold sum_f_R0, tg_alt, PI_2_3_7_tg, Ratan_seq. simpl.
  intros [H1 H2]. split; lra.
Qed.

Lemma inv_bounds p lo hi :
  0 < lo -> lo <= p <= hi -> 1 / hi <= 1 / p <= 1 / lo.
Proof.
  intros Hlo [H1 H2]. unfold Rdiv. rewrite !Rmult_1_l.
  split; apply Rinv_le_contravar; lra.
Qed.

(** ** The documented example of [Thome]

    [Thome(m=1, x=0.4, D=0.3, rhol=567., rhog=18.09, kl=0.086, kg=0.2,
    mul=156E-6, mug=1E-5, Cpl=2300, Cpg=1400, sigma=0.02, Hvap=9E5, Psat=1E5,
    Pc=22E6, q=1E5)]: the film outlives the vapor period. *)

Lemma example_documented f :
  Thome_formulas 1 0.4 0.3 567 18.09 156E-6 1E-5 9E5 0.02 1E5 22E6 1E5 f ->
  10 <= Rel f /\ 10 <= Reg f /\ t_dry_film f > tv f.
Proof.
  intros [EG ERel EReg Eqref Efopt Etau Evp EBo Enul Ed0 Etl Etv Etdf].
  assert (HG : 13.7 <= G f <= 14.2).
  { rewrite EG, Rpower_Z by lra. simpl powerRZ.
    generalize PI_bounds; intros.
    destruct (inv_bounds (PI / 4 * (0.3 * (0.3 * 1))) (3.13/4*0.09) (3.24/4*0.09))
      as [H1 H2]; lra. }
  assert (HRel : 10 <= Rel f) by (rewrite ERel; lra).
  assert (HReg : 10 <= Reg f) by (rewrite EReg; lra).
  split; [assumption|]. split; [assumption|].
  (* the cycle period *)
  assert (Hr : 0 < Rpower (1e5 / 22e6) (-0.5) <= 15).
  { split; [unfold Rpower; apply exp_pos|].
    apply Rle_trans with (Rpower (/ 225) (-0.5));
      [apply Rpower_neg_decr; lra|].
    rewrite Rpower_inv_base by lra.
    apply (Rpower_ratio_upper 15 225 1 2); try lra; try lia.
    simpl; lra. }
  assert (Hq : 2 <= 1e5 / qref f).
  { assert (0 < qref f <= 50000) by (rewrite Eqref; lra).
    apply Rmult_le_reg_r with (qref f); [lra|].
    unfold Rdiv. rewrite Rmult_assoc, Rinv_l by lra. lra. }
  assert (Hf : 2.8 <= fopt f).
  { rewrite Efopt.
    apply Rle_trans with (Rpower 2 1.5);
      [apply (Rpower_ratio_lower 2.8 2 3 2); try lra; try lia; simpl; lra|].
    apply Rle_trans with (Rpower 2 1.74);
      [apply Rle_Rpower; lra | apply Rle_Rpower_l; lra]. }
  assert (Ht : 0 < tau f <= 1 / 2.8).
  { rewrite Etau. destruct (inv_bounds (fopt f) 2.8 (fopt f)); try lra.
    split; [|lra]. apply Rdiv_lt_0_compat; lra. }
  assert (Hv : tv f <= 1 / 2.8).
  { rewrite Etv. apply Rle_trans with (tau f); [|lra].
    apply Rmult_le_reg_r with (1 + 18.09 / 567 * ((1 - 0.4) / 0.4)); [lra|].
    unfold Rdiv at 1. rewrite Rmult_assoc, Rinv_l by lra. nra. }
  (* the initial film thickness *)
  assert (Hvp : 0.317 <= vp f <= 0.33) by (rewrite Evp; lra).
  assert (HBo : 256 <= Bo f).
  { rewrite EBo, Rpower_Z by lra. simpl powerRZ. nra. }
  assert (Hb8 : 8 <= Rpower (Bo f) 0.41).
  { apply Rle_trans with (Rpower 256 0.375);
      [apply (Rpower_ratio_lower 8 256 3 8); try lra; try lia; simpl; lra|].
    apply Rle_trans with (Rpower (Bo f) 0.375);
      [apply Rle_Rpower_l; lra | apply Rle_Rpower; lra]. }
  assert (HE : Rpower (0.07 * Rpower (Bo f) 0.41) (-8) + Rpower 0.1 (-8)
               <= Rpower 0.099 (-8)).
  { apply Rle_trans with (Rpower 0.56 (-8) + Rpower 0.1 (-8)).
    - apply Rplus_le_compat_r, Rpower_neg_decr; lra.
    - rewrite !Rpower_Z by lra. simpl. lra. }
  assert (HB : 0.099 <= Rpower (Rpower (0.07 * Rpower (Bo f) 0.41) (-8)
                                + Rpower 0.1 (-8)) (-1 / 8)).
  { apply Rle_trans with (Rpower (Rpower 0.099 (-8)) (-1 / 8)).
    - rewrite Rpower_mult. replace (-8 * (-1 / 8)) with 1 by lra.
      rewrite Rpower_1; lra.
    - apply Rpower_neg_decr; [|assumption|lra].
      apply Rplus_lt_0_compat; unfold Rpower; apply exp_pos. }
  assert (Hbase : 2.77e-6 <= nul f / vp f / 0.3 <= 2.9e-6).
  { rewrite Enul. destruct (inv_bounds (vp f) 0.317 0.33); lra. }
  assert (Ha1 : 1.66e-3 <= Rpower (nul f / vp f / 0.3) 0.5 <= 1.71e-3).
  { split.
    - apply (Rpower_ratio_lower _ _ 1 2); try lra; try lia. simpl; lra.
    - apply (Rpower_ratio_upper _ _ 1 2); try lra; try lia. simpl; lra. }
  assert (HA : 0.0096 <= Rpower (3 * Rpower (nul f / vp f / 0.3) 0.5) 0.84).
  { apply Rle_trans with (Rpower 4.98e-3 0.875);
      [apply (Rpower_ratio_lower _ _ 7 8); try lra; try lia; simpl; lra|].
    apply Rle_trans with (Rpower (3 * Rpower (nul f / vp f / 0.3) 0.5) 0.875);
      [apply Rle_Rpower_l; lra | apply Rpower_exp_decr; lra]. }
  assert (Hd : 8.2e-5 <= delta0 f).
  { rewrite Ed0.
    apply Rle_trans with (0.3 * 0.29 * 0.0096 * 0.099); [lra|].
    apply Rmult_le_compat; lra. }
  rewrite Etdf. lra.
Qed.

Lemma Thome_documented_returns :
  exists f,
    Thome_body 1 0.4 0.3 567 18.09 156E-6 1E-5 0.086 0.2 2300 1400 9E5 0.02
      1E5 22E6 (Some 1E5) = Ok f /\
    t_dry_film f > tv f.
Proof.
  destruct (Thome_body_returns 1 0.4 0.3 567 18.09 156E-6 1E-5 0.086 0.2 2300
              1400 9E5 0.02 1E5 22E6 1E5) as (f & Hf & Hfrm); try lra.
  - intros f Hfrm. destruct (example_documented f Hfrm) as (H1 & H2 & H3).
    auto.
  - exists f. split; [exact Hf|]. apply (example_documented f Hfrm).
Qed.

(** ** A channel of 10 micrometres: the film starts below the minimum
    thickness *)

Lemma example_thin_film q f :
  Thome_formulas 4E-8 0.4 1E-5 567 18.09 156E-6 1E-5 9E5 0.02 1E5 22E6 q f ->
  10 <= Rel f /\ 10 <= Reg f /\ delta0 f < 0.3e-6.
Proof.
  intros [EG ERel EReg Eqref Efopt Etau Evp EBo Enul Ed0 Etl Etv Etdf].
  assert (HG : 400 <= G f <= 600).
  { rewrite EG, Rpower_Z by lra. simpl powerRZ.
    generalize PI_bounds; intros.
    destruct (inv_bounds (PI / 4 * (1e-5 * (1e-5 * 1)))
                (3.13/4*1e-10) (3.24/4*1e-10)) as [H1 H2]; lra. }
  assert (HRel : 10 <= Rel f) by (rewrite ERel; lra).
  assert (HReg : 10 <= Reg f) by (rewrite EReg; lra).
  split; [assumption|]. split; [assumption|].
  assert (Hvp : 9 <= vp f <= 14) by (rewrite Evp; lra).
  assert (Hbase : 0 < nul f / vp f / 1e-5 <= / 9).
  { rewrite Enul. destruct (inv_bounds (vp f) 9 14); lra. }
  assert (Ha1 : 0 < Rpower (nul f / vp f / 1e-5) 0.5 <= / 3).
  { split; [unfold Rpower; apply exp_pos|].
    apply (Rpower_ratio_upper _ _ 1 2); try lra; try lia. simpl; lra. }
  assert (HA : 0 < Rpower (3 * Rpower (nul f / vp f / 1e-5) 0.5) 0.84 <= 1).
  { split; [unfold Rpower; apply exp_pos|].
    apply Rle_trans with (Rpower 1 0.84);
      [apply Rle_Rpower_l; lra | rewrite Rpower_1_base; lra]. }
  assert (HB : 0 < Rpower (Rpower (0.07 * Rpower (Bo f) 0.41) (-8)
                           + Rpower 0.1 (-8)) (-1 / 8) <= 0.1).
  { split; [unfold Rpower at 1; apply exp_pos|].
    apply Rle_trans with (Rpower (Rpower 0.1 (-8)) (-1 / 8)).
    - apply Rpower_neg_decr; [unfold Rpower; apply exp_pos| |lra].
      assert (0 < Rpower (0.07 * Rpower (Bo f) 0.41) (-8))
        by (unfold Rpower at 1; apply exp_pos).
      lra.
    - rewrite Rpower_mult. replace (-8 * (-1 / 8)) with 1 by lra.
      rewrite Rpower_1; lra. }
  rewrite Ed0.
  apply Rle_lt_trans with (1e-5 * 0.29 * 1 * 0.1); [|lra].
  apply Rmult_le_compat; lra.
Qed.

Lemma Thome_thin_film_returns q :
  0 < q ->
  exists f,
    Thome_body 4E-8 0.4 1E-5 567 18.09 156E-6 1E-5 0.086 0.01 2300 1400 9E5
      0.02 1E5 22E6 (Some q) = Ok f /\
    delta0 f < 0.3e-6.
Proof.
  intros Hq.
  destruct (Thome_body_returns 4E-8 0.4 1E-5 567 18.09 156E-6 1E-5 0.086 0.01
              2300 1400 9E5 0.02 1E5 22E6 q) as (f & Hf & Hfrm); try lra.
  - intros f Hfrm. destruct (example_thin_film q f Hfrm) as (H1 & H2 & H3).
    repeat split; auto. left; lra.
  - exists f. split; [exact Hf|]. apply (example_thin_film q f Hfrm).
Qed.

(** ** The film model [Thome]: durations, weights and the end thickness *)

Lemma int_of_174 : Py.int_of 1.74 = None.
Proof.
  unfold Py.int_of.
  destruct (Req_dec_T (IZR (up 1.74 - 1)) 1.74) as [E|E]; [|reflexivity].
  exfalso.
  assert (H : IZR ((up 1.74 - 1) * 100) = IZR 174) by (rewrite mult_IZR, E; lra).
  apply eq_IZR in H. lia.
Qed.

Lemma pow_float_174_pos a c :
  Py.pow_float a 1.74 = Ok c -> c <> 0 -> 0 < c.
Proof.
  unfold Py.pow_float. intros H Hc.
  destruct (Rlt_dec 0 a).
  - injection H as <-. unfold Rpower; apply exp_pos.
  - destruct (Req_dec_T a 0).
    + destruct (Rlt_dec 0 1.74); [|lra].
      injection H as <-. contradiction.
    + rewrite int_of_174 in H. discriminate.
Qed.

Section Returned.

Variables x D rhol rhog kl kg Hvap qv : R.
Variable f : Thome_frame.
Hypothesis Hret : Thome_returned x D rhol rhog kl kg Hvap qv f.

Ltac fact p := pose proof (p _ _ _ _ _ _ _ _ _ Hret).

Lemma Thome_tau_pos : 0 < tau f.
Proof.
  fact ret_fopt. fact ret_fopt_nz. fact ret_tau.
  assert (0 < fopt f) by (eapply pow_float_174_pos; eassumption).
  rewrite H1. apply Rdiv_lt_0_compat; lra.
Qed.

Lemma Thome_tl_tv : tl f + tv f = tau f.
Proof.
  fact ret_tl. fact ret_tv. fact ret_tl_den. fact ret_x. fact ret_1x.
  fact ret_rhol. fact ret_rhog.
  rewrite H, H0.
  assert (Hd : rhog * (1 - x) + rhol * x <> 0).
  { intros E. apply H1.
    replace (1 + rhol / rhog * (x / (1 - x)))
      with ((rhog * (1 - x) + rhol * x) / (rhog * (1 - x))) by (field; auto).
    rewrite E. unfold Rdiv. ring. }
  field. repeat split; auto; intros E; apply Hd; lra.
Qed.

Lemma Thome_film_dry : t_film f + t_dry f = tv f.
Proof.
  fact ret_survives. fact ret_dries.
  destruct (Rgt_dec (t_dry_film f) (tv f)) as [Hs|Hd].
  - destruct (H Hs) as (-> & _ & -> & _). ring.
  - destruct (H0 Hd) as (-> & _ & ->). ring.
Qed.

Lemma Thome_durations : tl f + t_film f + t_dry f = tau f.
Proof. generalize Thome_tl_tv Thome_film_dry. lra. Qed.

Lemma Thome_weights : tl f / tau f + t_film f / tau f + t_dry f / tau f = 1.
Proof.
  generalize Thome_durations Thome_tau_pos. intros Hs Ht.
  replace (tl f / tau f + t_film f / tau f + t_dry f / tau f)
    with ((tl f + t_film f + t_dry f) / tau f) by (field; lra).
  rewrite Hs. field. lra.
Qed.

Hypothesis Hx : 0 < x < 1.
Hypothesis Hrhol : 0 < rhol.
Hypothesis Hrhog : 0 < rhog.
Hypothesis HHvap : 0 < Hvap.
Hypothesis Hq : 0 < qv.

Lemma Thome_tl_tv_pos : 0 < tl f /\ 0 < tv f.
Proof.
  generalize Thome_tau_pos; intros Ht.
  fact ret_tl. fact ret_tv. rewrite H, H0. destruct Hx.
  split; pos.
Qed.

(** The sign of the film duration is the sign of [delta0 - delta_min]. *)
Lemma Thome_t_dry_film_sign :
  (C_delta0 f <= delta0 f -> 0 <= t_dry_film f) /\
  (delta0 f < C_delta0 f -> t_dry_film f < 0).
Proof.
  fact ret_t_dry_film. rewrite H.
  assert (0 < rhol * Hvap / qv)
    by (apply Rdiv_lt_0_compat; [apply Rmult_lt_0_compat|]; assumption).
  split; intros; nra.
Qed.

Lemma Thome_weights_nonneg :
  C_delta0 f <= delta0 f ->
  0 < tl f / tau f /\ 0 <= t_film f / tau f /\ 0 <= t_dry f / tau f.
Proof.
  intros Hd.
  generalize Thome_tau_pos Thome_tl_tv_pos; intros Ht [Hl Hv].
  destruct Thome_t_dry_film_sign as [Hs _]. specialize (Hs Hd).
  assert (Hinv : 0 < / tau f) by (apply Rinv_0_lt_compat; assumption).
  fact ret_survives. fact ret_dries.
  split; [apply Rdiv_lt_0_compat; assumption|].
  destruct (Rgt_dec (t_dry_film f) (tv f)) as [Hgt|Hle].
  - destruct (H Hgt) as (-> & _ & -> & _).
    split; unfold Rdiv; nra.
  - destruct (H0 Hle) as (-> & _ & ->).
    split; unfold Rdiv; nra.
Qed.

Lemma Thome_film_weight_negative :
  delta0 f < C_delta0 f -> t_film f / tau f < 0.
Proof.
  intros Hd.
  generalize Thome_tau_pos Thome_tl_tv_pos; intros Ht [Hl Hv].
  destruct Thome_t_dry_film_sign as [_ Hs]. specialize (Hs Hd).
  assert (Hinv : 0 < / tau f) by (apply Rinv_0_lt_compat; assumption).
  fact ret_dries.
  destruct H as (-> & _ & _); [lra|].
  unfold Rdiv; nra.
Qed.

(** When the film survives, the end thickness stays above the minimum. *)
Lemma Thome_delta_end_survives :
  t_dry_film f > tv f ->
  delta_end f = delta0 f - qv / rhol / Hvap * tv f /\
  C_delta0 f < delta_end f.
Proof.
  intros Hs. fact ret_survives. fact ret_t_dry_film.
  destruct (H Hs) as (_ & Hde & _ & _).
  split; [exact Hde|]. rewrite Hde.
  rewrite H0 in Hs.
  assert (Hk : 0 < qv / rhol / Hvap)
    by (repeat apply Rdiv_lt_0_compat; assumption).
  assert (E : rhol * Hvap / qv * (delta0 f - C_delta0 f) * (qv / rhol / Hvap)
              = delta0 f - C_delta0 f) by (field; repeat split; lra).
  nra.
Qed.

End Returned.

(** ** [Aggour]: the two regimes *)

Lemma Rpower_sqr D : 0 < D -> Rpower D 2 = D ^ 2.
Proof. intros HD. rewrite Rpower_Z by assumption. reflexivity. Qed.

Section AggourRegimes.

Variables m x alpha D rhol Cpl kl mu_b L : R.
Variable mu_w : pyopt.
Hypothesis Hm : 0 < m.
Hypothesis Hx : 0 < x < 1.
Hypothesis Halpha : 0 < alpha < 1.
Hypothesis HD : 0 < D.
Hypothesis Hrhol : 0 < rhol.
Hypothesis HCpl : 0 < Cpl.
Hypothesis Hkl : 0 < kl.
Hypothesis Hmu_b : 0 < mu_b.
Hypothesis HL : 0 < L.
Hypothesis Hmu_w : supplied_pos mu_w.

Lemma Aggour_turbulent_branch (L' : pyopt) (turbulent : option bool) :
  turbulent = Some true \/
  (turbulent = None /\ Aggour_Rel m x alpha D rhol mu_b > 2000) ->
  Aggour m x alpha D rhol Cpl kl mu_b mu_w L' turbulent
  = Ok (Aggour_turbulent m x alpha D rhol Cpl kl mu_b).
Proof.
  intros Hb. destruct Hx, Halpha.
  unfold Aggour, fluids_core.Reynolds, fluids_core.Prandtl, gt,
    Aggour_turbulent, Aggour_Rel, Aggour_Prl.
  py_eval. rewrite Rpower_sqr by assumption.
  unfold Aggour_Rel, Py.pi in *.
  match goal with |- context [Rgt_dec ?a ?b] => destruct (Rgt_dec a b) end;
    destruct Hb as [->|[-> Hgt]]; cbn [truthy_flag flag_is_None];
    try contradiction; py_eval; reflexivity.
Qed.

Lemma Aggour_laminar_branch (turbulent : option bool) :
  turbulent = Some false \/
  (turbulent = None /\ Aggour_Rel m x alpha D rhol mu_b <= 2000) ->
  Aggour m x alpha D rhol Cpl kl mu_b mu_w (Some L) turbulent
  = Ok (Aggour_laminar m x alpha D rhol Cpl kl mu_b L mu_w).
Proof.
  intros Hb. destruct Hx, Halpha.
  unfold Aggour, fluids_core.Reynolds, fluids_core.Prandtl, gt,
    Aggour_laminar, Aggour_Rel, Aggour_Prl.
  py_eval. rewrite Rpower_sqr by assumption.
  unfold Aggour_Rel, Py.pi in *.
  match goal with |- context [Rgt_dec ?a ?b] => destruct (Rgt_dec a b) end;
    destruct Hb as [->|[-> Hle]]; cbn [truthy_flag flag_is_None];
    try lra;
    (case_opt mu_w; py_eval;
     [ destruct (Req_dec_T w 0); [lra | reflexivity] | reflexivity ]).
Qed.

End AggourRegimes.

(** ** [Aggour]: the jump across [Rel = 2000]

    With [x = alpha = 1/2] and every other input 1, the liquid Reynolds
    number is [4*m/pi]. *)

Lemma Aggour_Rel_unit m : Aggour_Rel m (1/2) (1/2) 1 1 1 = m * (4 / PI).
Proof. unfold Aggour_Rel. field. apply Rgt_not_eq, PI_RGT_0. Qed.

(** The laminar value at [Rel = 2000] exceeds by more than 7 the turbulent
    value at every [Rel] in (2000, 2001]. *)
Lemma Aggour_jump m m' :
  Aggour_Rel m (1/2) (1/2) 1 1 1 = 2000 ->
  2000 < Aggour_Rel m' (1/2) (1/2) 1 1 1 <= 2001 ->
  Aggour_turbulent m' (1/2) (1/2) 1 1 1 1 1 + 7
  < Aggour_laminar m (1/2) (1/2) 1 1 1 1 1 1 None.
Proof.
  intros E [Hlo Hhi].
  unfold Aggour_turbulent, Aggour_laminar, Aggour_Prl. rewrite E.
  set (r := Aggour_Rel m' (1/2) (1/2) 1 1 1) in *.
  replace (1 * 1 / 1) with 1 by lra.
  replace (2000 * 1 * 1 / 1) with 2000 by lra.
  replace (1 - 1 / 2) with (/ 2) by lra.
  rewrite !Rpower_inv_base by lra. rewrite Rpower_1_base.
  replace (- -0.83) with 0.83 by lra.
  replace (- (-1 / 3)) with (1 / 3) by lra.
  assert (HA : Rpower r 0.83 <= 565).
  { apply Rle_trans with (Rpower r (5/6)); [apply Rle_Rpower; lra|].
    apply Rle_trans with (Rpower 2001 (5/6)); [apply Rle_Rpower_l; lra|].
    apply (Rpower_ratio_upper 565 2001 5 6); try lra; try lia. simpl; lra. }
  assert (HA0 : 0 < Rpower r 0.83) by (unfold Rpower; apply exp_pos).
  assert (HC : Rpower 2 0.83 <= 2).
  { rewrite <- (Rpower_1 2) at 2 by lra. apply Rle_Rpower; lra. }
  assert (HC0 : 0 < Rpower 2 0.83) by (unfold Rpower; apply exp_pos).
  assert (HD : 12.5 <= Rpower 2000 (1/3)).
  { apply (Rpower_ratio_lower 12.5 2000 1 3); try lra; try lia. simpl; lra. }
  assert (HE : 1.25 <= Rpower 2 (1/3)).
  { apply (Rpower_ratio_lower 1.25 2 1 3); try lra; try lia. simpl; lra. }
  assert (H1 : Rpower r 0.83 * Rpower 2 0.83 <= 565 * 2)
    by (apply Rmult_le_compat; lra).
  assert (H2 : 12.5 * 1.25 <= Rpower 2000 (1/3) * Rpower 2 (1/3))
    by (apply Rmult_le_compat; lra).
  lra.
Qed.

Lemma Aggour_discontinuous_at_2000 m0 m1 :
  Aggour_Rel m0 (1/2) (1/2) 1 1 1 = 2000 ->
  2000 < Aggour_Rel m1 (1/2) (1/2) 1 1 1 <= 2001 ->
  exists h0 h1,
    Aggour m0 (1/2) (1/2) 1 1 1 1 1 None (Some 1) None = Ok h0 /\
    Aggour m1 (1/2) (1/2) 1 1 1 1 1 None (Some 1) None = Ok h1 /\
    h1 + 7 < h0.
Proof.
  intros E0 E1.
  assert (Hc : 0 < 4 / PI) by (apply Rdiv_lt_0_compat; [lra|apply PI_RGT_0]).
  assert (Hm0 : 0 < m0).
  { apply Rmult_lt_reg_r with (4 / PI); [exact Hc|].
    rewrite Rmult_0_l, <- Aggour_Rel_unit. lra. }
  assert (Hm1 : 0 < m1).
  { apply Rmult_lt_reg_r with (4 / PI); [exact Hc|].
    rewrite Rmult_0_l, <- Aggour_Rel_unit. lra. }
  exists (Aggour_laminar m0 (1/2) (1/2) 1 1 1 1 1 1 None),
         (Aggour_turbulent m1 (1/2) (1/2) 1 1 1 1 1).
  split; [|split].
  - apply Aggour_laminar_branch;
      first [lra | apply supplied_pos_None | right; split; [reflexivity|lra]].
  - apply Aggour_turbulent_branch;
      first [lra | apply supplied_pos_None | right; split; [reflexivity|lra]].
  - apply Aggour_jump; assumption.
Qed.

(** * The claims *)

(** ** C1: the film coefficient of [Thome] *)

(** Two film coefficients over different end thicknesses differ. *)
Lemma film_coefficient_differs kl d0 c e :
  0 < kl -> d0 + c <> 0 -> c < e -> 2*kl/(d0 + c) <> 2*kl/(d0 + e).
Proof.
  intros Hkl Hden Hgt E.
  destruct (Req_dec_T (d0 + e) 0) as [Hz|Hnz].
  - rewrite Hz in E. unfold Rdiv in E. rewrite Rinv_0, Rmult_0_r in E.
    apply Rmult_integral in E. destruct E as [E|E]; [lra|].
    apply Rinv_neq_0_compat in Hden. contradiction.
  - assert (E' : 2 * kl * (d0 + e) = 2 * kl * (d0 + c)).
    { apply (f_equal (fun t => t * (d0 + c) * (d0 + e))) in E.
      field_simplify in E; lra. }
    nra.
Qed.

(** C1, as amended. For every returning heat-flux call of [Thome] the film
    coefficient is [2*kl/(delta0 + 0.3e-6)]: the minimum film thickness
    stands in its denominator in both branches of the dry-out test. When the film dries
    out, [delta_end] is that minimum. When the film outlives the vapor
    period, [delta_end = delta0 - q/rhol/Hvap*tv] is computed, lies strictly
    above the minimum, and is not used: the coefficient differs from
    [2*kl/(delta0 + delta_end)]. *)
Theorem Thome_film_coefficient_ignores_delta_end
    m x D rhol rhog mul mug kl kg Cpl Cpg Hvap sigma Psat Pc qv f :
  0 < rhol -> 0 < kl -> 0 < Hvap -> 0 < qv ->
  Thome_body m x D rhol rhog mul mug kl kg Cpl Cpg Hvap sigma Psat Pc
    (Some qv) = Ok f ->
  h_film f = 2*kl/(delta0 f + 0.3e-6) /\
  (~ t_dry_film f > tv f -> delta_end f = 0.3e-6) /\
  (t_dry_film f > tv f ->
   delta_end f = delta0 f - qv/rhol/Hvap*tv f /\
   0.3e-6 < delta_end f /\
   h_film f <> 2*kl/(delta0 f + delta_end f)).
Proof.
  intros Hrhol Hkl HHvap Hq Hf.
  apply Thome_body_returned in Hf.
  pose proof (ret_C_delta0 _ _ _ _ _ _ _ _ _ Hf) as HC.
  pose proof (ret_h_film _ _ _ _ _ _ _ _ _ Hf) as Hh.
  pose proof (ret_h_film_den _ _ _ _ _ _ _ _ _ Hf) as Hden.
  pose proof (ret_dries _ _ _ _ _ _ _ _ _ Hf) as Hdries.
  rewrite HC in Hh, Hden, Hdries.
  split; [exact Hh|]. split.
  - intros Hn. destruct (Hdries Hn) as (_ & He & _). exact He.
  - intros Hs.
    destruct (Thome_delta_end_survives _ _ _ _ _ _ _ _ _ Hf Hrhol HHvap Hq Hs)
      as [He Hgt].
    rewrite HC in Hgt.
    split; [exact He|]. split; [exact Hgt|].
    rewrite Hh. apply film_coefficient_differs; assumption.
Qed.

(** The documented example [Thome(m=1, x=0.4, D=0.3, rhol=567., rhog=18.09,
    kl=0.086, kg=0.2, mul=156E-6, mug=1E-5, Cpl=2300, Cpg=1400, sigma=0.02,
    Hvap=9E5, Psat=1E5, Pc=22E6, q=1E5)] returns with the film outliving the
    vapor period, and its film coefficient is not
    [2*kl/(delta0 + delta_end)]. *)
Lemma Thome_film_coefficient_documented_example :
  exists f,
    Thome_body 1 0.4 0.3 567 18.09 156E-6 1E-5 0.086 0.2 2300 1400 9E5 0.02
      1E5 22E6 (Some 1E5) = Ok f /\
    t_dry_film f > tv f /\
    h_film f = 2*0.086/(delta0 f + 0.3e-6) /\
    delta_end f = delta0 f - 1E5/567/9E5*tv f /\
    0.3e-6 < delta_end f /\
    h_film f <> 2*0.086/(delta0 f + delta_end f).
Proof.
  destruct Thome_documented_returns as (f & Hf & Hs).
  exists f. split; [exact Hf|]. split; [exact Hs|].
  destruct (Thome_film_coefficient_ignores_delta_end
              1 0.4 0.3 567 18.09 156E-6 1E-5 0.086 0.2 2300 1400 9E5 0.02
              1E5 22E6 1E5 f ltac:(lra) ltac:(lra) ltac:(lra) ltac:(lra) Hf)
    as (Hh & _ & Hb).
  destruct (Hb Hs) as (He & Hgt & Hne).
  repeat split; assumption.
Defined.

(** C1 as stated fails: in the documented example the film outlives the
    vapor period, the end-of-cycle thickness is [delta0 - q/rhol/Hvap*tv],
    and the film coefficient is not [2*kl/(delta0 + delta_end)]. *)
Lemma Thome_film_coefficient_not_end_thickness :
  exists f,
    Thome_body 1 0.4 0.3 567 18.09 156E-6 1E-5 0.086 0.2 2300 1400 9E5 0.02
      1E5 22E6 (Some 1E5) = Ok f /\
    t_dry_film f > tv f /\
    delta_end f = delta0 f - 1E5/567/9E5*tv f /\
    h_film f <> 2*0.086/(delta0 f + delta_end f).
Proof.
  destruct Thome_documented_returns as (f & Hf & Hs).
  exists f. split; [exact Hf|]. split; [exact Hs|].
  apply Thome_body_returned in Hf.
  pose proof (ret_C_delta0 _ _ _ _ _ _ _ _ _ Hf) as HC.
  pose proof (ret_h_film _ _ _ _ _ _ _ _ _ Hf) as Hh.
  pose proof (ret_h_film_den _ _ _ _ _ _ _ _ _ Hf) as Hden.
  destruct (Thome_delta_end_survives _ _ _ _ _ _ _ _ _ Hf
              ltac:(lra) ltac:(lra) ltac:(lra) Hs) as [He Hgt].
  split; [exact He|].
  rewrite Hh. apply film_coefficient_differs; [lra | exact Hden | exact Hgt].
Qed.

(** ** C2: the three durations of the cycle *)

(** C2, as amended. For every returning heat-flux call of [Thome], in both
    branches of the dry-out test, [tl + tv = tau], [t_film + t_dry = tv] and
    so [tl + t_film + t_dry = tau]; the three weights of the returned
    coefficient sum to 1. On positive inputs with [0 < x < 1] the weights are
    non-negative, so that the coefficient is a convex average, provided the
    initial film thickness is at least the minimum film thickness. *)
Theorem Thome_cycle_durations
    m x D rhol rhog mul mug kl kg Cpl Cpg Hvap sigma Psat Pc qv f :
  Thome_body m x D rhol rhog mul mug kl kg Cpl Cpg Hvap sigma Psat Pc
    (Some qv) = Ok f ->
  tl f + tv f = tau f /\
  t_film f + t_dry f = tv f /\
  tl f + t_film f + t_dry f = tau f /\
  tl f/tau f + t_film f/tau f + t_dry f/tau f = 1 /\
  h f = tl f/tau f*h_Zl f + t_film f/tau f*h_film f + t_dry f/tau f*h_Zg f /\
  (0 < x < 1 -> 0 < rhol -> 0 < rhog -> 0 < Hvap -> 0 < qv ->
   0.3e-6 <= delta0 f ->
   0 < tl f/tau f /\ 0 <= t_film f/tau f /\ 0 <= t_dry f/tau f).
Proof.
  intros Hf. apply Thome_body_returned in Hf.
  split; [exact (Thome_tl_tv _ _ _ _ _ _ _ _ _ Hf)|].
  split; [exact (Thome_film_dry _ _ _ _ _ _ _ _ _ Hf)|].
  split; [exact (Thome_durations _ _ _ _ _ _ _ _ _ Hf)|].
  split; [exact (Thome_weights _ _ _ _ _ _ _ _ _ Hf)|].
  split; [exact (ret_h _ _ _ _ _ _ _ _ _ Hf)|].
  intros Hx Hrhol Hrhog HHvap Hq Hd.
  apply (Thome_weights_nonneg _ _ _ _ _ _ _ _ _ Hf); try assumption.
  rewrite (ret_C_delta0 _ _ _ _ _ _ _ _ _ Hf). exact Hd.
Qed.

(** The documented example: the durations sum to the period and the weights
    are those of a convex average. *)
Lemma Thome_cycle_durations_documented_example :
  exists f,
    Thome_body 1 0.4 0.3 567 18.09 156E-6 1E-5 0.086 0.2 2300 1400 9E5 0.02
      1E5 22E6 (Some 1E5) = Ok f /\
    tl f + t_film f + t_dry f = tau f /\
    tl f/tau f + t_film f/tau f + t_dry f/tau f = 1 /\
    0 < tl f/tau f /\ 0 <= t_film f/tau f /\ 0 <= t_dry f/tau f.
Proof.
  destruct Thome_documented_returns as (f & Hf & Hs).
  exists f. split; [exact Hf|].
  destruct (Thome_cycle_durations _ _ _ _ _ _ _ _ _ _ _ _ _ _ _ _ _ Hf)
    as (_ & _ & Hsum & Hw & _ & Hconv).
  split; [exact Hsum|]. split; [exact Hw|].
  apply Hconv; try lra.
  pose proof (Thome_body_returned _ _ _ _ _ _ _ _ _ _ _ _ _ _ _ _ _ Hf) as Hr.
  destruct (Thome_t_dry_film_sign _ _ _ _ _ _ _ _ _ Hr) as [_ Hneg]; try lra.
  destruct (Thome_tl_tv_pos _ _ _ _ _ _ _ _ _ Hr) as [_ Htv]; try lra.
  rewrite (ret_C_delta0 _ _ _ _ _ _ _ _ _ Hr) in Hneg.
  destruct (Rle_lt_dec 0.3e-6 (delta0 f)) as [Hle|Hlt]; [exact Hle|].
  specialize (Hneg Hlt). lra.
Defined.

(** C2 as stated fails: in a channel of 10 micrometres
    ([m=4E-8, D=1E-5, kg=0.01], the other inputs those of the documented
    example) the call returns, the durations sum to the period, and the
    weight of the film phase is negative. *)
Lemma Thome_film_weight_negative_example :
  exists f,
    Thome_body 4E-8 0.4 1E-5 567 18.09 156E-6 1E-5 0.086 0.01 2300 1400 9E5
      0.02 1E5 22E6 (Some 1E5) = Ok f /\
    tl f + t_film f + t_dry f = tau f /\
    t_film f/tau f < 0.
Proof.
  destruct (Thome_thin_film_returns 1E5) as (f & Hf & Hd); [lra|].
  exists f. split; [exact Hf|].
  pose proof (Thome_body_returned _ _ _ _ _ _ _ _ _ _ _ _ _ _ _ _ _ Hf) as Hr.
  split; [exact (Thome_durations _ _ _ _ _ _ _ _ _ Hr)|].
  apply (Thome_film_weight_negative _ _ _ _ _ _ _ _ _ Hr); try lra.
  rewrite (ret_C_delta0 _ _ _ _ _ _ _ _ _ Hr). exact Hd.
Qed.

(** ** C3: no dry zone *)

(** The statements of the [else:] suite divide by [Ldry]. *)
Lemma Thome_vapor_Nu_else_zero D Reg Prg fg :
  0 < Prg ->
  Thome_vapor_Nu_else D Reg Prg fg 0 = Raise ZeroDivisionError.
Proof.
  intros HPrg. unfold Thome_vapor_Nu_else. py_eval.
  rewrite truediv_zero. reflexivity.
Qed.

Lemma Thome_vapor_Nu_zero D Reg Prg fg :
  Thome_vapor_Nu D Reg Prg fg 0 = Ok (0, 0).
Proof.
  unfold Thome_vapor_Nu.
  destruct (Req_dec_T 0 0); [reflexivity | contradiction].
Qed.

(** C3. For every returning heat-flux call of [Thome]: a film that outlives
    the vapor period gives [t_dry = 0] and [Ldry = 0]; and whenever
    [Ldry = 0] both vapor Nusselt numbers are exactly 0, the vapor
    coefficient is 0, and the vapor term adds nothing to the returned
    coefficient. The [if Ldry == 0:] statement answers [(0, 0)] for any
    arguments, where the guarded statements would divide by zero. *)
Theorem Thome_no_dry_zone
    m x D rhol rhog mul mug kl kg Cpl Cpg Hvap sigma Psat Pc qv f :
  Thome_body m x D rhol rhog mul mug kl kg Cpl Cpg Hvap sigma Psat Pc
    (Some qv) = Ok f ->
  (t_dry_film f > tv f -> t_dry f = 0 /\ Ldry f = 0) /\
  (Ldry f = 0 ->
   Nu_lam_Zg f = 0 /\ Nu_trans_Zg f = 0 /\ h_Zg f = 0 /\
   t_dry f/tau f*h_Zg f = 0 /\
   h f = tl f/tau f*h_Zl f + t_film f/tau f*h_film f) /\
  (forall D' Reg' Prg' fg',
     Thome_vapor_Nu D' Reg' Prg' fg' 0 = Ok (0, 0) /\
     (0 < Prg' ->
      Thome_vapor_Nu_else D' Reg' Prg' fg' 0 = Raise ZeroDivisionError)).
Proof.
  intros Hf. apply Thome_body_returned in Hf.
  split; [|split].
  - intros Hs.
    destruct (ret_survives _ _ _ _ _ _ _ _ _ Hf Hs) as (_ & _ & Ht & _).
    split; [exact Ht|].
    rewrite (ret_Ldry _ _ _ _ _ _ _ _ _ Hf), Ht. ring.
  - intros HL.
    pose proof (ret_vapor _ _ _ _ _ _ _ _ _ Hf) as Hv.
    rewrite HL, Thome_vapor_Nu_zero in Hv.
    injection Hv as Hlam Htrans.
    destruct (ret_h_Zg _ _ _ _ _ _ _ _ _ Hf) as (a & b & c & Ha & Hb & Hc & Hh).
    rewrite <- Hlam in Ha. rewrite <- Htrans in Hb.
    rewrite (pow_float_int 0 4) in Ha, Hb by (right; lia).
    injection Ha as <-. injection Hb as <-.
    match type of Hc with
    | Py.pow_float ?s _ = _ => replace s with 0 in Hc by (simpl; ring)
    end.
    rewrite pow_float_zero in Hc by lra. injection Hc as <-.
    assert (HZg : h_Zg f = 0) by (rewrite Hh; ring).
    repeat split; try congruence.
    + rewrite HZg; ring.
    + rewrite (ret_h _ _ _ _ _ _ _ _ _ Hf), HZg. ring.
  - intros D' Reg' Prg' fg'. split.
    + apply Thome_vapor_Nu_zero.
    + apply Thome_vapor_Nu_else_zero.
Qed.

(** The documented example has no dry zone. *)
Lemma Thome_no_dry_zone_documented_example :
  exists f,
    Thome_body 1 0.4 0.3 567 18.09 156E-6 1E-5 0.086 0.2 2300 1400 9E5 0.02
      1E5 22E6 (Some 1E5) = Ok f /\
    Ldry f = 0 /\
    Nu_lam_Zg f = 0 /\ Nu_trans_Zg f = 0 /\ h_Zg f = 0 /\
    h f = tl f/tau f*h_Zl f + t_film f/tau f*h_film f.
Proof.
  destruct Thome_documented_returns as (f & Hf & Hs).
  exists f. split; [exact Hf|].
  destruct (Thome_no_dry_zone _ _ _ _ _ _ _ _ _ _ _ _ _ _ _ _ _ Hf)
    as (Hsurv & Hzero & _).
  destruct (Hsurv Hs) as [_ HL].
  destruct (Hzero HL) as (H1 & H2 & H3 & _ & H5).
  repeat split; assumption.
Defined.

(** ** C4: the analytic inverses *)

Lemma pow_ret_zero_base s y :
  s = 0 -> 0 < y -> Py.pow (Ok s) (Ok y) = Ok 0.
Proof. intros ->. apply pow_ret_zero. Qed.

(** With equal densities the Bond number is zero and the heat-flux path of
    [Li_Wu] returns 0. *)
Lemma Li_Wu_equal_densities m x D rho mul kl Hvap sigma q :
  0 < m -> 0 < x < 1 -> 0 < D -> 0 < mul -> 0 < kl -> 0 < Hvap ->
  0 < sigma -> 0 < q ->
  Li_Wu m x D rho rho mul kl Hvap sigma (Some q) None = Ok 0.
Proof.
  intros Hm [Hx0 Hx1] HD Hmul Hkl HHvap Hsigma Hq.
  unfold Li_Wu, fluids_core.Boiling, fluids_core.Bond. py_eval.
  rewrite pow_ret_zero_base by (try lra; unfold Rdiv; ring).
  py_eval. f_equal. unfold Rdiv. ring.
Qed.

(** C4. On positive inputs with [0 < x < 1] and [q > 0], the heat-flux path
    of [Lazarek_Black], [Sun_Mishima] and [Yun_Heo_Kim] returns a
    coefficient [h > 0], and the same call with [Te = q/h] and no [q] returns
    [h'] with [h'*Te = q]. So does [Li_Wu] when the liquid is denser than the
    gas; with equal densities its Bond number is zero, its heat-flux path
    returns 0 and there is no [Te = q/h], and with a denser gas the Bond
    number is negative and [(Bo*Rel**0.36)**0.4] is not a real number. *)
Theorem analytic_inverse_round_trip m x D rhol rhog mul kl Hvap sigma q :
  0 < m -> 0 < x < 1 -> 0 < D -> 0 < rhol -> 0 < rhog -> 0 < mul ->
  0 < kl -> 0 < Hvap -> 0 < sigma -> 0 < q ->
  round_trip (Lazarek_Black m D mul kl Hvap) q /\
  round_trip (Sun_Mishima m D rhol rhog mul kl Hvap sigma) q /\
  round_trip (Yun_Heo_Kim m x D rhol mul Hvap sigma) q /\
  (rhog < rhol -> round_trip (Li_Wu m x D rhol rhog mul kl Hvap sigma) q) /\
  (rhog = rhol ->
   Li_Wu m x D rhol rhog mul kl Hvap sigma (Some q) None = Ok 0).
Proof.
  intros Hm Hx HD Hrhol Hrhog Hmul Hkl HHvap Hsigma Hq.
  split; [apply Lazarek_Black_round_trip; assumption|].
  split; [apply Sun_Mishima_round_trip; assumption|].
  split; [apply Yun_Heo_Kim_round_trip; assumption|].
  split; [intros; apply Li_Wu_round_trip; assumption|].
  intros ->. apply Li_Wu_equal_densities; assumption.
Qed.

(** The inputs of the documented examples, with [q = 1E5]. *)
Lemma analytic_inverse_round_trip_example :
  round_trip (Lazarek_Black 1 0.3 156E-6 0.086 9E5) 1E5 /\
  round_trip (Sun_Mishima 1 0.3 567 18.09 156E-6 0.086 9E5 0.02) 1E5 /\
  round_trip (Yun_Heo_Kim 1 0.4 0.3 567 156E-6 9E5 0.02) 1E5 /\
  round_trip (Li_Wu 1 0.4 0.3 567 18.09 156E-6 0.086 9E5 0.02) 1E5.
Proof.
  destruct (analytic_inverse_round_trip 1 0.4 0.3 567 18.09 156E-6 0.086 9E5
              0.02 1E5) as (H1 & H2 & H3 & H4 & _); try lra.
  repeat split; try assumption. apply H4; lra.
Defined.

(** ** C5: neither [q] nor [Te] *)

(** C5. On inputs with positive [D], [mul], [rhol] and [sigma], each of
    [Lazarek_Black], [Li_Wu], [Sun_Mishima], [Yun_Heo_Kim] and [Thome] (with
    any root finder), called with neither [q] nor [Te], raises
    [Exception('Either q or Te is needed for this correlation')] and so
    returns no result. *)
Theorem missing_boundary_condition_raises (fsolve : solver)
    m x D rhol rhog mul mug kl kg Cpl Cpg Hvap sigma Psat Pc :
  0 < D -> 0 < mul -> 0 < rhol -> 0 < sigma ->
  Lazarek_Black m D mul kl Hvap None None
  = Raise (Exception "Either q or Te is needed for this correlation") /\
  Li_Wu m x D rhol rhog mul kl Hvap sigma None None
  = Raise (Exception "Either q or Te is needed for this correlation") /\
  Sun_Mishima m D rhol rhog mul kl Hvap sigma None None
  = Raise (Exception "Either q or Te is needed for this correlation") /\
  Yun_Heo_Kim m x D rhol mul Hvap sigma None None
  = Raise (Exception "Either q or Te is needed for this correlation") /\
  Thome fsolve m x D rhol rhog mul mug kl kg Cpl Cpg Hvap sigma Psat Pc
    None None
  = Raise (Exception "Either q or Te is needed for this correlation").
Proof.
  intros HD Hmul Hrhol Hsigma.
  split; [apply Lazarek_Black_missing; auto using truthy_None|].
  split; [apply Li_Wu_missing; auto using truthy_None|].
  split; [apply Sun_Mishima_missing; auto using truthy_None|].
  split; [apply Yun_Heo_Kim_missing; auto using truthy_None|].
  apply Thome_missing.
Qed.

Lemma missing_boundary_condition_example :
  Lazarek_Black 10 0.3 1E-3 0.6 2E6 None None = Raise missing_q_Te /\
  Li_Wu 1 0.2 0.3 567 18.09 156E-6 0.086 9E5 0.02 None None
  = Raise missing_q_Te /\
  Sun_Mishima 1 0.3 567 18.09 156E-6 0.086 9E5 0.02 None None
  = Raise missing_q_Te /\
  Yun_Heo_Kim 1 0.4 0.3 567 156E-6 9E5 0.02 None None = Raise missing_q_Te /\
  Thome first_guess 1 0.4 0.3 567 18.09 156E-6 1E-5 0.086 0.2 2300 1400 9E5
    0.02 1E5 22E6 None None = Raise missing_q_Te.
Proof.
  destruct (missing_boundary_condition_raises first_guess 10 0.2 0.3 567 18.09
              1E-3 1E-5 0.6 0.2 2300 1400 2E6 0.02 1E5 22E6)
    as (H1 & _); try lra.
  destruct (missing_boundary_condition_raises first_guess 1 0.2 0.3 567 18.09
              156E-6 1E-5 0.086 0.2 2300 1400 9E5 0.02 1E5 22E6)
    as (_ & H2 & H3 & _); try lra.
  destruct (missing_boundary_condition_raises first_guess 1 0.4 0.3 567 18.09
              156E-6 1E-5 0.086 0.2 2300 1400 9E5 0.02 1E5 22E6)
    as (_ & _ & _ & H4 & H5); try lra.
  repeat split; assumption.
Defined.

(** ** C6: both [q] and [Te] *)

(** C6, as amended. With [q] given and not zero, [Lazarek_Black], [Li_Wu],
    [Sun_Mishima] and [Yun_Heo_Kim] take the heat-flux path: the result is
    that of the same call with [Te] left out, whatever [Te] is. [Thome] does
    so for every given [q], zero included. *)
Theorem heat_flux_takes_precedence (fsolve : solver)
    m x D rhol rhog mul mug kl kg Cpl Cpg Hvap sigma Psat Pc qv (Te : pyopt) :
  (qv <> 0 ->
   Lazarek_Black m D mul kl Hvap (Some qv) Te
   = Lazarek_Black m D mul kl Hvap (Some qv) None /\
   Li_Wu m x D rhol rhog mul kl Hvap sigma (Some qv) Te
   = Li_Wu m x D rhol rhog mul kl Hvap sigma (Some qv) None /\
   Sun_Mishima m D rhol rhog mul kl Hvap sigma (Some qv) Te
   = Sun_Mishima m D rhol rhog mul kl Hvap sigma (Some qv) None /\
   Yun_Heo_Kim m x D rhol mul Hvap sigma (Some qv) Te
   = Yun_Heo_Kim m x D rhol mul Hvap sigma (Some qv) None) /\
  Thome fsolve m x D rhol rhog mul mug kl kg Cpl Cpg Hvap sigma Psat Pc
    (Some qv) Te
  = Thome fsolve m x D rhol rhog mul mug kl kg Cpl Cpg Hvap sigma Psat Pc
      (Some qv) None.
Proof.
  split; [|apply Thome_q_precedence].
  intros Hq. pose proof (truthy_Some qv Hq) as Ht.
  split; [apply Lazarek_Black_truthy; congruence|].
  split; [apply Li_Wu_truthy; congruence|].
  split; [apply Sun_Mishima_truthy; congruence|].
  apply Yun_Heo_Kim_truthy; congruence.
Qed.

Lemma heat_flux_takes_precedence_example :
  Li_Wu 1 0.2 0.3 567 18.09 156E-6 0.086 9E5 0.02 (Some 1E5) (Some 10)
  = Li_Wu 1 0.2 0.3 567 18.09 156E-6 0.086 9E5 0.02 (Some 1E5) None /\
  Thome first_guess 1 0.4 0.3 567 18.09 156E-6 1E-5 0.086 0.2 2300 1400 9E5
    0.02 1E5 22E6 (Some 1E5) (Some 10)
  = Thome first_guess 1 0.4 0.3 567 18.09 156E-6 1E-5 0.086 0.2 2300 1400 9E5
      0.02 1E5 22E6 (Some 1E5) None.
Proof.
  destruct (heat_flux_takes_precedence first_guess 1 0.2 0.3 567 18.09 156E-6
              1E-5 0.086 0.2 2300 1400 9E5 0.02 1E5 22E6 1E5 (Some 10))
    as (H1 & _).
  destruct (heat_flux_takes_precedence first_guess 1 0.4 0.3 567 18.09 156E-6
              1E-5 0.086 0.2 2300 1400 9E5 0.02 1E5 22E6 1E5 (Some 10))
    as (_ & H2).
  destruct H1 as (_ & H1 & _); [lra|].
  split; assumption.
Defined.

(** C6 as stated fails at [q = 0]:
    [Lazarek_Black(m=10, D=0.3, mul=1E-3, kl=0.6, Hvap=2E6, q=0, Te=100)]
    returns the coefficient of the excess-temperature path, while the same
    call with [Te] left out raises. *)
Lemma zero_q_with_Te_takes_Te_path :
  (exists h,
     Lazarek_Black 10 0.3 1E-3 0.6 2E6 (Some 0) (Some 100) = Ok h /\
     Lazarek_Black 10 0.3 1E-3 0.6 2E6 None (Some 100) = Ok h) /\
  Lazarek_Black 10 0.3 1E-3 0.6 2E6 (Some 0) None = Raise missing_q_Te.
Proof.
  split.
  - rewrite (Lazarek_Black_truthy 10 0.3 1E-3 0.6 2E6
               (Some 0) None (Some 100) (Some 100));
      try (rewrite truthy_zero; reflexivity || discriminate); try reflexivity.
    unfold Lazarek_Black. py_eval. eexists; split; reflexivity.
  - apply Lazarek_Black_missing; try lra; auto using truthy_zero, truthy_None.
Qed.

(** ** C7: an optional argument given as zero *)

(** C7, as amended. The truthiness tests read a zero as an argument left out:
    [Lazarek_Black], [Li_Wu], [Sun_Mishima] and [Yun_Heo_Kim] called with
    [q = 0] answer as with [q] left out (with [Te] not zero that is the
    excess-temperature path), and every non-boiling correlation with an
    optional wall viscosity answers for [mu_w = 0] as with [mu_w] left out,
    without the factor [(mu_b/mu_w)**0.14]. [Thome] tests [q is None]
    instead: [q = 0] is a given heat flux, the heat-flux path runs whatever
    [Te] is, and on positive [D], [mul], [mug], [Psat], [Pc] it raises
    [ZeroDivisionError] at [tau = 1./fopt]. *)
Theorem zero_is_read_as_absent (fsolve : solver)
    m x alpha D L rhol rhog mul mug kl kg Cpl Cpg Hvap sigma Psat Pc mu_b
    (Te mu_b' Cpl' kl' L' hl' : pyopt) (water : bool)
    (turbulent : option bool) :
  (Lazarek_Black m D mul kl Hvap (Some 0) Te
   = Lazarek_Black m D mul kl Hvap None Te /\
   Li_Wu m x D rhol rhog mul kl Hvap sigma (Some 0) Te
   = Li_Wu m x D rhol rhog mul kl Hvap sigma None Te /\
   Sun_Mishima m D rhol rhog mul kl Hvap sigma (Some 0) Te
   = Sun_Mishima m D rhol rhog mul kl Hvap sigma None Te /\
   Yun_Heo_Kim m x D rhol mul Hvap sigma (Some 0) Te
   = Yun_Heo_Kim m x D rhol mul Hvap sigma None Te) /\
  (Elamvaluthi_Srinivas m x D rhol rhog Cpl kl mug mu_b (Some 0)
   = Elamvaluthi_Srinivas m x D rhol rhog Cpl kl mug mu_b None /\
   Groothuis_Hendal m x D rhol rhog Cpl kl mug mu_b (Some 0) water
   = Groothuis_Hendal m x D rhol rhog Cpl kl mug mu_b None water /\
   Hughmark m x alpha D L Cpl kl mu_b' (Some 0)
   = Hughmark m x alpha D L Cpl kl mu_b' None /\
   Knott m x D rhol rhog Cpl' kl' mu_b' (Some 0) L' hl'
   = Knott m x D rhol rhog Cpl' kl' mu_b' None L' hl' /\
   Kudirka_Grosh_McFadden m x D rhol rhog Cpl kl mug mu_b (Some 0)
   = Kudirka_Grosh_McFadden m x D rhol rhog Cpl kl mug mu_b None /\
   Ravipudi_Godbold m x D rhol rhog Cpl kl mug mu_b (Some 0)
   = Ravipudi_Godbold m x D rhol rhog Cpl kl mug mu_b None /\
   Aggour m x alpha D rhol Cpl kl mu_b (Some 0) L' turbulent
   = Aggour m x alpha D rhol Cpl kl mu_b None L' turbulent) /\
  (Thome_guard (Some 0) Te = heat_flux /\
   Thome fsolve m x D rhol rhog mul mug kl kg Cpl Cpg Hvap sigma Psat Pc
     (Some 0) Te
   = Thome fsolve m x D rhol rhog mul mug kl kg Cpl Cpg Hvap sigma Psat Pc
       (Some 0) None /\
   (0 < D -> 0 < mul -> 0 < mug -> 0 < Psat -> 0 < Pc ->
    Thome fsolve m x D rhol rhog mul mug kl kg Cpl Cpg Hvap sigma Psat Pc
      (Some 0) Te = Raise ZeroDivisionError)).
Proof.
  split; [|split].
  - split; [apply Lazarek_Black_truthy|];
      [| | |split; [apply Li_Wu_truthy|];
             [| | |split; [apply Sun_Mishima_truthy|apply Yun_Heo_Kim_truthy]]];
      rewrite ?truthy_zero, ?truthy_None; congruence.
  - unfold Elamvaluthi_Srinivas, Groothuis_Hendal, Hughmark, Knott,
      Kudirka_Grosh_McFadden, Ravipudi_Godbold, Aggour,
      conv_internal.laminar_entry_Seider_Tate.
    rewrite truthy_zero, truthy_None, andb_false_r.
    cbv beta iota delta [andb].
    repeat split; reflexivity.
  - split; [apply Thome_guard_q|].
    split; [apply Thome_q_precedence|].
    intros. apply Thome_zero_q; assumption.
Qed.

Lemma zero_is_read_as_absent_example :
  Lazarek_Black 10 0.3 1E-3 0.6 2E6 (Some 0) (Some 100)
  = Lazarek_Black 10 0.3 1E-3 0.6 2E6 None (Some 100) /\
  Elamvaluthi_Srinivas 1 0.9 0.3 1000 2.5 2300 0.6 1E-5 1E-3 (Some 0)
  = Elamvaluthi_Srinivas 1 0.9 0.3 1000 2.5 2300 0.6 1E-5 1E-3 None /\
  Thome first_guess 1 0.4 0.3 567 18.09 156E-6 1E-5 0.086 0.2 2300 1400 9E5
    0.02 1E5 22E6 (Some 0) (Some 10) = Raise ZeroDivisionError.
Proof.
  destruct (zero_is_read_as_absent first_guess 10 0.9 0.9 0.3 4 1000 2.5 1E-3
              1E-5 0.6 0.2 2300 1400 2E6 0.02 1E5 22E6 1E-3
              (Some 100) None None None None None false None)
    as ((H1 & _) & _ & _).
  destruct (zero_is_read_as_absent first_guess 1 0.9 0.9 0.3 4 1000 2.5 1E-3
              1E-5 0.6 0.2 2300 1400 2E6 0.02 1E5 22E6 1E-3
              (Some 100) None None None None None false None)
    as (_ & (H2 & _) & _).
  destruct (zero_is_read_as_absent first_guess 1 0.4 0.9 0.3 4 567 18.09
              156E-6 1E-5 0.086 0.2 2300 1400 9E5 0.02 1E5 22E6 1E-3
              (Some 10) None None None None None false None)
    as (_ & _ & (_ & _ & H3)).
  split; [exact H1|]. split; [exact H2|]. apply H3; lra.
Defined.

(** C7 as stated fails for [Thome]: with [q = 0] and [Te = 10] the guard
    selects the heat-flux path and the call raises [ZeroDivisionError], while
    with [q] left out the guard selects the solve for [q] and, with a root
    finder that answers with its initial estimate, the call returns. *)
Lemma Thome_zero_q_takes_heat_flux_path :
  Thome_guard (Some 0) (Some 10) = heat_flux /\
  Thome_guard None (Some 10) = solve_for_q /\
  Thome first_guess 4E-8 0.4 1E-5 567 18.09 156E-6 1E-5 0.086 0.01 2300 1400
    9E5 0.02 1E5 22E6 (Some 0) (Some 10) = Raise ZeroDivisionError /\
  exists h,
    Thome first_guess 4E-8 0.4 1E-5 567 18.09 156E-6 1E-5 0.086 0.01 2300
      1400 9E5 0.02 1E5 22E6 None (Some 10) = Ok h.
Proof.
  split; [reflexivity|].
  split; [apply Thome_guard_None_Te; lra|].
  split; [apply Thome_zero_q; lra|].
  unfold Thome. rewrite Thome_guard_None_Te by lra.
  unfold first_guess. rewrite bind_ret.
  destruct (Thome_thin_film_returns 1E4) as (f & Hf & _); [lra|].
  rewrite Hf, bind_ret. eexists; reflexivity.
Qed.

(** ** C8: the two branches of [Aggour] *)

(** C8. On positive inputs with [0 < x < 1] and [0 < alpha < 1], [Aggour]
    with [turbulent=None] returns the turbulent formula exactly when
    [Rel > 2000] and the laminar formula when [Rel <= 2000] (so at
    [Rel = 2000]); with [turbulent=True] it returns the turbulent formula and
    with [turbulent=False] the laminar formula, whatever [Rel] is. The
    function jumps across 2000: with [x = alpha = 1/2] and every other input
    1, the value at [Rel = 2000] exceeds by more than 7 the value at every
    [Rel] in (2000, 2001]. *)
Theorem Aggour_branches m x alpha D rhol Cpl kl mu_b L (mu_w L' : pyopt) :
  0 < m -> 0 < x < 1 -> 0 < alpha < 1 -> 0 < D -> 0 < rhol -> 0 < Cpl ->
  0 < kl -> 0 < mu_b -> 0 < L -> supplied_pos mu_w ->
  (Aggour_Rel m x alpha D rhol mu_b > 2000 ->
   Aggour m x alpha D rhol Cpl kl mu_b mu_w L' None
   = Ok (Aggour_turbulent m x alpha D rhol Cpl kl mu_b)) /\
  (Aggour_Rel m x alpha D rhol mu_b <= 2000 ->
   Aggour m x alpha D rhol Cpl kl mu_b mu_w (Some L) None
   = Ok (Aggour_laminar m x alpha D rhol Cpl kl mu_b L mu_w)) /\
  (Aggour_Rel m x alpha D rhol mu_b = 2000 ->
   Aggour m x alpha D rhol Cpl kl mu_b mu_w (Some L) None
   = Ok (Aggour_laminar m x alpha D rhol Cpl kl mu_b L mu_w)) /\
  Aggour m x alpha D rhol Cpl kl mu_b mu_w L' (Some true)
  = Ok (Aggour_turbulent m x alpha D rhol Cpl kl mu_b) /\
  Aggour m x alpha D rhol Cpl kl mu_b mu_w (Some L) (Some false)
  = Ok (Aggour_laminar m x alpha D rhol Cpl kl mu_b L mu_w) /\
  (forall m0 m1,
     Aggour_Rel m0 (1/2) (1/2) 1 1 1 = 2000 ->
     2000 < Aggour_Rel m1 (1/2) (1/2) 1 1 1 <= 2001 ->
     exists h0 h1,
       Aggour m0 (1/2) (1/2) 1 1 1 1 1 None (Some 1) None = Ok h0 /\
       Aggour m1 (1/2) (1/2) 1 1 1 1 1 None (Some 1) None = Ok h1 /\
       h1 + 7 < h0).
Proof.
  intros Hm Hx Halpha HD Hrhol HCpl Hkl Hmu_b HL Hmu_w.
  split; [intros; apply Aggour_turbulent_branch; auto|].
  split; [intros; apply Aggour_laminar_branch; auto|].
  split; [intros E; apply Aggour_laminar_branch; auto; right; split; [auto|lra]|].
  split; [apply Aggour_turbulent_branch; auto|].
  split; [apply Aggour_laminar_branch; auto|].
  exact Aggour_discontinuous_at_2000.
Qed.

(** The documented example [Aggour(m=1, x=.9, D=.3, alpha=.9, rhol=1000,
    Cpl=2300, kl=.6, mu_b=1E-3)] is turbulent, and the example with [m=.1,
    mu_w=1.2E-3, L=4] is laminar. *)
Lemma Aggour_branches_example :
  (Aggour_Rel 1 0.9 0.9 0.3 1000 1E-3 > 2000 /\
   Aggour 1 0.9 0.9 0.3 1000 2300 0.6 1E-3 None None None
   = Ok (Aggour_turbulent 1 0.9 0.9 0.3 1000 2300 0.6 1E-3)) /\
  (Aggour_Rel 0.1 0.9 0.9 0.3 1000 1E-3 <= 2000 /\
   Aggour 0.1 0.9 0.9 0.3 1000 2300 0.6 1E-3 (Some 1.2E-3) (Some 4) None
   = Ok (Aggour_laminar 0.1 0.9 0.9 0.3 1000 2300 0.6 1E-3 4 (Some 1.2E-3))).
Proof.
  pose proof PI_bounds as HPI.
  assert (Hp : 70 <= 1000 * PI / 4 * 0.3 ^ 2 <= 73) by lra.
  destruct (inv_bounds (1000 * PI / 4 * 0.3 ^ 2) 70 73 ltac:(lra) Hp)
    as [Hlo Hhi].
  split.
  - assert (H : Aggour_Rel 1 0.9 0.9 0.3 1000 1E-3 > 2000)
      by (unfold Aggour_Rel; lra).
    split; [exact H|].
    destruct (Aggour_branches 1 0.9 0.9 0.3 1000 2300 0.6 1E-3 4 None None)
      as (Ht & _); try lra; try apply supplied_pos_None.
    exact (Ht H).
  - assert (H : Aggour_Rel 0.1 0.9 0.9 0.3 1000 1E-3 <= 2000)
      by (unfold Aggour_Rel; lra).
    split; [exact H|].
    destruct (Aggour_branches 0.1 0.9 0.9 0.3 1000 2300 0.6 1E-3 4
                (Some 1.2E-3) None)
      as (_ & Hl & _); try lra; try (apply supplied_pos_Some; lra).
    exact (Hl H).
Defined.

(** ** C9: the non-boiling coefficients are positive *)

(** C9. On strictly positive inputs with [0 < x < 1] and [0 < alpha < 1],
    every optional argument left out or strictly positive: [Davis_David],
    [Elamvaluthi_Srinivas], [Groothuis_Hendal], [Hughmark],
    [Kudirka_Grosh_McFadden], [Martin_Sims] and [Ravipudi_Godbold] return a
    strictly positive coefficient; so do [Knott], given [hl] or else [Cpl],
    [kl], [mu_b] and [L], and [Aggour], given [L] or [turbulent=True]; and
    whatever [Knott] and [Aggour] return is strictly positive. *)
Theorem nonboiling_coefficient_positive
    m x alpha D L rhol rhog Cpl kl mug mu_b hl
    (mu_w mu_b' Cpl' kl' L' hl' : pyopt) (water : bool)
    (turbulent : option bool) :
  0 < m -> 0 < x < 1 -> 0 < alpha < 1 -> 0 < D -> 0 < L -> 0 < rhol ->
  0 < rhog -> 0 < Cpl -> 0 < kl -> 0 < mug -> 0 < mu_b -> 0 < hl ->
  supplied_pos mu_w -> supplied_pos mu_b' -> supplied_pos Cpl' ->
  supplied_pos kl' -> supplied_pos L' -> supplied_pos hl' ->
  positive (Davis_David m x D rhol rhog Cpl kl mu_b) /\
  positive (Elamvaluthi_Srinivas m x D rhol rhog Cpl kl mug mu_b mu_w) /\
  positive (Groothuis_Hendal m x D rhol rhog Cpl kl mug mu_b mu_w water) /\
  positive (Hughmark m x alpha D L Cpl kl mu_b' mu_w) /\
  positive (Kudirka_Grosh_McFadden m x D rhol rhog Cpl kl mug mu_b mu_w) /\
  positive (Martin_Sims m x D rhol rhog hl) /\
  positive (Ravipudi_Godbold m x D rhol rhog Cpl kl mug mu_b mu_w) /\
  (hl' <> None \/
   (Cpl' <> None /\ kl' <> None /\ mu_b' <> None /\ L' <> None) ->
   positive (Knott m x D rhol rhog Cpl' kl' mu_b' mu_w L' hl')) /\
  returned_positive (Knott m x D rhol rhog Cpl' kl' mu_b' mu_w L' hl') /\
  (L' <> None \/ turbulent = Some true ->
   positive (Aggour m x alpha D rhol Cpl kl mu_b mu_w L' turbulent)) /\
  returned_positive (Aggour m x alpha D rhol Cpl kl mu_b mu_w L' turbulent).
Proof.
  intros.
  split; [apply Davis_David_positive; assumption|].
  split; [apply Elamvaluthi_Srinivas_positive; assumption|].
  split; [apply Groothuis_Hendal_positive; assumption|].
  split; [apply Hughmark_positive; assumption|].
  split; [apply Kudirka_Grosh_McFadden_positive; assumption|].
  split; [apply Martin_Sims_positive; assumption|].
  split; [apply Ravipudi_Godbold_positive; assumption|].
  split; [apply Knott_positive; assumption|].
  split; [apply Knott_returned_positive; assumption|].
  split; [apply Aggour_positive; assumption|].
  apply Aggour_returned_positive; assumption.
Qed.

(** The documented examples of the nine correlations. *)
Lemma nonboiling_coefficient_positive_example :
  positive (Davis_David 1 0.9 0.3 1000 2.5 2300 0.6 1E-3) /\
  positive (Elamvaluthi_Srinivas 1 0.9 0.3 1000 2.5 2300 0.6 1E-5 1E-3
              (Some 1.2E-3)) /\
  positive (Groothuis_Hendal 1 0.9 0.3 1000 2.5 2300 0.6 1E-5 1E-3
              (Some 1.2E-3) false) /\
  positive (Hughmark 1 0.9 0.9 0.3 0.5 2300 0.6 (Some 1E-3) (Some 1.2E-3)) /\
  positive (Kudirka_Grosh_McFadden 1 0.9 0.3 1000 2.5 2300 0.6 1E-5 1E-3
              (Some 1.2E-3)) /\
  positive (Martin_Sims 1 0.9 0.3 1000 2.5 141.2) /\
  positive (Ravipudi_Godbold 1 0.9 0.3 1000 2.5 2300 0.6 1E-5 1E-3
              (Some 1.2E-3)) /\
  positive (Knott 1 0.9 0.3 1000 2.5 (Some 2300) (Some 0.6) (Some 1E-3)
              (Some 1.2E-3) (Some 4) None) /\
  positive (Aggour 1 0.9 0.9 0.3 1000 2300 0.6 1E-3 (Some 1.2E-3) None
              (Some true)).
Proof.
  destruct (nonboiling_coefficient_positive 1 0.9 0.9 0.3 0.5 1000 2.5 2300
              0.6 1E-5 1E-3 141.2 (Some 1.2E-3) (Some 1E-3) (Some 2300)
              (Some 0.6) (Some 4) None false (Some true))
    as (H1 & H2 & H3 & H4 & H5 & H6 & H7 & H8 & _ & _ & _);
    try lra; try (apply supplied_pos_Some; lra);
    try apply supplied_pos_None.
  destruct (nonboiling_coefficient_positive 1 0.9 0.9 0.3 0.5 1000 2.5 2300
              0.6 1E-5 1E-3 141.2 (Some 1.2E-3) (Some 1E-3) (Some 2300)
              (Some 0.6) None None false (Some true))
    as (_ & _ & _ & _ & _ & _ & _ & _ & _ & H9 & _);
    try lra; try (apply supplied_pos_Some; lra);
    try apply supplied_pos_None.
  repeat split; try assumption.
  - apply H8. right. repeat split; discriminate.
  - apply H9. right. reflexivity.
Defined.

(** ** C10: [Thome] with [q] left out and [Te = 0] *)

(** C10. [Thome] called with [q] left out and [Te = 0] takes the heat-flux
    path: for all inputs it raises an error that is not the designated one
    and returns no coefficient; on positive [D], [mul], [mug], [Psat], [Pc]
    that error is the [TypeError] of the arithmetic on the absent [q]. The
    other four correlations, on positive [D], [mul], [rhol], [sigma], raise
    the designated error on the same call. *)
Theorem Thome_zero_Te_without_q (fsolve : solver)
    m x D rhol rhog mul mug kl kg Cpl Cpg Hvap sigma Psat Pc :
  0 < D -> 0 < mul -> 0 < mug -> 0 < rhol -> 0 < sigma -> 0 < Psat ->
  0 < Pc ->
  Thome_guard None (Some 0) = heat_flux /\
  (forall m' x' D' rhol' rhog' mul' mug' kl' kg' Cpl' Cpg' Hvap' sigma'
          Psat' Pc',
     exists e,
       Thome fsolve m' x' D' rhol' rhog' mul' mug' kl' kg' Cpl' Cpg' Hvap'
         sigma' Psat' Pc' None (Some 0) = Raise e /\
       e <> Exception "Either q or Te is needed for this correlation") /\
  Thome fsolve m x D rhol rhog mul mug kl kg Cpl Cpg Hvap sigma Psat Pc
    None (Some 0) = Raise TypeError /\
  Lazarek_Black m D mul kl Hvap None (Some 0)
  = Raise (Exception "Either q or Te is needed for this correlation") /\
  Li_Wu m x D rhol rhog mul kl Hvap sigma None (Some 0)
  = Raise (Exception "Either q or Te is needed for this correlation") /\
  Sun_Mishima m D rhol rhog mul kl Hvap sigma None (Some 0)
  = Raise (Exception "Either q or Te is needed for this correlation") /\
  Yun_Heo_Kim m x D rhol mul Hvap sigma None (Some 0)
  = Raise (Exception "Either q or Te is needed for this correlation").
Proof.
  intros HD Hmul Hmug Hrhol Hsigma HPsat HPc.
  split; [apply Thome_guard_None_zero|].
  split.
  { intros.
    destruct (Thome_None_zero_arithmetic fsolve m' x' D' rhol' rhog' mul' mug'
                kl' kg' Cpl' Cpg' Hvap' sigma' Psat' Pc') as (e & He & Ha).
    exists e. split; [exact He | apply arithmetic_not_missing, Ha]. }
  split; [apply Thome_None_zero_TypeError; assumption|].
  split; [apply Lazarek_Black_missing; auto using truthy_None, truthy_zero|].
  split; [apply Li_Wu_missing; auto using truthy_None, truthy_zero|].
  split; [apply Sun_Mishima_missing; auto using truthy_None, truthy_zero|].
  apply Yun_Heo_Kim_missing; auto using truthy_None, truthy_zero.
Qed.

Lemma Thome_zero_Te_without_q_example :
  Thome first_guess 1 0.4 0.3 567 18.09 156E-6 1E-5 0.086 0.2 2300 1400 9E5
    0.02 1E5 22E6 None (Some 0) = Raise TypeError /\
  Sun_Mishima 1 0.3 567 18.09 156E-6 0.086 9E5 0.02 None (Some 0)
  = Raise missing_q_Te.
Proof.
  destruct (Thome_zero_Te_without_q first_guess 1 0.4 0.3 567 18.09 156E-6
              1E-5 0.086 0.2 2300 1400 9E5 0.02 1E5 22E6)
    as (_ & _ & H1 & _ & _ & H2 & _); try lra.
  split; assumption.
Defined.

(** * Further properties of the correlations *)

(** ** A zero diameter *)

Lemma truediv_by_zero x y :
  y = 0 -> Py.truediv (Ok x) (Ok y) = Raise ZeroDivisionError.
Proof. intros ->. apply truediv_zero. Qed.

(** The first division of a correlation, at [D = 0]. *)
Ltac zero_diameter :=
  py_eval; rewrite truediv_by_zero by (simpl; ring); py_eval; reflexivity.

(** X1. With [D = 0] the first statement of each boiling correlation,
    [G = m/(pi/4*D**2)], divides by zero: [Lazarek_Black], [Li_Wu],
    [Sun_Mishima] and [Yun_Heo_Kim], whatever [q] and [Te] are, and [Thome]
    with [q] given, raise [ZeroDivisionError] for all other arguments. *)
Theorem boiling_zero_diameter (fsolve : solver)
    m x rhol rhog mul mug kl kg Cpl Cpg Hvap sigma Psat Pc qv
    (q Te : pyopt) :
  Lazarek_Black m 0 mul kl Hvap q Te = Raise ZeroDivisionError /\
  Li_Wu m x 0 rhol rhog mul kl Hvap sigma q Te = Raise ZeroDivisionError /\
  Sun_Mishima m 0 rhol rhog mul kl Hvap sigma q Te
  = Raise ZeroDivisionError /\
  Yun_Heo_Kim m x 0 rhol mul Hvap sigma q Te = Raise ZeroDivisionError /\
  Thome fsolve m x 0 rhol rhog mul mug kl kg Cpl Cpg Hvap sigma Psat Pc
    (Some qv) Te = Raise ZeroDivisionError.
Proof.
  repeat split.
  - unfold Lazarek_Black. zero_diameter.
  - unfold Li_Wu. zero_diameter.
  - unfold Sun_Mishima. zero_diameter.
  - unfold Yun_Heo_Kim. zero_diameter.
  - unfold Thome, Thome_body. rewrite Thome_guard_q. zero_diameter.
Qed.

(** X2. With [D = 0] the first statement of [Davis_David],
    [Elamvaluthi_Srinivas], [Groothuis_Hendal], [Knott],
    [Kudirka_Grosh_McFadden], [Martin_Sims], [Ravipudi_Godbold] and [Aggour]
    divides by [pi/4*D**2]: each raises [ZeroDivisionError] for all other
    arguments, given or left out. *)
Theorem two_phase_zero_diameter
    m x alpha rhol rhog Cpl kl mul mug mu_b hl
    (mu_w Cpl' kl' mu_b' L' hl' : pyopt) (water : bool)
    (turbulent : option bool) :
  Davis_David m x 0 rhol rhog Cpl kl mul = Raise ZeroDivisionError /\
  Elamvaluthi_Srinivas m x 0 rhol rhog Cpl kl mug mu_b mu_w
  = Raise ZeroDivisionError /\
  Groothuis_Hendal m x 0 rhol rhog Cpl kl mug mu_b mu_w water
  = Raise ZeroDivisionError /\
  Knott m x 0 rhol rhog Cpl' kl' mu_b' mu_w L' hl'
  = Raise ZeroDivisionError /\
  Kudirka_Grosh_McFadden m x 0 rhol rhog Cpl kl mug mu_b mu_w
  = Raise ZeroDivisionError /\
  Martin_Sims m x 0 rhol rhog hl = Raise ZeroDivisionError /\
  Ravipudi_Godbold m x 0 rhol rhog Cpl kl mug mu_b mu_w
  = Raise ZeroDivisionError /\
  Aggour m x alpha 0 rhol Cpl kl mu_b mu_w L' turbulent
  = Raise ZeroDivisionError.
Proof.
  repeat split.
  - unfold Davis_David. zero_diameter.
  - unfold Elamvaluthi_Srinivas. zero_diameter.
  - unfold Groothuis_Hendal. zero_diameter.
  - unfold Knott. zero_diameter.
  - unfold Kudirka_Grosh_McFadden. zero_diameter.
  - unfold Martin_Sims. zero_diameter.
  - unfold Ravipudi_Godbold. zero_diameter.
  - unfold Aggour. zero_diameter.
Qed.

(** ** The power laws: the closed form in [Te] and the growth of [h] *)

Lemma solves_heat_flux_law_intro (f : pyopt -> pyopt -> result R) Te h h' :
  f None (Some Te) = Ok h ->
  f (Some (h * Te)) None = Ok h' ->
  0 < h -> 0 < h' -> ln h' = ln h ->
  solves_heat_flux_law f Te.
Proof.
  intros E1 E2 Hh Hh' Hln. exists h. split; [exact E1|]. split; [exact Hh|].
  apply ln_inv in Hln; auto. subst. exact E2.
Qed.

Lemma coefficient_increases_intro (f : R -> result R) a b ha hb :
  f a = Ok ha -> f b = Ok hb -> 0 < ha -> 0 < hb -> ln ha < ln hb ->
  coefficient_increases f a b.
Proof.
  intros E1 E2 Ha Hb Hln. exists ha, hb. repeat split; auto.
  apply ln_lt_inv; assumption.
Qed.

Lemma coefficient_decreases_intro (f : R -> result R) a b ha hb :
  f a = Ok ha -> f b = Ok hb -> 0 < ha -> 0 < hb -> ln hb < ln ha ->
  coefficient_decreases f a b.
Proof.
  intros E1 E2 Ha Hb Hln. exists ha, hb. repeat split; auto.
  apply ln_lt_inv; assumption.
Qed.

Section PowerLaws.

Variables m x D rhol rhog mul kl Hvap sigma : R.
Hypothesis Hm : 0 < m.
Hypothesis Hx : 0 < x < 1.
Hypothesis HD : 0 < D.
Hypothesis Hrhol : 0 < rhol.
Hypothesis Hrhog : 0 < rhog.
Hypothesis Hmul : 0 < mul.
Hypothesis Hkl : 0 < kl.
Hypothesis HHvap : 0 < Hvap.
Hypothesis Hsigma : 0 < sigma.

Ltac run f :=
  unfold f, fluids_core.Boiling, fluids_core.Bond, fluids_core.Weber;
  py_eval; reflexivity.

Lemma Lazarek_Black_solves Te :
  0 < Te -> solves_heat_flux_law (Lazarek_Black m D mul kl Hvap) Te.
Proof.
  intros HTe.
  eapply solves_heat_flux_law_intro;
    [ run Lazarek_Black | run Lazarek_Black | pos | pos | ].
  ln_norm.
  replace 27000 with (30 * (30 * 30)) by lra.
  ln_norm. lra.
Qed.

Lemma Li_Wu_solves Te :
  rhog < rhol -> 0 < Te ->
  solves_heat_flux_law (Li_Wu m x D rhol rhog mul kl Hvap sigma) Te.
Proof.
  intros Hrho HTe. destruct Hx.
  eapply solves_heat_flux_law_intro;
    [ run Li_Wu | run Li_Wu | pos | pos | ].
  ln_norm. lra.
Qed.

Lemma Sun_Mishima_solves Te :
  0 < Te ->
  solves_heat_flux_law (Sun_Mishima m D rhol rhog mul kl Hvap sigma) Te.
Proof.
  intros HTe.
  eapply solves_heat_flux_law_intro;
    [ run Sun_Mishima | run Sun_Mishima | pos | pos | ].
  ln_norm. lra.
Qed.

Lemma Yun_Heo_Kim_solves Te :
  0 < Te ->
  solves_heat_flux_law (Yun_Heo_Kim m x D rhol mul Hvap sigma) Te.
Proof.
  intros HTe. destruct Hx.
  eapply solves_heat_flux_law_intro;
    [ run Yun_Heo_Kim | run Yun_Heo_Kim | pos | pos | ].
  ln_norm. lra.
Qed.

Variables a b : R.
Hypothesis Ha : 0 < a.
Hypothesis Hab : a < b.

Ltac grows f :=
  assert (Hln : ln a < ln b) by (apply ln_increasing; assumption);
  assert (Hb : 0 < b) by lra;
  eapply coefficient_increases_intro; [ run f | run f | pos | pos | ];
  ln_norm; lra.

Lemma Lazarek_Black_increases :
  coefficient_increases
    (fun q => Lazarek_Black m D mul kl Hvap (Some q) None) a b /\
  coefficient_increases
    (fun Te => Lazarek_Black m D mul kl Hvap None (Some Te)) a b.
Proof. split; grows Lazarek_Black. Qed.

Lemma Li_Wu_increases :
  rhog < rhol ->
  coefficient_increases
    (fun q => Li_Wu m x D rhol rhog mul kl Hvap sigma (Some q) None) a b /\
  coefficient_increases
    (fun Te => Li_Wu m x D rhol rhog mul kl Hvap sigma None (Some Te)) a b.
Proof. intros Hrho. destruct Hx. split; grows Li_Wu. Qed.

Lemma Sun_Mishima_increases :
  coefficient_increases
    (fun q => Sun_Mishima m D rhol rhog mul kl Hvap sigma (Some q) None)
    a b /\
  coefficient_increases
    (fun Te => Sun_Mishima m D rhol rhog mul kl Hvap sigma None (Some Te))
    a b.
Proof. split; grows Sun_Mishima. Qed.

Lemma Yun_Heo_Kim_increases :
  coefficient_increases
    (fun q => Yun_Heo_Kim m x D rhol mul Hvap sigma (Some q) None) a b /\
  coefficient_increases
    (fun Te => Yun_Heo_Kim m x D rhol mul Hvap sigma None (Some Te)) a b.
Proof. destruct Hx. split; grows Yun_Heo_Kim. Qed.

End PowerLaws.

(** X3. On positive inputs with [0 < x < 1] and [Te > 0], the closed form of
    the excess-temperature path solves the heat-flux law it was derived
    from: [Lazarek_Black], [Sun_Mishima] and [Yun_Heo_Kim] called with [Te]
    return [h > 0], and the same call with [q = h*Te] and no [Te] returns
    the same [h]. So does [Li_Wu] when the liquid is denser than the gas. *)
Theorem excess_temperature_solves_heat_flux_law
    m x D rhol rhog mul kl Hvap sigma Te :
  0 < m -> 0 < x < 1 -> 0 < D -> 0 < rhol -> 0 < rhog -> 0 < mul ->
  0 < kl -> 0 < Hvap -> 0 < sigma -> 0 < Te ->
  solves_heat_flux_law (Lazarek_Black m D mul kl Hvap) Te /\
  solves_heat_flux_law (Sun_Mishima m D rhol rhog mul kl Hvap sigma) Te /\
  solves_heat_flux_law (Yun_Heo_Kim m x D rhol mul Hvap sigma) Te /\
  (rhog < rhol ->
   solves_heat_flux_law (Li_Wu m x D rhol rhog mul kl Hvap sigma) Te).
Proof.
  intros Hm Hx HD Hrhol Hrhog Hmul Hkl HHvap Hsigma HTe.
  split; [apply Lazarek_Black_solves; assumption|].
  split; [apply Sun_Mishima_solves; assumption|].
  split; [apply Yun_Heo_Kim_solves; assumption|].
  intros; apply Li_Wu_solves; assumption.
Qed.

(** The inputs of the documented example of [Sun_Mishima], with [Te = 10]. *)
Lemma excess_temperature_solves_heat_flux_law_example :
  solves_heat_flux_law (Lazarek_Black 1 0.3 156E-6 0.086 9E5) 10 /\
  solves_heat_flux_law (Sun_Mishima 1 0.3 567 18.09 156E-6 0.086 9E5 0.02)
    10 /\
  solves_heat_flux_law (Yun_Heo_Kim 1 0.4 0.3 567 156E-6 9E5 0.02) 10 /\
  solves_heat_flux_law (Li_Wu 1 0.4 0.3 567 18.09 156E-6 0.086 9E5 0.02) 10.
Proof.
  destruct (excess_temperature_solves_heat_flux_law 1 0.4 0.3 567 18.09
              156E-6 0.086 9E5 0.02 10) as (H1 & H2 & H3 & H4); try lra.
  repeat split; try assumption. apply H4; lra.
Defined.

(** X4. On positive inputs with [0 < x < 1], the coefficient of
    [Lazarek_Black], [Sun_Mishima] and [Yun_Heo_Kim] grows strictly with the
    heat flux on the heat-flux path and with the excess temperature on the
    excess-temperature path: for [0 < a < b] both calls return, and the one
    at [b] returns the larger coefficient. So does that of [Li_Wu] when the
    liquid is denser than the gas. *)
Theorem power_law_coefficient_increases m x D rhol rhog mul kl Hvap sigma
    a b :
  0 < m -> 0 < x < 1 -> 0 < D -> 0 < rhol -> 0 < rhog -> 0 < mul ->
  0 < kl -> 0 < Hvap -> 0 < sigma -> 0 < a -> a < b ->
  (coefficient_increases
     (fun q => Lazarek_Black m D mul kl Hvap (Some q) None) a b /\
   coefficient_increases
     (fun Te => Lazarek_Black m D mul kl Hvap None (Some Te)) a b) /\
  (coefficient_increases
     (fun q => Sun_Mishima m D rhol rhog mul kl Hvap sigma (Some q) None)
     a b /\
   coefficient_increases
     (fun Te => Sun_Mishima m D rhol rhog mul kl Hvap sigma None (Some Te))
     a b) /\
  (coefficient_increases
     (fun q => Yun_Heo_Kim m x D rhol mul Hvap sigma (Some q) None) a b /\
   coefficient_increases
     (fun Te => Yun_Heo_Kim m x D rhol mul Hvap sigma None (Some Te)) a b) /\
  (rhog < rhol ->
   coefficient_increases
     (fun q => Li_Wu m x D rhol rhog mul kl Hvap sigma (Some q) None) a b /\
   coefficient_increases
     (fun Te => Li_Wu m x D rhol rhog mul kl Hvap sigma None (Some Te))
     a b).
Proof.
  intros Hm Hx HD Hrhol Hrhog Hmul Hkl HHvap Hsigma Ha Hab.
  split; [apply Lazarek_Black_increases; assumption|].
  split; [apply Sun_Mishima_increases; assumption|].
  split; [apply Yun_Heo_Kim_increases; assumption|].
  intros; apply Li_Wu_increases; assumption.
Qed.

(** The inputs of the documented example of [Sun_Mishima], from [1E4] to
    [1E5] in heat flux and in excess temperature. *)
Lemma power_law_coefficient_increases_example :
  coefficient_increases
    (fun q => Sun_Mishima 1 0.3 567 18.09 156E-6 0.086 9E5 0.02 (Some q)
                None) 1E4 1E5 /\
  coefficient_increases
    (fun Te => Sun_Mishima 1 0.3 567 18.09 156E-6 0.086 9E5 0.02 None
                 (Some Te)) 1E4 1E5.
Proof.
  destruct (power_law_coefficient_increases 1 0.4 0.3 567 18.09 156E-6 0.086
              9E5 0.02 1E4 1E5) as (_ & H & _); try lra.
  exact H.
Defined.

(** ** The designated error is raised only for a missing boundary condition *)

Lemma bind_arith (c : result R) (k : R -> result R) :
  raises_arithmetic c -> (forall v, raises_arithmetic (k v)) ->
  raises_arithmetic (bind c k).
Proof. intros Hc Hk. destruct c as [v|e]; simpl; auto. Qed.

Lemma log10_arith a : raises_arithmetic a -> raises_arithmetic (Py.log10 a).
Proof.
  intros Ha. unfold Py.log10. apply bind_arith; [assumption|].
  intros v e. unfold Py.log10_float. destruct (Rlt_dec 0 v); [discriminate|].
  intros H; injection H as <-. right; right; reflexivity.
Qed.

(** The statements of a correlation, one after the other. *)
Ltac arith_stmts :=
  repeat first
    [ apply add_arith | apply sub_arith | apply mul_arith
    | apply truediv_arith | apply pow_arith | apply log10_arith
    | apply ret_arith | apply num_arith
    | apply bind_arith; [|intros ?] ].

Section Designated.

Variables m x D rhol rhog mul kl Hvap sigma : R.
Variables q Te : pyopt.
Hypothesis Hgiven : truthy q = true \/ truthy Te = true.

Ltac given f :=
  unfold f, fluids_core.Boiling, fluids_core.Bond, fluids_core.Weber, Py.pos;
  arith_stmts;
  destruct (truthy q) eqn:Eq;
  [ arith_stmts
  | destruct Hgiven as [H|H]; [congruence|]; rewrite H; arith_stmts ].

Lemma Lazarek_Black_given :
  raises_arithmetic (Lazarek_Black m D mul kl Hvap q Te).
Proof. given Lazarek_Black. Qed.

Lemma Li_Wu_given :
  raises_arithmetic (Li_Wu m x D rhol rhog mul kl Hvap sigma q Te).
Proof. given Li_Wu. Qed.

Lemma Sun_Mishima_given :
  raises_arithmetic (Sun_Mishima m D rhol rhog mul kl Hvap sigma q Te).
Proof. given Sun_Mishima. Qed.

Lemma Yun_Heo_Kim_given :
  raises_arithmetic (Yun_Heo_Kim m x D rhol mul Hvap sigma q Te).
Proof. given Yun_Heo_Kim. Qed.

End Designated.

(** A call that raises the designated error was given neither [q] nor
    [Te]. *)
Lemma designated_means_missing (r : result R) (q Te : pyopt) :
  (truthy q = true \/ truthy Te = true -> raises_arithmetic r) ->
  r = Raise missing_q_Te -> truthy q = false /\ truthy Te = false.
Proof.
  intros Hr E.
  destruct (truthy q) eqn:Eq; [|destruct (truthy Te) eqn:ETe];
    try (split; reflexivity);
    exfalso; apply (arithmetic_not_missing missing_q_Te);
    try reflexivity; apply Hr; auto.
Qed.

(** The body of [Thome] raises arithmetic errors only. *)
Lemma Thome_body_arithmetic m x D rhol rhog mul mug kl kg Cpl Cpg Hvap sigma
    Psat Pc (q : pyopt) e :
  Thome_body m x D rhol rhog mul mug kl kg Cpl Cpg Hvap sigma Psat Pc q
  = Raise e -> arithmetic e.
Proof.
  revert e.
  unfold Thome_body, Thome_vapor_Nu, Thome_vapor_Nu_else,
    fluids_core.nu_mu_converter, fluids_core.Prandtl,
    conv_internal.turbulent_Gnielinski, Py.pos.
  repeat
    lazymatch goal with
    | |- forall e, Ok _ = Raise e -> _ => intros ? ?; discriminate
    | |- forall e, bind (Ok _) _ = Raise e -> _ =>
        rewrite bind_ret; cbv beta iota
    | |- forall e, bind (if ?b then _ else _) _ = Raise e -> _ =>
        destruct b
    | |- forall e, bind (bind ?c _) _ = Raise e -> _ =>
        let v := fresh "v" in
        let e := fresh "e" in
        let E := fresh "E" in
        destruct c as [v|e] eqn:E;
        [ rewrite bind_ret; cbv beta
        | intros ? H; rewrite !bind_Raise in H; injection H as <-;
          revert E; generalize e;
          change (raises_arithmetic c); arith_stmts ]
    | |- forall e, bind ?c _ = Raise e -> _ =>
        let v := fresh "v" in
        let e := fresh "e" in
        let E := fresh "E" in
        destruct c as [v|e] eqn:E;
        [ rewrite bind_ret; cbv beta
        | intros ? H; rewrite bind_Raise in H; injection H as <-;
          revert E; generalize e;
          change (raises_arithmetic c); arith_stmts ]
    end.
Qed.

(** X5. The error 'Either q or Te is needed for this correlation' is raised
    only for a missing boundary condition: when [Lazarek_Black], [Li_Wu],
    [Sun_Mishima] or [Yun_Heo_Kim] raises it, [q] is left out or zero and
    [Te] is left out or zero, for all other arguments. [Thome] with [q]
    given never raises it. *)
Theorem designated_error_only_when_missing (fsolve : solver)
    m x D rhol rhog mul mug kl kg Cpl Cpg Hvap sigma Psat Pc qv
    (q Te : pyopt) :
  (Lazarek_Black m D mul kl Hvap q Te
   = Raise (Exception "Either q or Te is needed for this correlation") ->
   truthy q = false /\ truthy Te = false) /\
  (Li_Wu m x D rhol rhog mul kl Hvap sigma q Te
   = Raise (Exception "Either q or Te is needed for this correlation") ->
   truthy q = false /\ truthy Te = false) /\
  (Sun_Mishima m D rhol rhog mul kl Hvap sigma q Te
   = Raise (Exception "Either q or Te is needed for this correlation") ->
   truthy q = false /\ truthy Te = false) /\
  (Yun_Heo_Kim m x D rhol mul Hvap sigma q Te
   = Raise (Exception "Either q or Te is needed for this correlation") ->
   truthy q = false /\ truthy Te = false) /\
  Thome fsolve m x D rhol rhog mul mug kl kg Cpl Cpg Hvap sigma Psat Pc
    (Some qv) Te
  <> Raise (Exception "Either q or Te is needed for this correlation").
Proof.
  split; [apply designated_means_missing, Lazarek_Black_given|].
  split; [apply designated_means_missing, Li_Wu_given|].
  split; [apply designated_means_missing, Sun_Mishima_given|].
  split; [apply designated_means_missing, Yun_Heo_Kim_given|].
  unfold Thome. rewrite Thome_guard_q.
  destruct (Thome_body m x D rhol rhog mul mug kl kg Cpl Cpg Hvap sigma Psat
              Pc (Some qv)) as [f|e] eqn:E.
  - rewrite bind_ret. discriminate.
  - rewrite bind_Raise. intros H. injection H as ->.
    apply Thome_body_arithmetic in E.
    exact (arithmetic_not_missing _ E eq_refl).
Qed.

(** The designated error of [Lazarek_Black] at [q = 0] with [Te] left out. *)
Lemma designated_error_only_when_missing_example :
  truthy (Some 0) = false /\ truthy None = false.
Proof.
  destruct (designated_error_only_when_missing first_guess 10 0 0.3 0 0 1E-3
              0 0.6 0 0 0 2E6 0 0 0 0 (Some 0) None) as (H & _).
  apply H.
  apply (Lazarek_Black_missing 10 0.3 1E-3 0.6 2E6); try lra;
    [apply truthy_zero | apply truthy_None].
Defined.

(** ** [Thome]: saturated liquid and saturated vapor *)

Section Saturated.

Variable fsolve : solver.
Variables m D rhol rhog mul mug kl kg Cpl Cpg Hvap sigma Psat Pc qv : R.
Variable Te : pyopt.
Hypothesis Hm : 0 < m.
Hypothesis HD : 0 < D.
Hypothesis Hrhol : 0 < rhol.
Hypothesis Hrhog : 0 < rhog.
Hypothesis Hmul : 0 < mul.
Hypothesis Hmug : 0 < mug.
Hypothesis Hsigma : 0 < sigma.
Hypothesis HPsat : 0 < Psat.
Hypothesis HPc : 0 < Pc.
Hypothesis Hq : 0 < qv.

(** All liquid: [tv] divides by [x]. *)
Lemma Thome_all_liquid :
  Thome fsolve m 0 D rhol rhog mul mug kl kg Cpl Cpg Hvap sigma Psat Pc
    (Some qv) Te = Raise ZeroDivisionError.
Proof.
  unfold Thome. rewrite Thome_guard_q.
  unfold Thome_body, fluids_core.nu_mu_converter.
  do 6 step. step.
  assert (Hvp : 0 < vp0).
  { rewrite Evp0. replace (0 / rhog) with 0 by (unfold Rdiv; ring).
    rewrite Rplus_0_l. pos. }
  do 3 step.
  replace (0 / (1 - 0)) with 0 by (unfold Rdiv; ring).
  rewrite Rmult_0_r, Rplus_0_r.
  step.
  py_expr. rewrite (truediv_by_zero (1 - 0) 0) by reflexivity.
  py_eval. reflexivity.
Qed.

(** All vapor: [tl] divides by [1 - x]. *)
Lemma Thome_all_vapor :
  Thome fsolve m 1 D rhol rhog mul mug kl kg Cpl Cpg Hvap sigma Psat Pc
    (Some qv) Te = Raise ZeroDivisionError.
Proof.
  unfold Thome. rewrite Thome_guard_q.
  unfold Thome_body, fluids_core.nu_mu_converter.
  do 6 step. step.
  assert (Hvp : 0 < vp0).
  { rewrite Evp0. replace ((1 - 1) / rhol) with 0 by (unfold Rdiv; ring).
    rewrite Rplus_0_r. pos. }
  do 3 step.
  py_expr. rewrite (truediv_by_zero 1 (1 - 1)) by ring.
  py_eval. reflexivity.
Qed.

End Saturated.

(** X6. [Thome] with a heat flux has no value at the ends of the quality
    range: on positive [m], [D], [rhol], [rhog], [mul], [mug], [sigma],
    [Psat], [Pc] and [q], the call with [x = 0] raises [ZeroDivisionError]
    at [tv = tau/(1 + rhog/rhol*((1.-x)/x))] and the call with [x = 1] at
    [tl = tau/(1 + rhol/rhog*(x/(1.-x)))]; and whenever a call returns,
    [x] is neither 0 nor 1. *)
Theorem Thome_saturated_quality (fsolve : solver)
    m D rhol rhog mul mug kl kg Cpl Cpg Hvap sigma Psat Pc qv (Te : pyopt) :
  0 < m -> 0 < D -> 0 < rhol -> 0 < rhog -> 0 < mul -> 0 < mug ->
  0 < sigma -> 0 < Psat -> 0 < Pc -> 0 < qv ->
  Thome fsolve m 0 D rhol rhog mul mug kl kg Cpl Cpg Hvap sigma Psat Pc
    (Some qv) Te = Raise ZeroDivisionError /\
  Thome fsolve m 1 D rhol rhog mul mug kl kg Cpl Cpg Hvap sigma Psat Pc
    (Some qv) Te = Raise ZeroDivisionError /\
  (forall x h,
     Thome fsolve m x D rhol rhog mul mug kl kg Cpl Cpg Hvap sigma Psat Pc
       (Some qv) Te = Ok h ->
     x <> 0 /\ x <> 1).
Proof.
  intros Hm HD Hrl Hrg Hml Hmg Hs HPs HPc Hq.
  split; [apply Thome_all_liquid; assumption|].
  split; [apply Thome_all_vapor; assumption|].
  intros x h. unfold Thome. rewrite Thome_guard_q. intros H.
  apply bind_Ok in H as (f & Hf & _).
  apply Thome_body_returned in Hf.
  pose proof (ret_x _ _ _ _ _ _ _ _ _ Hf).
  pose proof (ret_1x _ _ _ _ _ _ _ _ _ Hf).
  split; [assumption | lra].
Qed.

(** The inputs of the documented example, at [x = 0] and at [x = 1]. *)
Lemma Thome_saturated_quality_example :
  Thome first_guess 1 0 0.3 567 18.09 156E-6 1E-5 0.086 0.2 2300 1400 9E5
    0.02 1E5 22E6 (Some 1E5) None = Raise ZeroDivisionError /\
  Thome first_guess 1 1 0.3 567 18.09 156E-6 1E-5 0.086 0.2 2300 1400 9E5
    0.02 1E5 22E6 (Some 1E5) None = Raise ZeroDivisionError.
Proof.
  destruct (Thome_saturated_quality first_guess 1 0.3 567 18.09 156E-6 1E-5
              0.086 0.2 2300 1400 9E5 0.02 1E5 22E6 1E5 None)
    as (H0 & H1 & _); try lra.
  split; assumption.
Defined.

(** ** [Thome]: the sign of the coefficient *)

(** A statement that may raise: the run goes on with its value. *)
Tactic Notation "value_of" ident(x) :=
  lazymatch goal with
  | |- bind ?c _ = Ok _ -> _ =>
      let E := fresh "E" x in
      destruct c as [x|?] eqn:E;
      [ rewrite bind_ret; cbv beta iota
      | rewrite bind_Raise; discriminate ]
  end.

(** The liquid-slug coefficient: its laminar Nusselt number is positive. *)
Lemma Thome_h_Zl_pos m x D rhol rhog mul mug kl kg Cpl Cpg Hvap sigma Psat Pc
    q f :
  0 < m -> 0 < x < 1 -> 0 < D -> 0 < rhol -> 0 < rhog -> 0 < mul ->
  0 < mug -> 0 < kl -> 0 < Cpl -> 0 < sigma -> 0 < Psat -> 0 < Pc -> 0 < q ->
  Thome_body m x D rhol rhog mul mug kl kg Cpl Cpg Hvap sigma Psat Pc
    (Some q) = Ok f ->
  0 < h_Zl f.
Proof.
  intros Hm [Hx0 Hx1] HD Hrl Hrg Hml Hmg Hkl HCl Hs HPs HPc Hq.
  unfold Thome_body, fluids_core.nu_mu_converter, fluids_core.Prandtl.
  do 12 step.
  value_of tdf. value_of branch. destruct branch as [[tf de] td].
  step.
  value_of Ld. value_of Pg. step.
  value_of f_g. value_of f_l.
  step.
  value_of Nu_t. value_of vapor. destruct vapor as [Nu_lg Nu_tg].
  value_of hg.
  py_expr.
  assert (Hsum : 0 < Rpower Nu_lam_Zl0 4 + powerRZ Nu_t 4).
  { apply Rplus_lt_le_0_compat; [pos | apply powerRZ_4_nonneg]. }
  rewrite (pow_ret _ 0.25 Hsum). step.
  value_of hf. value_of hh.
  intros E. injection E as <-. cbn. assumption.
Qed.

Lemma pow_float_4_nonneg v a : Py.pow_float v 4 = Ok a -> 0 <= a.
Proof.
  rewrite (pow_float_int v 4) by (right; lia).
  intros E. injection E as <-. apply powerRZ_4_nonneg.
Qed.

Lemma pow_float_nonneg s y c :
  0 <= s -> 0 < y -> Py.pow_float s y = Ok c -> 0 <= c.
Proof.
  intros [Hs|<-] Hy.
  - rewrite pow_float_pos by assumption. intros E; injection E as <-.
    left. unfold Rpower. apply exp_pos.
  - rewrite pow_float_zero by assumption. intros E; injection E as <-. lra.
Qed.

Section ReturnedSigns.

Variables x D rhol rhog kl kg Hvap qv : R.
Variable f : Thome_frame.
Hypothesis Hret : Thome_returned x D rhol rhog kl kg Hvap qv f.
Hypothesis HD : 0 < D.
Hypothesis Hkl : 0 < kl.
Hypothesis Hkg : 0 <= kg.

Lemma Thome_h_Zg_nonneg : 0 <= h_Zg f.
Proof.
  destruct (ret_h_Zg _ _ _ _ _ _ _ _ _ Hret)
    as (a & b & c & Ea & Eb & Ec & ->).
  apply pow_float_4_nonneg in Ea. apply pow_float_4_nonneg in Eb.
  apply pow_float_nonneg in Ec; [|lra|lra].
  apply Rmult_le_pos; [|assumption].
  unfold Rdiv. apply Rmult_le_pos; [assumption|].
  left. apply Rinv_0_lt_compat. assumption.
Qed.

Lemma Thome_h_film_pos : C_delta0 f <= delta0 f -> 0 < h_film f.
Proof.
  intros Hd.
  rewrite (ret_h_film _ _ _ _ _ _ _ _ _ Hret).
  pose proof (ret_C_delta0 _ _ _ _ _ _ _ _ _ Hret) as HC.
  apply Rdiv_lt_0_compat; lra.
Qed.

End ReturnedSigns.

Lemma Thome_h_pos m x D rhol rhog mul mug kl kg Cpl Cpg Hvap sigma Psat Pc
    q f :
  0 < m -> 0 < x < 1 -> 0 < D -> 0 < rhol -> 0 < rhog -> 0 < mul ->
  0 < mug -> 0 < kl -> 0 <= kg -> 0 < Cpl -> 0 < Hvap -> 0 < sigma ->
  0 < Psat -> 0 < Pc -> 0 < q ->
  Thome_body m x D rhol rhog mul mug kl kg Cpl Cpg Hvap sigma Psat Pc
    (Some q) = Ok f ->
  0.3e-6 <= delta0 f ->
  0 < h f.
Proof.
  intros Hm Hx HD Hrl Hrg Hml Hmg Hkl Hkg HCl HH Hs HPs HPc Hq Hf Hd.
  pose proof (Thome_h_Zl_pos _ _ _ _ _ _ _ _ _ _ _ _ _ _ _ _ _
                Hm Hx HD Hrl Hrg Hml Hmg Hkl HCl Hs HPs HPc Hq Hf) as Hl.
  apply Thome_body_returned in Hf.
  pose proof (ret_C_delta0 _ _ _ _ _ _ _ _ _ Hf) as HC.
  rewrite <- HC in Hd.
  pose proof (Thome_h_Zg_nonneg _ _ _ _ _ _ _ _ _ Hf HD Hkg) as Hg.
  pose proof (Thome_h_film_pos _ _ _ _ _ _ _ _ _ Hf Hkl Hd) as Hfm.
  destruct (Thome_weights_nonneg _ _ _ _ _ _ _ _ _ Hf Hx Hrl Hrg HH Hq Hd)
    as (Hwl & Hwf & Hwd).
  rewrite (ret_h _ _ _ _ _ _ _ _ _ Hf).
  assert (0 < tl f / tau f * h_Zl f) by (apply Rmult_lt_0_compat; assumption).
  assert (0 <= t_film f / tau f * h_film f) by (apply Rmult_le_pos; lra).
  assert (0 <= t_dry f / tau f * h_Zg f) by (apply Rmult_le_pos; lra).
  lra.
Qed.

(** In the documented example the film is thicker than the minimum. *)
Lemma Thome_documented_film f :
  Thome_body 1 0.4 0.3 567 18.09 156E-6 1E-5 0.086 0.2 2300 1400 9E5 0.02
    1E5 22E6 (Some 1E5) = Ok f ->
  t_dry_film f > tv f ->
  0.3e-6 <= delta0 f.
Proof.
  intros Hf Hs.
  pose proof (Thome_body_returned _ _ _ _ _ _ _ _ _ _ _ _ _ _ _ _ _ Hf)
    as Hret.
  destruct (Thome_t_dry_film_sign _ _ _ _ _ _ _ _ _ Hret) as [_ Hneg];
    try lra.
  destruct (Thome_tl_tv_pos _ _ _ _ _ _ _ _ _ Hret) as [_ Htv]; try lra.
  rewrite <- (ret_C_delta0 _ _ _ _ _ _ _ _ _ Hret).
  destruct (Rle_lt_dec (C_delta0 f) (delta0 f)) as [Hle|Hlt]; [exact Hle|].
  specialize (Hneg Hlt). lra.
Qed.

(** X7. On positive inputs with [0 < x < 1], every returning heat-flux call
    of [Thome] has a positive liquid-slug coefficient [h_Zl] and a
    non-negative vapor coefficient [h_Zg]; when the initial film thickness
    is at least the minimum film thickness [0.3E-6], the film coefficient
    and the returned coefficient are positive. *)
Theorem Thome_coefficient_positive
    m x D rhol rhog mul mug kl kg Cpl Cpg Hvap sigma Psat Pc q f :
  0 < m -> 0 < x < 1 -> 0 < D -> 0 < rhol -> 0 < rhog -> 0 < mul ->
  0 < mug -> 0 < kl -> 0 < kg -> 0 < Cpl -> 0 < Cpg -> 0 < Hvap ->
  0 < sigma -> 0 < Psat -> 0 < Pc -> 0 < q ->
  Thome_body m x D rhol rhog mul mug kl kg Cpl Cpg Hvap sigma Psat Pc
    (Some q) = Ok f ->
  0 < h_Zl f /\ 0 <= h_Zg f /\
  (0.3e-6 <= delta0 f -> 0 < h_film f /\ 0 < h f).
Proof.
  intros Hm Hx HD Hrl Hrg Hml Hmg Hkl Hkg HCl HCg HH Hs HPs HPc Hq Hf.
  split; [exact (Thome_h_Zl_pos _ _ _ _ _ _ _ _ _ _ _ _ _ _ _ _ _ Hm Hx HD
                   Hrl Hrg Hml Hmg Hkl HCl Hs HPs HPc Hq Hf)|].
  pose proof (Thome_body_returned _ _ _ _ _ _ _ _ _ _ _ _ _ _ _ _ _ Hf)
    as Hret.
  split; [apply (Thome_h_Zg_nonneg _ _ _ _ _ _ _ _ _ Hret); lra|].
  intros Hd. split.
  - apply (Thome_h_film_pos _ _ _ _ _ _ _ _ _ Hret Hkl).
    rewrite (ret_C_delta0 _ _ _ _ _ _ _ _ _ Hret). exact Hd.
  - apply (Thome_h_pos m x D rhol rhog mul mug kl kg Cpl Cpg Hvap sigma Psat
             Pc q f); try assumption. lra.
Qed.

(** The documented example returns a positive coefficient. *)
Lemma Thome_coefficient_positive_example :
  exists f,
    Thome_body 1 0.4 0.3 567 18.09 156E-6 1E-5 0.086 0.2 2300 1400 9E5 0.02
      1E5 22E6 (Some 1E5) = Ok f /\
    0 < h_Zl f /\ 0 < h_film f /\ 0 < h f.
Proof.
  destruct Thome_documented_returns as (f & Hf & Hs).
  exists f. split; [exact Hf|].
  destruct (Thome_coefficient_positive 1 0.4 0.3 567 18.09 156E-6 1E-5 0.086
              0.2 2300 1400 9E5 0.02 1E5 22E6 1E5 f
              ltac:(lra) ltac:(lra) ltac:(lra) ltac:(lra) ltac:(lra)
              ltac:(lra) ltac:(lra) ltac:(lra) ltac:(lra) ltac:(lra)
              ltac:(lra) ltac:(lra) ltac:(lra) ltac:(lra) ltac:(lra)
              ltac:(lra) Hf) as (Hl & _ & Hd).
  destruct (Hd (Thome_documented_film f Hf Hs)) as [Hfm Hh].
  repeat split; assumption.
Defined.

(** ** [Thome]: inputs on which the heat-flux path returns *)

(** The two Reynolds numbers in terms of the inputs. *)
Lemma Thome_Reynolds m x D rhol rhog mul mug Hvap sigma Psat Pc q f :
  0 < D -> 0 < mul -> 0 < mug ->
  Thome_formulas m x D rhol rhog mul mug Hvap sigma Psat Pc q f ->
  Rel f = 4*m*(1-x)/(Py.pi*D*mul) /\ Reg f = 4*m*x/(Py.pi*D*mug).
Proof.
  intros HD Hml Hmg Hfrm.
  rewrite (frm_Rel _ _ _ _ _ _ _ _ _ _ _ _ _ Hfrm),
    (frm_Reg _ _ _ _ _ _ _ _ _ _ _ _ _ Hfrm),
    (frm_G _ _ _ _ _ _ _ _ _ _ _ _ _ Hfrm), (Rpower_sqr D HD).
  assert (PI <> 0) by (apply Rgt_not_eq, PI_RGT_0).
  unfold Py.pi. split; field; repeat split; lra.
Qed.

Lemma le_div c n d : 0 < d -> c * d <= n -> c <= n / d.
Proof.
  intros Hd H. apply Rmult_le_reg_r with d; [assumption|].
  unfold Rdiv. rewrite Rmult_assoc, Rinv_l by lra. lra.
Qed.

(** X8. [Thome] with a heat flux raises nothing and returns a coefficient on
    positive inputs with [0 < x < 1], both Prandtl numbers at least 1
    ([kl <= Cpl*mul], [kg <= Cpg*mug]) and both Reynolds numbers
    [4*m*(1-x)/(pi*D*mul)] and [4*m*x/(pi*D*mug)] at least 10: no division
    by zero, no logarithm or fractional power of a non-positive number. *)
Theorem Thome_heat_flux_returns (fsolve : solver)
    m x D rhol rhog mul mug kl kg Cpl Cpg Hvap sigma Psat Pc q (Te : pyopt) :
  0 < m -> 0 < x < 1 -> 0 < D -> 0 < rhol -> 0 < rhog -> 0 < mul ->
  0 < mug -> 0 < kl -> 0 < kg -> 0 < Cpl -> 0 < Cpg -> 0 < Hvap ->
  0 < sigma -> 0 < Psat -> 0 < Pc -> 0 < q ->
  kl <= Cpl*mul -> kg <= Cpg*mug ->
  10 <= 4*m*(1-x)/(Py.pi*D*mul) -> 10 <= 4*m*x/(Py.pi*D*mug) ->
  exists h,
    Thome fsolve m x D rhol rhog mul mug kl kg Cpl Cpg Hvap sigma Psat Pc
      (Some q) Te = Ok h.
Proof.
  intros Hm Hx HD Hrl Hrg Hml Hmg Hkl Hkg HCl HCg HH Hs HPs HPc Hq HPl HPg
    HRl HRg.
  destruct (Thome_body_returns m x D rhol rhog mul mug kl kg Cpl Cpg Hvap
              sigma Psat Pc q) as (f & Hf & _); try assumption.
  - intros f Hfrm.
    destruct (Thome_Reynolds _ _ _ _ _ _ _ _ _ _ _ _ _ HD Hml Hmg Hfrm)
      as [-> ->].
    repeat split; [right; assumption | right; assumption | left; assumption].
  - exists (h f). unfold Thome. rewrite Thome_guard_q, Hf. reflexivity.
Qed.

(** The documented example with [kg = 0.01], so that the vapor Prandtl
    number is 1.4. *)
Lemma Thome_heat_flux_returns_example :
  exists h,
    Thome first_guess 1 0.4 0.3 567 18.09 156E-6 1E-5 0.086 0.01 2300 1400
      9E5 0.02 1E5 22E6 (Some 1E5) None = Ok h.
Proof.
  pose proof PI_bounds as [HPlo HPhi].
  apply (Thome_heat_flux_returns first_guess 1 0.4 0.3 567 18.09 156E-6 1E-5
           0.086 0.01 2300 1400 9E5 0.02 1E5 22E6 1E5 None); try lra.
  - apply le_div; unfold Py.pi; nra.
  - apply le_div; unfold Py.pi; nra.
Defined.

(** ** [Thome]: the excess-temperature path *)





(** ** [Martin_Sims] and [Knott]: the enhancement of a liquid coefficient *)

(** The ratio of the superficial velocities: mass flow and diameter
    cancel. *)
Lemma superficial_velocity_ratio m x D rhol rhog :
  0 < m -> 0 < x < 1 -> 0 < D -> 0 < rhol -> 0 < rhog ->
  m*x/(rhog*Py.pi/4*Rpower D 2) / (m*(1-x)/(rhol*Py.pi/4*Rpower D 2))
  = x*rhol/((1-x)*rhog).
Proof.
  intros Hm [Hx0 Hx1] HD Hrl Hrg.
  assert (Rpower D 2 <> 0) by (apply Rgt_not_eq; pos).
  assert (Py.pi <> 0) by (apply Rgt_not_eq; pos).
  field. repeat split; lra.
Qed.

(** X10. On positive inputs with [0 < x < 1], [Martin_Sims] returns
    [hl*(1 + 0.64*(x*rhol/((1-x)*rhog))**0.5)] and [Knott] with [hl] given
    returns [hl*(1 + x*rhol/((1-x)*rhog))**(1/3)]: the mass flow [m] and the
    diameter [D] cancel in [Vgs/Vls], so the result does not depend on
    them, and it is strictly larger than the liquid coefficient [hl]. *)
Theorem enhancement_of_liquid_coefficient m x D rhol rhog hl
    (Cpl kl mu_b mu_w L : pyopt) :
  0 < m -> 0 < x < 1 -> 0 < D -> 0 < rhol -> 0 < rhog -> 0 < hl ->
  Martin_Sims m x D rhol rhog hl
  = Ok (hl*(1 + 0.64*Rpower (x*rhol/((1-x)*rhog)) 0.5)) /\
  Knott m x D rhol rhog Cpl kl mu_b mu_w L (Some hl)
  = Ok (hl*Rpower (1 + x*rhol/((1-x)*rhog)) (1/3)) /\
  hl < hl*(1 + 0.64*Rpower (x*rhol/((1-x)*rhog)) 0.5) /\
  hl < hl*Rpower (1 + x*rhol/((1-x)*rhog)) (1/3).
Proof.
  intros Hm Hx HD Hrl Hrg Hhl.
  pose proof (superficial_velocity_ratio m x D rhol rhog Hm Hx HD Hrl Hrg)
    as Hr.
  destruct Hx as [Hx0 Hx1].
  assert (Hv : 0 < x*rhol/((1-x)*rhog)) by pos.
  split; [|split; [|split]].
  - unfold Martin_Sims. py_eval. rewrite Hr. reflexivity.
  - unfold Knott. py_eval. rewrite Hr. reflexivity.
  - assert (0 < Rpower (x*rhol/((1-x)*rhog)) 0.5) by pos. nra.
  - assert (1 < Rpower (1 + x*rhol/((1-x)*rhog)) (1/3)).
    { rewrite <- (Rpower_1_base (1/3)) at 1. apply Rlt_Rpower_l; lra. }
    nra.
Qed.

(** The documented example [Martin_Sims(m=1, x=.9, D=.3, rhol=1000,
    rhog=2.5, hl=141.2)]. *)
Lemma enhancement_of_liquid_coefficient_example :
  Martin_Sims 1 0.9 0.3 1000 2.5 141.2
  = Ok (141.2*(1 + 0.64*Rpower (0.9*1000/((1-0.9)*2.5)) 0.5)) /\
  141.2 < 141.2*(1 + 0.64*Rpower (0.9*1000/((1-0.9)*2.5)) 0.5).
Proof.
  destruct (enhancement_of_liquid_coefficient 1 0.9 0.3 1000 2.5 141.2
              None None None None None) as (H1 & _ & H3 & _); try lra.
  split; assumption.
Defined.

(** ** Optional arguments under a truthiness test *)

(** X11. [Knott] tests [if not hl:] and [Hughmark] tests
    [if mu_b and mu_w:]. In [Knott], with [hl] given and not zero, [Cpl],
    [kl], [mu_b], [mu_w] and [L] are not read: the result is that of the
    call without them; with [hl = 0] the call answers as with [hl] left
    out, from the laminar entry correlation. In [Hughmark], with the bulk
    viscosity left out or zero the wall viscosity is not read: the result
    is that of the call with neither. *)
Theorem liquid_coefficient_and_bulk_viscosity_tests m x alpha D L rhol rhog
    hl Cpl' kl' (Cpl kl mu_b mu_w L'' : pyopt) :
  (hl <> 0 ->
   Knott m x D rhol rhog Cpl kl mu_b mu_w L'' (Some hl)
   = Knott m x D rhol rhog None None None None None (Some hl)) /\
  Knott m x D rhol rhog Cpl kl mu_b mu_w L'' (Some 0)
  = Knott m x D rhol rhog Cpl kl mu_b mu_w L'' None /\
  Hughmark m x alpha D L Cpl' kl' None mu_w
  = Hughmark m x alpha D L Cpl' kl' None None /\
  Hughmark m x alpha D L Cpl' kl' (Some 0) mu_w
  = Hughmark m x alpha D L Cpl' kl' None None.
Proof.
  split; [|split; [|split]].
  - intros Hhl. unfold Knott. rewrite (truthy_Some hl Hhl). reflexivity.
  - unfold Knott. rewrite truthy_zero, truthy_None. reflexivity.
  - unfold Hughmark. rewrite truthy_None. reflexivity.
  - unfold Hughmark. rewrite truthy_zero, truthy_None. reflexivity.
Qed.

(** The documented example of [Knott], with a liquid coefficient given. *)
Lemma liquid_coefficient_and_bulk_viscosity_tests_example :
  Knott 1 0.9 0.3 1000 2.5 (Some 2300) (Some 0.6) (Some 1E-3) (Some 1.2E-3)
    (Some 4) (Some 141.2)
  = Knott 1 0.9 0.3 1000 2.5 None None None None None (Some 141.2).
Proof.
  destruct (liquid_coefficient_and_bulk_viscosity_tests 1 0.9 0.9 0.3 0.5
              1000 2.5 141.2 2300 0.6 (Some 2300) (Some 0.6) (Some 1E-3)
              (Some 1.2E-3) (Some 4)) as [H _].
  apply H. lra.
Defined.

(** ** The wall-viscosity correction *)

(** Two runs that share a first statement. *)
Ltac same_prefix :=
  repeat
    match goal with
    | |- bind ?c _ = bind ?c _ =>
        let v := fresh "v" in
        destruct c as [v|?]; [rewrite !bind_ret; cbv beta | reflexivity]
    end.

Lemma viscosity_factor_neutral mu Nu :
  mu <> 0 ->
  Py.mul (Ok Nu) (Py.pow (Py.truediv (Ok mu) (Ok mu)) (Ok 0.14)) = Ok Nu.
Proof.
  intros Hmu. rewrite truediv_ret by assumption.
  replace (mu / mu) with 1 by (field; assumption).
  rewrite pow_ret by lra. rewrite Rpower_1_base, mul_ret. f_equal. ring.
Qed.

Ltac neutral mu_b :=
  let Hnz := fresh "Hnz" in
  destruct (Req_dec_T mu_b 0) as [->|Hnz];
  [ rewrite ?truthy_zero, ?truthy_None; reflexivity
  | rewrite ?(truthy_Some mu_b Hnz), ?truthy_None;
    cbv beta iota delta [andb]; same_prefix;
    unfold num, ret; rewrite ?viscosity_factor_neutral by assumption;
    reflexivity ].

(** X12. A wall viscosity equal to the bulk viscosity changes nothing: for
    all arguments, [Elamvaluthi_Srinivas], [Groothuis_Hendal], [Hughmark],
    [Kudirka_Grosh_McFadden], [Ravipudi_Godbold] and [Aggour] called with
    [mu_w = mu_b] answer as with [mu_w] left out, the factor
    [(mu_b/mu_w)**0.14] being 1 (and at [mu_b = 0] not applied). *)
Theorem wall_viscosity_equal_to_bulk
    m x alpha D L rhol rhog Cpl kl mug mu_b (L' : pyopt) (water : bool)
    (turbulent : option bool) :
  Elamvaluthi_Srinivas m x D rhol rhog Cpl kl mug mu_b (Some mu_b)
  = Elamvaluthi_Srinivas m x D rhol rhog Cpl kl mug mu_b None /\
  Groothuis_Hendal m x D rhol rhog Cpl kl mug mu_b (Some mu_b) water
  = Groothuis_Hendal m x D rhol rhog Cpl kl mug mu_b None water /\
  Hughmark m x alpha D L Cpl kl (Some mu_b) (Some mu_b)
  = Hughmark m x alpha D L Cpl kl (Some mu_b) None /\
  Kudirka_Grosh_McFadden m x D rhol rhog Cpl kl mug mu_b (Some mu_b)
  = Kudirka_Grosh_McFadden m x D rhol rhog Cpl kl mug mu_b None /\
  Ravipudi_Godbold m x D rhol rhog Cpl kl mug mu_b (Some mu_b)
  = Ravipudi_Godbold m x D rhol rhog Cpl kl mug mu_b None /\
  Aggour m x alpha D rhol Cpl kl mu_b (Some mu_b) L' turbulent
  = Aggour m x alpha D rhol Cpl kl mu_b None L' turbulent.
Proof.
  repeat split.
  - unfold Elamvaluthi_Srinivas. neutral mu_b.
  - unfold Groothuis_Hendal. neutral mu_b.
  - unfold Hughmark. neutral mu_b.
  - unfold Kudirka_Grosh_McFadden. neutral mu_b.
  - unfold Ravipudi_Godbold. neutral mu_b.
  - unfold Aggour.
    destruct (Req_dec_T mu_b 0) as [->|Hnz];
      [rewrite ?truthy_zero, ?truthy_None; reflexivity|].
    rewrite (truthy_Some mu_b Hnz), truthy_None. same_prefix.
    match goal with |- (if ?b then _ else _) = _ => destruct b end;
      [reflexivity|].
    same_prefix. unfold num, ret.
    rewrite viscosity_factor_neutral by assumption. reflexivity.
Qed.

Section WallViscosity.

Variables m x alpha D L rhol rhog Cpl kl mug mu_b : R.
Variable water : bool.
Hypothesis Hm : 0 < m.
Hypothesis Hx : 0 < x < 1.
Hypothesis Halpha : 0 < alpha < 1.
Hypothesis HD : 0 < D.
Hypothesis HL : 0 < L.
Hypothesis Hrhol : 0 < rhol.
Hypothesis Hrhog : 0 < rhog.
Hypothesis HCpl : 0 < Cpl.
Hypothesis Hkl : 0 < kl.
Hypothesis Hmug : 0 < mug.
Hypothesis Hmu_b : 0 < mu_b.
Variables a b : R.
Hypothesis Ha : 0 < a.
Hypothesis Hab : a < b.

Ltac falls f :=
  destruct Hx;
  assert (Hln : ln a < ln b) by (apply ln_increasing; assumption);
  assert (Hb : 0 < b) by lra;
  eapply coefficient_decreases_intro;
    [ unfold f, fluids_core.Prandtl; py_eval; reflexivity
    | unfold f, fluids_core.Prandtl; py_eval; reflexivity
    | pos | pos | ];
  ln_norm; lra.

Lemma Elamvaluthi_Srinivas_decreases :
  coefficient_decreases
    (fun w => Elamvaluthi_Srinivas m x D rhol rhog Cpl kl mug mu_b (Some w))
    a b.
Proof. falls Elamvaluthi_Srinivas. Qed.

Lemma Groothuis_Hendal_decreases :
  coefficient_decreases
    (fun w => Groothuis_Hendal m x D rhol rhog Cpl kl mug mu_b (Some w) water)
    a b.
Proof. destruct water; falls Groothuis_Hendal. Qed.

Lemma Hughmark_decreases :
  coefficient_decreases
    (fun w => Hughmark m x alpha D L Cpl kl (Some mu_b) (Some w)) a b.
Proof. destruct Halpha. falls Hughmark. Qed.

Lemma Kudirka_Grosh_McFadden_decreases :
  coefficient_decreases
    (fun w => Kudirka_Grosh_McFadden m x D rhol rhog Cpl kl mug mu_b (Some w))
    a b.
Proof. falls Kudirka_Grosh_McFadden. Qed.

Lemma Ravipudi_Godbold_decreases :
  coefficient_decreases
    (fun w => Ravipudi_Godbold m x D rhol rhog Cpl kl mug mu_b (Some w)) a b.
Proof. falls Ravipudi_Godbold. Qed.

End WallViscosity.

(** X13. On positive inputs with [0 < x < 1] and [0 < alpha < 1], a larger
    wall viscosity gives a strictly smaller coefficient: for
    [0 < a < b], [Elamvaluthi_Srinivas], [Groothuis_Hendal], [Hughmark],
    [Kudirka_Grosh_McFadden] and [Ravipudi_Godbold] return at [mu_w = a] and
    at [mu_w = b], and the coefficient at [b] is the smaller one. *)
Theorem wall_viscosity_lowers_coefficient
    m x alpha D L rhol rhog Cpl kl mug mu_b (water : bool) a b :
  0 < m -> 0 < x < 1 -> 0 < alpha < 1 -> 0 < D -> 0 < L -> 0 < rhol ->
  0 < rhog -> 0 < Cpl -> 0 < kl -> 0 < mug -> 0 < mu_b -> 0 < a -> a < b ->
  coefficient_decreases
    (fun w => Elamvaluthi_Srinivas m x D rhol rhog Cpl kl mug mu_b (Some w))
    a b /\
  coefficient_decreases
    (fun w => Groothuis_Hendal m x D rhol rhog Cpl kl mug mu_b (Some w) water)
    a b /\
  coefficient_decreases
    (fun w => Hughmark m x alpha D L Cpl kl (Some mu_b) (Some w)) a b /\
  coefficient_decreases
    (fun w => Kudirka_Grosh_McFadden m x D rhol rhog Cpl kl mug mu_b (Some w))
    a b /\
  coefficient_decreases
    (fun w => Ravipudi_Godbold m x D rhol rhog Cpl kl mug mu_b (Some w)) a b.
Proof.
  intros Hm Hx Halpha HD HL Hrl Hrg HCl Hkl Hmg Hmb Ha Hab.
  split; [apply Elamvaluthi_Srinivas_decreases; assumption|].
  split; [apply Groothuis_Hendal_decreases; assumption|].
  split; [apply Hughmark_decreases; assumption|].
  split; [apply Kudirka_Grosh_McFadden_decreases; assumption|].
  apply Ravipudi_Godbold_decreases; assumption.
Qed.

(** The documented examples, from [mu_w = mu_b = 1E-3] to their
    [mu_w = 1.2E-3]. *)
Lemma wall_viscosity_lowers_coefficient_example :
  coefficient_decreases
    (fun w => Elamvaluthi_Srinivas 1 0.9 0.3 1000 2.5 2300 0.6 1E-5 1E-3
                (Some w)) 1E-3 1.2E-3 /\
  coefficient_decreases
    (fun w => Hughmark 1 0.9 0.9 0.3 0.5 2300 0.6 (Some 1E-3) (Some w))
    1E-3 1.2E-3.
Proof.
  destruct (wall_viscosity_lowers_coefficient 1 0.9 0.9 0.3 0.5 1000 2.5 2300
              0.6 1E-5 1E-3 true 1E-3 1.2E-3) as (H1 & _ & H3 & _); try lra.
  split; assumption.
Defined.

(** ** [Aggour]: the laminar branch needs the length *)

Section AggourLength.

Variables m x alpha D rhol Cpl kl mu_b : R.
Variable mu_w : pyopt.
Variable turbulent : option bool.
Hypothesis Hm : 0 < m.
Hypothesis Hx : 0 < x < 1.
Hypothesis Halpha : 0 < alpha < 1.
Hypothesis HD : 0 < D.
Hypothesis Hrhol : 0 < rhol.
Hypothesis HCpl : 0 < Cpl.
Hypothesis Hkl : 0 < kl.
Hypothesis Hmu_b : 0 < mu_b.
Hypothesis Hlam :
  turbulent = Some false \/
  (turbulent = None /\ Aggour_Rel m x alpha D rhol mu_b <= 2000).

Ltac laminar :=
  destruct Hx, Halpha;
  unfold Aggour, fluids_core.Reynolds, fluids_core.Prandtl, gt;
  py_eval; rewrite Rpower_sqr by assumption;
  unfold Aggour_Rel, Py.pi in *;
  match goal with |- context [Rgt_dec ?a ?b] => destruct (Rgt_dec a b) end;
  destruct Hlam as [->|[-> Hle]]; cbn [truthy_flag flag_is_None];
  try lra; py_eval.

Lemma Aggour_laminar_without_L :
  Aggour m x alpha D rhol Cpl kl mu_b mu_w None turbulent = Raise TypeError.
Proof. laminar; reflexivity. Qed.

Lemma Aggour_laminar_zero_L :
  Aggour m x alpha D rhol Cpl kl mu_b mu_w (Some 0) turbulent
  = Raise ZeroDivisionError.
Proof. laminar; rewrite truediv_zero; py_eval; reflexivity. Qed.

End AggourLength.

(** X14. The length [L] of [Aggour] is optional in the signature and
    required on the laminar branch: on positive inputs with [0 < x < 1] and
    [0 < alpha < 1], a call with [turbulent=False], or with [turbulent=None]
    and [Rel <= 2000], raises [TypeError] when [L] is left out and
    [ZeroDivisionError] when [L = 0], whatever [mu_w] is. *)
Theorem Aggour_laminar_needs_length m x alpha D rhol Cpl kl mu_b
    (mu_w : pyopt) (turbulent : option bool) :
  0 < m -> 0 < x < 1 -> 0 < alpha < 1 -> 0 < D -> 0 < rhol -> 0 < Cpl ->
  0 < kl -> 0 < mu_b ->
  turbulent = Some false \/
  (turbulent = None /\ Aggour_Rel m x alpha D rhol mu_b <= 2000) ->
  Aggour m x alpha D rhol Cpl kl mu_b mu_w None turbulent = Raise TypeError /\
  Aggour m x alpha D rhol Cpl kl mu_b mu_w (Some 0) turbulent
  = Raise ZeroDivisionError.
Proof.
  intros Hm Hx Halpha HD Hrl HCl Hkl Hmb Hlam.
  split; [apply Aggour_laminar_without_L | apply Aggour_laminar_zero_L];
    assumption.
Qed.

(** The documented example of [Aggour], forced to the laminar branch. *)
Lemma Aggour_laminar_needs_length_example :
  Aggour 1 0.9 0.9 0.3 1000 2300 0.6 1E-3 None None (Some false)
  = Raise TypeError.
Proof.
  destruct (Aggour_laminar_needs_length 1 0.9 0.9 0.3 1000 2300 0.6 1E-3 None
              (Some false)) as [H _]; try lra.
  - left; reflexivity.
  - exact H.
Defined.

(** ** The ends of the quality range *)

Section Endpoints.

Variables m alpha D L rhol rhog Cpl kl mul mug mu_b hl : R.
Variable mu_w : pyopt.
Hypothesis Hm : 0 < m.
Hypothesis Halpha : 0 < alpha < 1.
Hypothesis HD : 0 < D.
Hypothesis HL : 0 < L.
Hypothesis Hrhol : 0 < rhol.
Hypothesis Hrhog : 0 < rhog.
Hypothesis HCpl : 0 < Cpl.
Hypothesis Hkl : 0 < kl.
Hypothesis Hmul : 0 < mul.
Hypothesis Hmug : 0 < mug.
Hypothesis Hmu_b : 0 < mu_b.
Hypothesis Hhl : 0 < hl.
Hypothesis Hmu_w : supplied_pos mu_w.

(** A power of a base that is zero, and the quotient by a zero. *)
Ltac at_zero :=
  repeat first
    [ progress py_eval
    | rewrite pow_ret_zero_base by (first [lra | unfold Rdiv; ring])
    | rewrite truediv_by_zero by (first [lra | unfold Rdiv; ring]) ].

Ltac no_gas f :=
  unfold f, fluids_core.Prandtl; at_zero; f_equal; unfold Rdiv; ring.

Lemma Davis_David_no_gas :
  Davis_David m 0 D rhol rhog Cpl kl mul = Ok 0.
Proof. no_gas Davis_David. Qed.

Lemma Martin_Sims_no_gas : Martin_Sims m 0 D rhol rhog hl = Ok hl.
Proof. no_gas Martin_Sims. Qed.

Lemma Knott_no_gas (Cpl' kl' mu_b' mu_w' L' : pyopt) :
  Knott m 0 D rhol rhog Cpl' kl' mu_b' mu_w' L' (Some hl) = Ok hl.
Proof.
  unfold Knott. at_zero.
  match goal with
  | |- context [Py.pow (Ok ?s) _] => replace s with 1 by (unfold Rdiv; ring)
  end.
  rewrite pow_ret by lra. rewrite Rpower_1_base. py_eval. f_equal. ring.
Qed.

Lemma Martin_Sims_no_liquid :
  Martin_Sims m 1 D rhol rhog hl = Raise ZeroDivisionError.
Proof. unfold Martin_Sims. at_zero. reflexivity. Qed.

Lemma Knott_no_liquid (Cpl' kl' mu_b' mu_w' L' : pyopt) :
  Knott m 1 D rhol rhog Cpl' kl' mu_b' mu_w' L' (Some hl)
  = Raise ZeroDivisionError.
Proof. unfold Knott. at_zero. reflexivity. Qed.

Lemma Hughmark_no_liquid :
  Hughmark m 1 alpha D L Cpl kl (Some mu_b) mu_w = Ok 0.
Proof.
  destruct Halpha.
  unfold Hughmark. at_zero.
  case_opt mu_w; at_zero; f_equal; unfold Rdiv; ring.
Qed.

Lemma Kudirka_Grosh_McFadden_no_gas :
  Kudirka_Grosh_McFadden m 0 D rhol rhog Cpl kl mug mu_b mu_w = Ok 0.
Proof.
  unfold Kudirka_Grosh_McFadden, fluids_core.Prandtl. at_zero.
  case_opt mu_w; at_zero; f_equal; unfold Rdiv; ring.
Qed.

Lemma Ravipudi_Godbold_no_gas :
  Ravipudi_Godbold m 0 D rhol rhog Cpl kl mug mu_b mu_w = Ok 0.
Proof.
  unfold Ravipudi_Godbold, fluids_core.Prandtl. at_zero.
  case_opt mu_w; at_zero; f_equal; unfold Rdiv; ring.
Qed.

Lemma Kudirka_Grosh_McFadden_no_liquid :
  Kudirka_Grosh_McFadden m 1 D rhol rhog Cpl kl mug mu_b mu_w
  = Raise ZeroDivisionError.
Proof.
  unfold Kudirka_Grosh_McFadden, fluids_core.Prandtl. at_zero. reflexivity.
Qed.

Lemma Ravipudi_Godbold_no_liquid :
  Ravipudi_Godbold m 1 D rhol rhog Cpl kl mug mu_b mu_w
  = Raise ZeroDivisionError.
Proof.
  unfold Ravipudi_Godbold, fluids_core.Prandtl. at_zero. reflexivity.
Qed.

Lemma Aggour_no_liquid (turbulent : option bool) :
  Aggour m 1 alpha D rhol Cpl kl mu_b mu_w (Some L) turbulent = Ok 0.
Proof.
  destruct Halpha.
  unfold Aggour, fluids_core.Reynolds, fluids_core.Prandtl, gt. at_zero.
  match goal with
  | |- context [Rgt_dec ?a ?b] =>
      replace a with 0 by (unfold Rdiv; ring);
      destruct (Rgt_dec 0 b); [lra|]
  end.
  destruct turbulent as [[|]|]; cbn [truthy_flag flag_is_None orb andb];
    at_zero; try (case_opt mu_w; at_zero); f_equal; unfold Rdiv; ring.
Qed.

End Endpoints.

Lemma pow_ret_zero_negative s y :
  s = 0 -> y < 0 -> Py.pow (Ok s) (Ok y) = Raise ZeroDivisionError.
Proof.
  intros -> Hy. unfold Py.pow, Py.binop, Py.pow_float.
  destruct (Rlt_dec 0 0); [lra|].
  destruct (Req_dec_T 0 0); [|contradiction].
  destruct (Rlt_dec 0 y); [lra|].
  destruct (Req_dec_T y 0); [lra | reflexivity].
Qed.

Section AllVapor.

Variables m D rhol rhog mul kl Hvap sigma v : R.
Hypothesis Hm : 0 < m.
Hypothesis HD : 0 < D.
Hypothesis Hrhol : 0 < rhol.
Hypothesis Hmul : 0 < mul.
Hypothesis Hkl : 0 < kl.
Hypothesis HHvap : 0 < Hvap.
Hypothesis Hsigma : 0 < sigma.
Hypothesis Hv : 0 < v.

Ltac at_zero :=
  repeat first
    [ progress py_eval
    | rewrite pow_ret_zero_base by (first [lra | unfold Rdiv; ring])
    | rewrite pow_ret_zero_negative by (first [lra | unfold Rdiv; ring]) ].

Lemma Li_Wu_all_vapor :
  Li_Wu m 1 D rhol rhog mul kl Hvap sigma (Some v) None = Ok 0 /\
  Li_Wu m 1 D rhol rhog mul kl Hvap sigma None (Some v) = Ok 0.
Proof.
  split; unfold Li_Wu, fluids_core.Boiling, fluids_core.Bond; at_zero;
    f_equal; unfold Rdiv; ring.
Qed.

Lemma Yun_Heo_Kim_all_vapor :
  Yun_Heo_Kim m 1 D rhol mul Hvap sigma (Some v) None
  = Raise ZeroDivisionError /\
  Yun_Heo_Kim m 1 D rhol mul Hvap sigma None (Some v)
  = Raise ZeroDivisionError.
Proof.
  split; unfold Yun_Heo_Kim, fluids_core.Boiling, fluids_core.Weber; at_zero;
    reflexivity.
Qed.

End AllVapor.

(** X15. At [x = 0] (no gas), on otherwise positive inputs: [Martin_Sims]
    and [Knott] with [hl] given return [hl] itself, and [Davis_David],
    [Kudirka_Grosh_McFadden] and [Ravipudi_Godbold] return exactly 0, the
    gas velocity being a factor of their Nusselt numbers. *)
Theorem two_phase_all_liquid m D rhol rhog Cpl kl mul mug mu_b hl
    (mu_w Cpl' kl' mu_b' mu_w' L' : pyopt) :
  0 < m -> 0 < D -> 0 < rhol -> 0 < rhog -> 0 < Cpl -> 0 < kl -> 0 < mul ->
  0 < mug -> 0 < mu_b -> 0 < hl -> supplied_pos mu_w ->
  Martin_Sims m 0 D rhol rhog hl = Ok hl /\
  Knott m 0 D rhol rhog Cpl' kl' mu_b' mu_w' L' (Some hl) = Ok hl /\
  Davis_David m 0 D rhol rhog Cpl kl mul = Ok 0 /\
  Kudirka_Grosh_McFadden m 0 D rhol rhog Cpl kl mug mu_b mu_w = Ok 0 /\
  Ravipudi_Godbold m 0 D rhol rhog Cpl kl mug mu_b mu_w = Ok 0.
Proof.
  intros Hm HD Hrl Hrg HCl Hkl Hml Hmg Hmb Hhl Hmw.
  split; [apply Martin_Sims_no_gas; assumption|].
  split; [apply Knott_no_gas; assumption|].
  split; [apply Davis_David_no_gas; assumption|].
  split; [apply Kudirka_Grosh_McFadden_no_gas; assumption|].
  apply Ravipudi_Godbold_no_gas; assumption.
Qed.

(** The documented examples, at [x = 0]. *)
Lemma two_phase_all_liquid_example :
  Martin_Sims 1 0 0.3 1000 2.5 141.2 = Ok 141.2 /\
  Davis_David 1 0 0.3 1000 2.5 2300 0.6 1E-3 = Ok 0.
Proof.
  destruct (two_phase_all_liquid 1 0.3 1000 2.5 2300 0.6 1E-3 1E-5 1E-3
              141.2 None None None None None None)
    as (H1 & _ & H3 & _); try lra; try apply supplied_pos_None.
  split; assumption.
Defined.

(** X16. At [x = 1] (no liquid), on otherwise positive inputs with
    [0 < alpha < 1]: [Martin_Sims], [Knott] with [hl] given,
    [Kudirka_Grosh_McFadden] and [Ravipudi_Godbold] raise
    [ZeroDivisionError] at [Vgs/Vls]; [Hughmark] and [Aggour] with [L] given
    return exactly 0, whatever the flag [turbulent] is. *)
Theorem two_phase_all_gas m alpha D L rhol rhog Cpl kl mug mu_b hl
    (mu_w Cpl' kl' mu_b' mu_w' L' : pyopt) (turbulent : option bool) :
  0 < m -> 0 < alpha < 1 -> 0 < D -> 0 < L -> 0 < rhol -> 0 < rhog ->
  0 < Cpl -> 0 < kl -> 0 < mug -> 0 < mu_b -> 0 < hl -> supplied_pos mu_w ->
  Martin_Sims m 1 D rhol rhog hl = Raise ZeroDivisionError /\
  Knott m 1 D rhol rhog Cpl' kl' mu_b' mu_w' L' (Some hl)
  = Raise ZeroDivisionError /\
  Kudirka_Grosh_McFadden m 1 D rhol rhog Cpl kl mug mu_b mu_w
  = Raise ZeroDivisionError /\
  Ravipudi_Godbold m 1 D rhol rhog Cpl kl mug mu_b mu_w
  = Raise ZeroDivisionError /\
  Hughmark m 1 alpha D L Cpl kl (Some mu_b) mu_w = Ok 0 /\
  Aggour m 1 alpha D rhol Cpl kl mu_b mu_w (Some L) turbulent = Ok 0.
Proof.
  intros Hm Halpha HD HL Hrl Hrg HCl Hkl Hmg Hmb Hhl Hmw.
  split; [apply Martin_Sims_no_liquid; assumption|].
  split; [apply Knott_no_liquid; assumption|].
  split; [apply Kudirka_Grosh_McFadden_no_liquid; assumption|].
  split; [apply Ravipudi_Godbold_no_liquid; assumption|].
  split; [apply Hughmark_no_liquid; assumption|].
  apply Aggour_no_liquid; assumption.
Qed.

(** The documented examples, at [x = 1]. *)
Lemma two_phase_all_gas_example :
  Martin_Sims 1 1 0.3 1000 2.5 141.2 = Raise ZeroDivisionError /\
  Hughmark 1 1 0.9 0.3 0.5 2300 0.6 (Some 1E-3) (Some 1.2E-3) = Ok 0 /\
  Aggour 1 1 0.9 0.3 1000 2300 0.6 1E-3 (Some 1.2E-3) (Some 0.5) None = Ok 0.
Proof.
  destruct (two_phase_all_gas 1 0.9 0.3 0.5 1000 2.5 2300 0.6 1E-5 1E-3 141.2
              (Some 1.2E-3) None None None None None None)
    as (H1 & _ & _ & _ & H5 & H6); try lra;
    try (apply supplied_pos_Some; lra).
  repeat split; assumption.
Defined.

(** X17. At [x = 1] the liquid Reynolds number [Rel = G*D*(1-x)/mul] is
    zero: on positive [m], [D], [rhol], [mul], [kl], [Hvap], [sigma], [Li_Wu]
    returns exactly 0 on both paths, for every gas density, and
    [Yun_Heo_Kim] raises [ZeroDivisionError] on both paths at
    [Rel**-0.1626]. *)
Theorem boiling_all_vapor m D rhol rhog mul kl Hvap sigma v :
  0 < m -> 0 < D -> 0 < rhol -> 0 < mul -> 0 < kl -> 0 < Hvap ->
  0 < sigma -> 0 < v ->
  (Li_Wu m 1 D rhol rhog mul kl Hvap sigma (Some v) None = Ok 0 /\
   Li_Wu m 1 D rhol rhog mul kl Hvap sigma None (Some v) = Ok 0) /\
  (Yun_Heo_Kim m 1 D rhol mul Hvap sigma (Some v) None
   = Raise ZeroDivisionError /\
   Yun_Heo_Kim m 1 D rhol mul Hvap sigma None (Some v)
   = Raise ZeroDivisionError).
Proof.
  intros Hm HD Hrl Hml Hkl HH Hs Hv.
  split; [apply Li_Wu_all_vapor | apply Yun_Heo_Kim_all_vapor]; assumption.
Qed.

(** The documented examples of [Li_Wu] and [Yun_Heo_Kim], at [x = 1]. *)
Lemma boiling_all_vapor_example :
  Li_Wu 1 1 0.3 567 18.09 156E-6 0.086 9E5 0.02 (Some 1E5) None = Ok 0 /\
  Yun_Heo_Kim 1 1 0.3 567 156E-6 9E5 0.02 (Some 1E5) None
  = Raise ZeroDivisionError.
Proof.
  destruct (boiling_all_vapor 1 0.3 567 18.09 156E-6 0.086 9E5 0.02 1E5)
    as ((H1 & _) & (H2 & _)); try lra.
  split; assumption.
Defined.
